(** * Hades Cheat Injector: a shallow embedding of [hades_cheat.py]

    The development follows the source file top to bottom: the Python
    values and built-ins the program relies on, the [Action] class
    hierarchy, the [TextProcessor] reader/writer and the [App] driver with
    its macro regular expression.  Theorems come after the definitions. *)

From Stdlib Require Import ZArith NArith Lia Bool List Ascii String.
From Stdlib Require Import Floats.SpecFloat.
From stdpp Require Import base option list gmap strings.
Import ListNotations.

Local Open Scope Z_scope.

(* ===================================================================== *)
(** * Python values *)
(* ===================================================================== *)

(** A Python [str] is a sequence of Unicode code points. *)
Definition pychar := N.
Definition pystr := list N.

(** A [bytes] object: each element is a byte, kept as a number below 256. *)
Definition pybytes := list N.

(** ASCII literals of the source, as code points. *)
Fixpoint lit (s : string) : pystr :=
  match s with
  | EmptyString => []
  | String a s' => N_of_ascii a :: lit s'
  end.

Definition chr (a : ascii) : pychar := N_of_ascii a.

(** The exceptions the program can raise, by class.  The [RuntimeError]s are
    the program's own and carry what their message names. *)
Inductive runtime_msg :=
  | UnknownGodModeName (name : pystr)
  | UnknownFishingName (name : pystr)
  | NotConfident (filename : string)
  | UnknownEncoding (filename : string)
  | UnknownLineEndings (filename : string).

Inductive exn :=
  | RuntimeError (m : runtime_msg)
  | ValueError
  | OverflowError
  | ZeroDivisionError
  | UnicodeEncodeError
  | UnicodeDecodeError
  | AttributeError
  | FileNotFoundError.

(** Computations that return or raise. *)
Inductive result (A : Type) :=
  | Ok (a : A)
  | Raise (e : exn).
Arguments Ok {A} a.
Arguments Raise {A} e.

Global Instance result_ret : MRet result := fun _ a => Ok a.
Global Instance result_bind : MBind result := fun _ _ k m =>
  match m with
  | Ok a => k a
  | Raise e => Raise e
  end.

Global Instance result_fmap : FMap result := fun _ _ f m =>
  match m with
  | Ok a => Ok (f a)
  | Raise e => Raise e
  end.

Definition of_option {A} (e : exn) (o : option A) : result A :=
  match o with
  | Some a => Ok a
  | None => Raise e
  end.

(* ===================================================================== *)
(** * Regular expressions, as far as [App.macro_re] uses them *)
(* ===================================================================== *)

(** The named groups of [macro_re]. *)
Inductive group := Gstart | Gname | Gdefault | Gend.

Global Instance group_eq_dec : EqDecision group.
Proof. solve_decision. Defined.

(** Repetition is only ever applied to a single-character class in
    [macro_re], so the syntax keeps classes under the repetition
    operators. *)
Inductive regex :=
  | RBol                                (* ^ *)
  | REol                                (* $ *)
  | RChar (c : pychar)                  (* a literal character *)
  | RStar (p : pychar -> bool)          (* p*   greedy *)
  | RPlus (p : pychar -> bool)          (* p+   greedy *)
  | RStarLazy (p : pychar -> bool)      (* p*?  lazy *)
  | RGroup (g : group) (r : regex)      (* (?P<g>r) *)
  | RSeq (r1 r2 : regex).

(** [.] without DOTALL: any character but a newline. *)
Definition dot (c : pychar) : bool := negb (N.eqb c 10).

(** [[a-z_]] *)
Definition name_char (c : pychar) : bool :=
  (N.leb 97 c && N.leb c 122) || N.eqb c 95.

Definition captures := group -> option pystr.
Definition no_captures : captures := fun _ => None.
Definition set_capture (g : group) (s : pystr) (cs : captures) : captures :=
  fun g' => if decide (g' = g) then Some s else cs g'.

(** The state of a match: the position reached, what is left of the
    subject and the groups captured so far. *)
Record mstate := MState { pos : nat; rest : pystr; caps : captures }.

Section Backtracking.
Context {R : Type}.

(** Greedy star: take as many characters as the class allows, then give
    them back one at a time until the continuation succeeds. *)
Fixpoint star_greedy (p : pychar -> bool) (n : nat) (s : pystr)
    (k : nat -> pystr -> option R) : option R :=
  match s with
  | c :: s' =>
      if p c then
        match star_greedy p (S n) s' k with
        | Some r => Some r
        | None => k n s
        end
      else k n s
  | [] => k n s
  end.

(** Lazy star: try the continuation first, take one more character only
    when it fails. *)
Fixpoint star_lazy (p : pychar -> bool) (n : nat) (s : pystr)
    (k : nat -> pystr -> option R) : option R :=
  match k n s with
  | Some r => Some r
  | None =>
      match s with
      | c :: s' => if p c then star_lazy p (S n) s' k else None
      | [] => None
      end
  end.
End Backtracking.

(** A backtracking matcher in continuation-passing style: [k] is the rest
    of the pattern. *)
Fixpoint rmatch (r : regex) (st : mstate) (k : mstate -> option captures)
    : option captures :=
  match r with
  | RBol => if Nat.eqb (pos st) 0 then k st else None
  | REol =>
      match rest st with
      | [] => k st
      | [c] => if N.eqb c 10 then k st else None
      | _ => None
      end
  | RChar c =>
      match rest st with
      | c' :: s' =>
          if N.eqb c c' then k (MState (S (pos st)) s' (caps st)) else None
      | [] => None
      end
  | RStar p =>
      star_greedy p (pos st) (rest st) (fun n s => k (MState n s (caps st)))
  | RPlus p =>
      match rest st with
      | c :: s' =>
          if p c then
            star_greedy p (S (pos st)) s' (fun n s => k (MState n s (caps st)))
          else None
      | [] => None
      end
  | RStarLazy p =>
      star_lazy p (pos st) (rest st) (fun n s => k (MState n s (caps st)))
  | RGroup g r1 =>
      rmatch r1 st (fun st' =>
        k (MState (pos st') (rest st')
             (set_capture g (take (pos st' - pos st)%nat (rest st)) (caps st'))))
  | RSeq r1 r2 => rmatch r1 st (fun st' => rmatch r2 st' k)
  end.

(** [pattern.match(s)]: anchored at the start of the subject. *)
Definition re_match (r : regex) (s : pystr) : option captures :=
  rmatch r (MState 0 s no_captures) (fun st => Some (caps st)).

Infix ";;;" := RSeq (at level 60, right associativity, only parsing).

(** [App.macro_re]: start of line, group [start] = greedy any-characters,
    an at sign, group [name] = one or more of [a-z_], a vertical bar,
    group [default] = lazy any-characters, an at sign, group [end] = greedy
    any-characters, end of line. *)
Definition macro_re : regex :=
  RBol ;;; RGroup Gstart (RStar dot) ;;; RChar (chr "@") ;;;
  RGroup Gname (RPlus name_char) ;;; RChar (chr "|") ;;;
  RGroup Gdefault (RStarLazy dot) ;;; RChar (chr "@") ;;;
  RGroup Gend (RStar dot) ;;; REol.

(** [match.group(g)]; every group of [macro_re] takes part in a match. *)
Definition mgroup (m : captures) (g : group) : pystr :=
  default [] (m g).

(** One macro occurrence: the four groups of a successful match. *)
Record occurrence := Occurrence {
  occ_start : pystr;
  occ_name : pystr;
  occ_default : pystr;
  occ_end : pystr
}.

Definition macro_match (line : pystr) : option occurrence :=
  match re_match macro_re line with
  | Some m =>
      Some (Occurrence (mgroup m Gstart) (mgroup m Gname)
                       (mgroup m Gdefault) (mgroup m Gend))
  | None => None
  end.

(* ===================================================================== *)
(** * Python numbers *)
(* ===================================================================== *)

(** A Python [float] is an IEEE 754 binary64 number; the Standard Library's
    [spec_float] with [prec = 53] and [emax = 1024] gives its operations,
    rounding to nearest, ties to even. *)
Abbreviation float := spec_float.
Definition prec : Z := 53.
Definition emax : Z := 1024.

Definition fadd : float -> float -> float := SFadd prec emax.
Definition fsub : float -> float -> float := SFsub prec emax.
Definition fmul : float -> float -> float := SFmul prec emax.
Definition fdiv : float -> float -> float := SFdiv prec emax.

Definition is_nan (x : float) : bool :=
  match x with S754_nan => true | _ => false end.
Definition is_inf (x : float) : bool :=
  match x with S754_infinity _ => true | _ => false end.
Definition is_finite (x : float) : bool :=
  match x with S754_zero _ | S754_finite _ _ _ => true | _ => false end.

(** The quotient [n / d] of two positive integers, correctly rounded.  The
    division of [spec_float] works on mantissas of any size. *)
Definition ratio_to_float (s : bool) (n d : positive) : float :=
  fdiv (S754_finite s n 0) (S754_finite false d 0).

(** [sign * n / d] for a natural numerator that may be zero. *)
Definition signed_ratio_to_float (s : bool) (n : Z) (d : positive) : float :=
  match n with
  | Zpos p => ratio_to_float s p d
  | _ => S754_zero s
  end.

(** The float literal [0.5] of [ActionScaleInt._process]. *)
Definition float_0_5 : float := S754_finite false 4503599627370496 (-53).

(** The float literal [0.9] of [TextProcessor.__init__]. *)
Definition float_0_9 : float := S754_finite false 8106479329266893 (-53).

(** Numbers: [int] and [float]. *)
Inductive num :=
  | Int (z : Z)
  | Float (f : float).

(** What an action can hand back: text or a number. *)
Inductive pyval :=
  | VStr (s : pystr)
  | VNum (n : num).

(** [float(n)] for an [int]: correctly rounded, [OverflowError] beyond the
    range of binary64. *)
Definition int_to_float (z : Z) : result float :=
  let f := binary_normalize prec emax z 0 false in
  if is_inf f then Raise OverflowError else Ok f.

Definition num_to_float (n : num) : result float :=
  match n with
  | Int z => int_to_float z
  | Float f => Ok f
  end.

(** [x * n] where [x] is a float. *)
Definition float_mul_num (x : float) (n : num) : result float :=
  y ← num_to_float n; Ok (fmul x y).

(** Exact value of a number on the extended dyadic line, for comparisons:
    Python compares an [int] with a [float] exactly. *)
Inductive xval :=
  | XNaN
  | XNegInf
  | XPosInf
  | XFin (m e : Z). (* m * 2^e *)

Definition float_xval (x : float) : xval :=
  match x with
  | S754_nan => XNaN
  | S754_infinity true => XNegInf
  | S754_infinity false => XPosInf
  | S754_zero _ => XFin 0 0
  | S754_finite s m e => XFin (cond_Zopp s (Zpos m)) e
  end.

Definition num_xval (n : num) : xval :=
  match n with
  | Int z => XFin z 0
  | Float f => float_xval f
  end.

Definition xval_compare (a b : xval) : option comparison :=
  match a, b with
  | XNaN, _ | _, XNaN => None
  | XNegInf, XNegInf | XPosInf, XPosInf => Some Eq
  | XNegInf, _ | _, XPosInf => Some Lt
  | _, XNegInf | XPosInf, _ => Some Gt
  | XFin m1 e1, XFin m2 e2 =>
      let e := Z.min e1 e2 in
      Some (Z.compare (m1 * 2 ^ (e1 - e)) (m2 * 2 ^ (e2 - e)))
  end.

Definition num_lt (a b : num) : bool :=
  match xval_compare (num_xval a) (num_xval b) with
  | Some Lt => true
  | _ => false
  end.

Definition num_le (a b : num) : bool :=
  match xval_compare (num_xval a) (num_xval b) with
  | Some Lt | Some Eq => true
  | _ => false
  end.

Definition num_gt (a b : num) : bool := num_lt b a.
Definition num_ge (a b : num) : bool := num_le b a.

(** The built-in [max(a, b)]: the first argument unless the second is
    greater. *)
Definition py_max (a b : num) : num := if num_gt b a then b else a.

(** The built-in [min(a, b)]: the first argument unless the second is
    smaller. *)
Definition py_min (a b : num) : num := if num_lt b a then b else a.

(** [a - b] *)
Definition num_sub (a b : num) : result num :=
  match a, b with
  | Int x, Int y => Ok (Int (x - y))
  | _, _ => x ← num_to_float a; y ← num_to_float b; Ok (Float (fsub x y))
  end.

Definition float_is_zero (x : float) : bool :=
  match x with S754_zero _ => true | _ => false end.

(** True division [a / b]: always a float; [int / int] is correctly
    rounded. *)
Definition num_truediv (a b : num) : result float :=
  match a, b with
  | Int x, Int y =>
      match y with
      | Z0 => Raise ZeroDivisionError
      | _ =>
          let s := xorb (x <? 0) (y <? 0) in
          let f := signed_ratio_to_float s (Z.abs x) (Z.to_pos (Z.abs y)) in
          if is_inf f then Raise OverflowError else Ok f
      end
  | _, _ =>
      x ← num_to_float a; y ← num_to_float b;
      if float_is_zero y then Raise ZeroDivisionError else Ok (fdiv x y)
  end.

(** [math.floor(x)] *)
Definition math_floor (x : float) : result Z :=
  match x with
  | S754_nan => Raise ValueError
  | S754_infinity _ => Raise OverflowError
  | S754_zero _ => Ok 0
  | S754_finite s m e => Ok (Z.shiftl (cond_Zopp s (Zpos m)) e)
  end.

(* ===================================================================== *)
(** * Text to number: [float(s)] and [int(s)] *)
(* ===================================================================== *)

(** The characters [float] and [int] strip from both ends of a text: the
    six ASCII ones of C's [isspace], and the white space beyond ASCII, which
    the conversion replaces by a space before it reads the number.  The
    separators U+001C to U+001F are white space for [str.isspace] but not
    here. *)
Definition is_space (c : pychar) : bool :=
  ((9 <=? c) && (c <=? 13) || (c =? 32) || (c =? 133) ||
   (c =? 160) || (c =? 5760) || (8192 <=? c) && (c <=? 8202) ||
   (c =? 8232) || (c =? 8233) || (c =? 8239) || (c =? 8287) ||
   (c =? 12288))%N.

(** Decimal digits.  [float] and [int] read the decimal digits of every
    script: each script has ten of them in a row, and the table lists the
    zero of each row (the characters of category Nd of Unicode 14.0, the
    version of Python 3.11). *)
Definition digit_zeros : list pychar :=
  [48; 1632; 1776; 1984; 2406; 2534; 2662; 2790;
   2918; 3046; 3174; 3302; 3430; 3558; 3664; 3792;
   3872; 4160; 4240; 6112; 6160; 6470; 6608; 6784;
   6800; 6992; 7088; 7232; 7248; 42528; 43216; 43264;
   43472; 43504; 43600; 44016; 65296; 66720; 68912; 69734;
   69872; 69942; 70096; 70384; 70736; 70864; 71248; 71360;
   71472; 71904; 72016; 72784; 73040; 73120; 92768; 92864;
   93008; 120782; 120792; 120802; 120812; 120822; 123200; 123632;
   125264; 130032]%N.

Definition digit_zero (c : pychar) : option pychar :=
  find (fun z => (z <=? c) && (c <=? z + 9))%N digit_zeros.

Definition is_digit (c : pychar) : bool := bool_decide (is_Some (digit_zero c)).
Definition digit_val (c : pychar) : Z :=
  match digit_zero c with
  | Some z => Z.of_N (c - z)
  | None => 0
  end.

Definition lower (c : pychar) : pychar :=
  if ((65 <=? c) && (c <=? 90))%N then (c + 32)%N else c.

Fixpoint lstrip (s : pystr) : pystr :=
  match s with
  | c :: s' => if is_space c then lstrip s' else s
  | [] => []
  end.

(** [s.strip()] *)
Definition strip (s : pystr) : pystr := rev (lstrip (rev (lstrip s))).

(** Underscores in a numeric literal: allowed only between two digits.
    Returns the text without them. *)
Fixpoint drop_underscores (prev : option pychar) (s : pystr) : option pystr :=
  match s with
  | [] =>
      match prev with
      | Some p => if (p =? 95)%N then None else Some []
      | None => Some []
      end
  | c :: s' =>
      if (c =? 95)%N then
        match prev with
        | Some p => if is_digit p then drop_underscores (Some c) s' else None
        | None => None
        end
      else
        let ok := match prev with
                  | Some p => negb (p =? 95)%N || is_digit c
                  | None => true
                  end in
        if ok then cons c <$> drop_underscores (Some c) s' else None
  end.

(** Leading decimal digits of [s]: their value, their number and what
    follows them. *)
Fixpoint read_digits (acc : Z) (n : Z) (s : pystr) : Z * Z * pystr :=
  match s with
  | c :: s' =>
      if is_digit c then read_digits (10 * acc + digit_val c) (n + 1) s'
      else (acc, n, s)
  | [] => (acc, n, s)
  end.

(** An optional sign: [true] for minus. *)
Definition read_sign (s : pystr) : bool * pystr :=
  match s with
  | c :: s' =>
      if (c =? 45)%N then (true, s')
      else if (c =? 43)%N then (false, s')
      else (false, s)
  | [] => (false, s)
  end.

(** The optional exponent part of a decimal literal.  When the letter is
    not followed by a well-formed exponent nothing is consumed. *)
Definition read_exponent (s : pystr) : Z * pystr :=
  match s with
  | c :: s' =>
      if (lower c =? 101)%N then
        let '(neg, s1) := read_sign s' in
        let '(v, n, s2) := read_digits 0 0 s1 in
        if n =? 0 then (0, s) else ((if neg then - v else v), s2)
      else (0, s)
  | [] => (0, s)
  end.

(** [sign * m * 10^e], correctly rounded to binary64. *)
Definition decimal_to_float (s : bool) (m : Z) (e : Z) : float :=
  if 0 <=? e then signed_ratio_to_float s (m * 10 ^ e) 1
  else signed_ratio_to_float s m (Z.to_pos (10 ^ (- e))).

(** A decimal literal: digits, an optional point and more digits, with at
    least one digit in all, and an optional exponent. *)
Definition parse_decimal (neg : bool) (s : pystr) : option float :=
  let '(ip, ni, s1) := read_digits 0 0 s in
  let '(m, nf, s2) :=
    match s1 with
    | c :: s1' =>
        if (c =? 46)%N then
          let '(m, n, s2) := read_digits ip ni s1' in (m, n - ni, s2)
        else (ip, 0, s1)
    | [] => (ip, 0, s1)
    end in
  if ni + nf =? 0 then None
  else
    let '(ex, s3) := read_exponent s2 in
    match s3 with
    | [] => Some (decimal_to_float neg m (ex - nf))
    | _ => None
    end.

(** [inf], [infinity] and [nan], in any case. *)
Definition parse_inf_or_nan (neg : bool) (s : pystr) : option float :=
  let l := map lower s in
  if decide (l = lit "inf") then Some (S754_infinity neg)
  else if decide (l = lit "infinity") then Some (S754_infinity neg)
  else if decide (l = lit "nan") then Some S754_nan
  else None.

(** [float(s)] for a [str]. *)
Definition py_float (s : pystr) : result float :=
  of_option ValueError
    (s1 ← drop_underscores None (strip s);
     let '(neg, s2) := read_sign s1 in
     match parse_decimal neg s2 with
     | Some f => Some f
     | None => parse_inf_or_nan neg s2
     end).

(** [sys.get_int_max_str_digits()], which the program leaves at its
    default: [int] refuses a text of more digits. *)
Definition int_max_str_digits : Z := 4300.

(** [int(s)] for a [str], base ten. *)
Definition py_int (s : pystr) : result Z :=
  of_option ValueError
    (s1 ← drop_underscores None (strip s);
     let '(neg, s2) := read_sign s1 in
     let '(v, n, s3) := read_digits 0 0 s2 in
     if n =? 0 then None
     else if int_max_str_digits <? n then None
     else match s3 with
          | [] => Some (if neg then - v else v)
          | _ => None
          end).

(* ===================================================================== *)
(** * [round(x, ndigits)] on floats *)
(* ===================================================================== *)

(** [n / d] rounded to the nearest integer, ties to even ([d > 0]). *)
Definition div_half_even (n d : Z) : Z :=
  let q := n / d in
  let r := n mod d in
  match Z.compare (2 * r) d with
  | Lt => q
  | Gt => q + 1
  | Eq => if Z.even q then q else q + 1
  end.

(** A positive finite float [m * 2^e] as a fraction of integers. *)
Definition dyadic_num (m : positive) (e : Z) : Z := Zpos m * 2 ^ Z.max e 0.
Definition dyadic_den (e : Z) : Z := 2 ^ Z.max (- e) 0.

(** [round(x, ndigits)]: the decimal with [ndigits] places nearest to the
    exact value of [x] (ties to even), converted back to a float.  Beyond
    [NDIGITS_MAX = 323] places [x] is its own rounding, and below
    [NDIGITS_MIN = -308] the result is a zero. *)
Definition py_round (x : float) (ndigits : Z) : result float :=
  match x with
  | S754_finite s m e =>
      if 323 <? ndigits then Ok x
      else if ndigits <? -308 then Ok (S754_zero s)
      else
        let up := 10 ^ Z.max ndigits 0 in
        let down := 10 ^ Z.max (- ndigits) 0 in
        let t := div_half_even (dyadic_num m e * up) (dyadic_den e * down) in
        let r := signed_ratio_to_float s (t * down) (Z.to_pos up) in
        if is_inf r then Raise OverflowError else Ok r
  | _ => Ok x
  end.

(* ===================================================================== *)
(** * Number to text: [str(n)] *)
(* ===================================================================== *)

Definition digit_char (d : Z) : pychar := Z.to_N (48 + d).

(** The decimal digits of a natural number, most significant first. *)
Fixpoint digits_fuel (fuel : nat) (n : Z) (acc : pystr) : pystr :=
  match fuel with
  | O => acc
  | S fuel' =>
      if n <? 10 then digit_char n :: acc
      else digits_fuel fuel' (n / 10) (digit_char (n mod 10) :: acc)
  end.

Definition nat_digits (n : Z) : pystr :=
  digits_fuel (S (Z.to_nat (Z.log2 n))) n [].

(** [str(z)] for an [int]. *)
Definition str_int (z : Z) : pystr :=
  if z <? 0 then chr "-" :: nat_digits (- z) else nat_digits z.

(** The decimal exponent of a positive fraction [n / d]: the [k] with
    [10^(k-1) <= n/d < 10^k]. *)
Fixpoint dec_exp_up (fuel : nat) (n d k : Z) : Z :=
  match fuel with
  | O => k
  | S fuel' => if n <? d * 10 ^ k then k else dec_exp_up fuel' n d (k + 1)
  end.

Fixpoint dec_exp_down (fuel : nat) (n d k : Z) : Z :=
  match fuel with
  | O => k
  | S fuel' => if d <=? n * 10 ^ (1 - k) then k else dec_exp_down fuel' n d (k - 1)
  end.

Definition decimal_exponent (n d : Z) : Z :=
  if d <=? n then dec_exp_up 400 n d 1 else dec_exp_down 400 n d 0.

(** Does the decimal [c * 10^p] read back as the positive float [x]? *)
Definition reads_back (x : float) (c p : Z) : bool :=
  match decimal_to_float false c p, x with
  | S754_finite _ m1 e1, S754_finite _ m2 e2 => Pos.eqb m1 m2 && (e1 =? e2)
  | _, _ => false
  end.

(** The shortest decimal that reads back as [m * 2^e], tried with
    [nd, nd+1, ...] significant digits; of two candidates of one length the
    one nearer to the float.  Returns the digits as a number and the
    power of ten they are scaled by. *)
Fixpoint shortest_fuel (fuel : nat) (m : positive) (e : Z) (k nd : Z) : Z * Z :=
  let n := dyadic_num m e in
  let d := dyadic_den e in
  let p := k - nd in
  let sn := n * 10 ^ Z.max (- p) 0 in
  let sd := d * 10 ^ Z.max p 0 in
  let lo := sn / sd in
  let hi := lo + 1 in
  match fuel with
  | O => (div_half_even sn sd, p)
  | S fuel' =>
      let x := S754_finite false m e in
      let oklo := reads_back x lo p in
      let okhi := reads_back x hi p in
      let lo_nearer :=
        match Z.compare (2 * sn) ((2 * lo + 1) * sd) with
        | Lt => true
        | Gt => false
        | Eq => Z.even lo
        end in
      if oklo && (lo_nearer || negb okhi) then (lo, p)
      else if okhi then (hi, p)
      else shortest_fuel fuel' m e k (nd + 1)
  end.

Definition shortest_digits (m : positive) (e : Z) : Z * Z :=
  let k := decimal_exponent (dyadic_num m e) (dyadic_den e) in
  shortest_fuel 17 m e k 1.

Fixpoint strip_zeros_rev (s : pystr) : pystr :=
  match s with
  | c :: s' => if (c =? 48)%N then strip_zeros_rev s' else s
  | [] => []
  end.

Definition zeros (n : Z) : pystr := replicate (Z.to_nat n) (chr "0").

(** The text of the exponent: a sign and at least two digits. *)
Definition exponent_text (ex : Z) : pystr :=
  let ds := nat_digits (Z.abs ex) in
  chr "e" :: (if ex <? 0 then chr "-" else chr "+") ::
  (if Z.abs ex <? 10 then chr "0" :: ds else ds).

(** [repr] of a positive finite float from its shortest digits [ds] and the
    position [decpt] of the decimal point: exponent notation when
    [decpt <= -4] or [decpt > 16], else positional with at least one digit
    after the point. *)
Definition format_repr (ds : pystr) (decpt : Z) : pystr :=
  let nd := Z.of_nat (length ds) in
  if (decpt <=? -4) || (16 <? decpt) then
    match ds with
    | d1 :: [] => d1 :: exponent_text (decpt - 1)
    | d1 :: more => d1 :: chr "." :: more ++ exponent_text (decpt - 1)
    | [] => []
    end
  else if decpt <=? 0 then
    lit "0." ++ zeros (- decpt) ++ ds
  else if nd <=? decpt then
    ds ++ zeros (decpt - nd) ++ lit ".0"
  else
    take (Z.to_nat decpt) ds ++ chr "." :: drop (Z.to_nat decpt) ds.

(** [str(x)] (which is [repr(x)]) for a float. *)
Definition str_float (x : float) : pystr :=
  match x with
  | S754_nan => lit "nan"
  | S754_infinity s => if s then lit "-inf" else lit "inf"
  | S754_zero s => if s then lit "-0.0" else lit "0.0"
  | S754_finite s m e =>
      let '(c, p) := shortest_digits m e in
      let all := nat_digits c in
      let ds := rev (strip_zeros_rev (rev all)) in
      let decpt := Z.of_nat (length all) + p in
      (if s then [chr "-"] else []) ++ format_repr ds decpt
  end.

Definition str_num (n : num) : pystr :=
  match n with
  | Int z => str_int z
  | Float f => str_float f
  end.

(** [str(v)], as ['{}'.format(v)] applies it. *)
Definition py_str (v : pyval) : pystr :=
  match v with
  | VStr s => s
  | VNum n => str_num n
  end.

(* ===================================================================== *)
(** * The [Action] classes *)
(* ===================================================================== *)

(** One constructor per concrete class, carrying the instance attributes.
    [use_default] is the attribute of the base class; [ActionDefault] sets
    it to [True] itself. *)
Inductive action :=
  | ActionDefault
  | ActionScaleInt (scale : num) (use_default : bool)
  | ActionScaleFloat (scale : num) (precision : Z) (use_default : bool)
  | ActionHardcode (val : pyval) (use_default : bool)
  | ActionGodMode (start_pct end_pct steps : num) (step : float)
      (use_default : bool)
  | ActionFishingChance (min_chance min_rooms : num) (use_default : bool).

Definition use_default (a : action) : bool :=
  match a with
  | ActionDefault => true
  | ActionScaleInt _ u | ActionScaleFloat _ _ u | ActionHardcode _ u
  | ActionGodMode _ _ _ _ u | ActionFishingChance _ _ u => u
  end.

(** [ActionScaleInt.__init__]: [inverse] turns the factor into [1/scale]. *)
Definition scale_of (scale : num) (inverse : bool) : result num :=
  if inverse then f ← num_truediv (Int 1) scale; Ok (Float f)
  else Ok scale.

Definition new_ActionScaleInt (scale : num) (inverse use_default : bool)
    : result action :=
  s ← scale_of scale inverse; Ok (ActionScaleInt s use_default).

(** [ActionScaleFloat.__init__] *)
Definition new_ActionScaleFloat (scale : num) (inverse : bool) (precision : Z)
    (use_default : bool) : result action :=
  s ← scale_of scale inverse; Ok (ActionScaleFloat s precision use_default).

(** [ActionGodMode.__init__]: [step = (end_pct - start_pct) / steps]. *)
Definition new_ActionGodMode (start_pct end_pct steps : num)
    (use_default : bool) : result action :=
  d ← num_sub end_pct start_pct;
  step ← num_truediv d steps;
  Ok (ActionGodMode start_pct end_pct steps step use_default).

(** [ActionFishingChance.__init__] *)
Definition new_ActionFishingChance (min_chance min_rooms : num)
    (use_default : bool) : action :=
  ActionFishingChance min_chance min_rooms use_default.

(** The [_process] methods. *)
Definition _process (a : action) (name default : pystr) : result pyval :=
  match a with
  | ActionDefault => Ok (VStr default)
  | ActionScaleInt scale _ =>
      x ← py_float default;
      new_val ← float_mul_num x scale;
      z ← math_floor (fadd new_val float_0_5);
      Ok (VNum (Int z))
  | ActionScaleFloat scale precision _ =>
      x ← py_float default;
      new_val ← float_mul_num x scale;
      r ← py_round new_val precision;
      Ok (VNum (Float r))
  | ActionHardcode val _ => Ok val
  | ActionGodMode start_pct _ steps step _ =>
      if decide (name = lit "godmode_base_scale") then Ok (VNum start_pct)
      else if decide (name = lit "godmode_per_death") then
        r ← py_round step 6; Ok (VNum (Float r))
      else if decide (name = lit "godmode_death_cap") then Ok (VNum steps)
      else Raise (RuntimeError (UnknownGodModeName name))
  | ActionFishingChance min_chance min_rooms _ =>
      if decide (name = lit "fishing_chance") then
        x ← py_float default; Ok (VNum (py_max (Float x) min_chance))
      else if decide (name = lit "fishing_room_space") then
        n ← py_int default; Ok (VNum (py_min (Int n) min_rooms))
      else Raise (RuntimeError (UnknownFishingName name))
  end.

(** [Action.process] *)
Definition process (a : action) (name default : pystr) : result pyval :=
  if use_default a then Ok (VStr default) else _process a name default.

(* ===================================================================== *)
(** * Encodings *)
(* ===================================================================== *)

(** The two codecs [TextProcessor] writes with. *)
Inductive encoding := Utf8 | Ascii.

(** [codecs.BOM_UTF8] *)
Definition BOM_UTF8 : pybytes := [239; 187; 191]%N.

Local Open Scope N_scope.

Definition utf8_encode_char (c : pychar) : option pybytes :=
  if c <? 128 then Some [c]
  else if c <? 2048 then Some [192 + c / 64; 128 + c mod 64]
  else if (55296 <=? c) && (c <=? 57343) then None
  else if c <? 65536 then
    Some [224 + c / 4096; 128 + (c / 64) mod 64; 128 + c mod 64]
  else if c <? 1114112 then
    Some [240 + c / 262144; 128 + (c / 4096) mod 64;
          128 + (c / 64) mod 64; 128 + c mod 64]
  else None.

Definition ascii_encode_char (c : pychar) : option pybytes :=
  if c <? 128 then Some [c] else None.

Definition encode_char (enc : encoding) : pychar -> option pybytes :=
  match enc with
  | Utf8 => utf8_encode_char
  | Ascii => ascii_encode_char
  end.

(** [text.encode(enc)], [None] standing for [UnicodeEncodeError]. *)
Fixpoint encode_opt (enc : encoding) (text : pystr) : option pybytes :=
  match text with
  | [] => Some []
  | c :: text' =>
      match encode_char enc c, encode_opt enc text' with
      | Some b, Some bs => Some (b ++ bs)
      | _, _ => None
      end
  end.

Definition encode (enc : encoding) (text : pystr) : result pybytes :=
  of_option UnicodeEncodeError (encode_opt enc text).

Definition is_cont (b : N) : bool := (128 <=? b) && (b <=? 191).

(** Strict UTF-8 decoding: no overlong forms, no surrogates, nothing above
    U+10FFFF. *)
Fixpoint utf8_decode (bs : pybytes) : option pystr :=
  match bs with
  | [] => Some []
  | b0 :: bs1 =>
      if b0 <? 128 then cons b0 <$> utf8_decode bs1
      else if (194 <=? b0) && (b0 <=? 223) then
        match bs1 with
        | b1 :: bs2 =>
            if is_cont b1
            then cons ((b0 - 192) * 64 + (b1 - 128)) <$> utf8_decode bs2
            else None
        | _ => None
        end
      else if (224 <=? b0) && (b0 <=? 239) then
        match bs1 with
        | b1 :: b2 :: bs3 =>
            let c := (b0 - 224) * 4096 + (b1 - 128) * 64 + (b2 - 128) in
            if is_cont b1 && is_cont b2 && (2048 <=? c) &&
               negb ((55296 <=? c) && (c <=? 57343))
            then cons c <$> utf8_decode bs3
            else None
        | _ => None
        end
      else if (240 <=? b0) && (b0 <=? 244) then
        match bs1 with
        | b1 :: b2 :: b3 :: bs4 =>
            let c := (b0 - 240) * 262144 + (b1 - 128) * 4096 +
                     (b2 - 128) * 64 + (b3 - 128) in
            if is_cont b1 && is_cont b2 && is_cont b3 &&
               (65536 <=? c) && (c <? 1114112)
            then cons c <$> utf8_decode bs4
            else None
        | _ => None
        end
      else None
  end.

Definition ascii_decode (bs : pybytes) : option pystr :=
  if forallb (fun b => b <? 128) bs then Some bs else None.

(** [data.decode(enc)] *)
Definition decode_opt (enc : encoding) (bs : pybytes) : option pystr :=
  match enc with
  | Utf8 => utf8_decode bs
  | Ascii => ascii_decode bs
  end.

(* ===================================================================== *)
(** * Text files under universal newlines *)
(* ===================================================================== *)

(** What a text-mode file hands out: every ["\r\n"] and every lone ["\r"]
    becomes ["\n"]. *)
Fixpoint translate_newlines (s : pystr) : pystr :=
  match s with
  | [] => []
  | c :: s' =>
      if c =? 13 then
        match s' with
        | c2 :: s'' =>
            if c2 =? 10 then 10 :: translate_newlines s''
            else 10 :: translate_newlines s'
        | [] => [10]
        end
      else c :: translate_newlines s'
  end.

(** Iterating over the file: each line keeps its ["\n"]; the last line has
    none when the text does not end with one. *)
Fixpoint readlines (s : pystr) : list pystr :=
  match s with
  | [] => []
  | c :: s' =>
      if c =? 10 then [c] :: readlines s'
      else match readlines s' with
           | [] => [[c]]
           | l :: ls => (c :: l) :: ls
           end
  end.

(** The kinds of line ending met so far, which [df.newlines] reports. *)
Record seen_nl := SeenNl { seen_cr : bool; seen_lf : bool; seen_crlf : bool }.

Fixpoint scan_newlines (s : pystr) (acc : seen_nl) : seen_nl :=
  match s with
  | [] => acc
  | c :: s' =>
      if c =? 13 then
        match s' with
        | c2 :: s'' =>
            if c2 =? 10
            then scan_newlines s'' (SeenNl (seen_cr acc) (seen_lf acc) true)
            else scan_newlines s' (SeenNl true (seen_lf acc) (seen_crlf acc))
        | [] => SeenNl true (seen_lf acc) (seen_crlf acc)
        end
      else if c =? 10
      then scan_newlines s' (SeenNl (seen_cr acc) true (seen_crlf acc))
      else scan_newlines s' acc
  end.

(** [df.newlines]: [None], one string, or a tuple of strings. *)
Inductive newlines_attr :=
  | NlNone
  | NlStr (s : pystr)
  | NlTuple (kinds : seen_nl).

Definition newlines_of (k : seen_nl) : newlines_attr :=
  match k with
  | SeenNl false false false => NlNone
  | SeenNl true false false => NlStr [13]
  | SeenNl false true false => NlStr [10]
  | SeenNl false false true => NlStr [13; 10]
  | _ => NlTuple k
  end.

(** A carriage return at the very end of what has been decoded is held
    back by the newline decoder (a line feed may follow) and not yet
    classified, unless the first line could not be completed without
    it. *)
Definition has_terminator (s : pystr) : bool :=
  existsb (fun c => (c =? 10) || (c =? 13)) s.

Definition classified (decoded : pystr) : pystr :=
  match last decoded with
  | Some c =>
      if (c =? 13) && has_terminator (removelast decoded)
      then removelast decoded
      else decoded
  | None => decoded
  end.

(** [df.newlines] once [df.readline()] has returned, from the text that
    went through the decoder up to then. *)
Definition newlines_after_readline (decoded : pystr) : newlines_attr :=
  newlines_of (scan_newlines (classified decoded) (SeenNl false false false)).

Local Close Scope N_scope.

(* ===================================================================== *)
(** * The world outside: files, directories, standard output *)
(* ===================================================================== *)

(** What the program prints. *)
Inductive message :=
  | MsgProcessing (filename : string)
  | MsgWarningKeyNotFound (name : pystr).

Record world := World {
  files : gmap string pybytes;
  dirs : gset string;
  stdout : list message
}.

(** Effectful code: it runs in a world and returns or raises, and what it
    did to the world before raising stays done. *)
Definition io (A : Type) : Type := world -> result A * world.

Global Instance io_ret : MRet io := fun _ a w => (Ok a, w).
Global Instance io_bind : MBind io := fun _ _ k m w =>
  match m w with
  | (Ok a, w') => k a w'
  | (Raise e, w') => (Raise e, w')
  end.

Definition lift {A} (r : result A) : io A := fun w => (r, w).
Definition raise {A} (e : exn) : io A := fun w => (Raise e, w).

Definition print (m : message) : io unit := fun w =>
  (Ok tt, World (files w) (dirs w) (stdout w ++ [m])).

(** [open(f, 'rb').read()] *)
Definition read_file (f : string) : io pybytes := fun w =>
  (of_option FileNotFoundError (files w !! f), w).

(** [open(f, 'wb')]: the file is created, or emptied when it exists. *)
Definition open_wb (f : string) : io unit := fun w =>
  (Ok tt, World (<[f := []]> (files w)) (dirs w) (stdout w)).

(** [odf.write(b)] on the file open under the name [f]. *)
Definition append_file (f : string) (b : pybytes) : io unit := fun w =>
  (Ok tt, World (<[f := default [] (files w !! f) ++ b]> (files w))
                (dirs w) (stdout w)).

(** ** Paths ([os.path] of POSIX) *)

Definition slash : ascii := "/"%char.
Definition is_slash (a : ascii) : bool := Ascii.eqb a slash.

Definition path_join (a b : string) : string :=
  match list_ascii_of_string b, rev (list_ascii_of_string a) with
  | c :: _, last :: _ =>
      if is_slash c then b
      else if is_slash last then (a +:+ b) else (a +:+ "/" +:+ b)
  | c :: _, [] => b
  | [], last :: _ => if is_slash last then a else (a +:+ "/")
  | [], [] => ""
  end%string.

Fixpoint drop_while {A} (p : A -> bool) (l : list A) : list A :=
  match l with
  | x :: l' => if p x then drop_while p l' else l
  | [] => []
  end.

Definition path_dirname (p : string) : string :=
  let head_rev := drop_while (fun a => negb (is_slash a))
                             (rev (list_ascii_of_string p)) in
  match drop_while is_slash head_rev with
  | [] => string_of_list_ascii (rev head_rev)
  | stripped => string_of_list_ascii (rev stripped)
  end.

(** [os.path.exists] *)
Definition path_exists (p : string) (w : world) : bool :=
  bool_decide (p ∈ dirs w) || bool_decide (is_Some (files w !! p)).

(** A directory and the directories above it. *)
Fixpoint ancestors (fuel : nat) (d : string) : list string :=
  match fuel with
  | O => []
  | S fuel' =>
      let up := path_dirname d in
      if decide (up = d) then [d] else d :: ancestors fuel' up
  end.

(** [os.makedirs(d, exist_ok=True)] *)
Definition makedirs (d : string) : io unit := fun w =>
  if decide (d = ""%string) then (Raise FileNotFoundError, w)
  else
    (Ok tt, World (files w)
                  (dirs w ∪ list_to_set (filter (fun x => x ≠ ""%string)
                                           (ancestors (S (String.length d)) d)))
                  (stdout w)).

(* ===================================================================== *)
(** * [TextProcessor] *)
(* ===================================================================== *)

(** The result of [chardet.detect]. *)
Record detection := Detection {
  det_encoding : option string;
  det_confidence : float
}.

Record TextProcessor := MkTextProcessor {
  filename_orig : string;
  filename_new : string;
  written_line : bool;
  orig_encoding : option string;
  tp_encoding : encoding;
  bom : option pybytes;
  newline : pybytes;
  data : list pystr;
  odf : option string   (* the name the output file is open under *)
}.

(** [line[a:-1]] *)
Definition slice_to_last (a : nat) (line : pystr) : pystr :=
  drop a (removelast line).

(** The loop of [__init__] over the lines of the file: the first line loses
    the decoded BOM and its last character, every other line its last
    character. *)
Definition extract_first (bom : option pybytes) (enc : encoding) (line : pystr)
    : result pystr :=
  match bom with
  | Some b =>
      d ← of_option UnicodeDecodeError (decode_opt enc b);
      Ok (slice_to_last (length d) line)
  | None => Ok (slice_to_last 0 line)
  end.

Definition extract_lines (bom : option pybytes) (enc : encoding)
    (lines : list pystr) : result (list pystr) :=
  match lines with
  | [] => Ok []
  | first :: others =>
      l ← extract_first bom enc first;
      Ok (l :: map (slice_to_last 0) others)
  end.

Section Platform.

(** [chardet.detect], a statistical detector outside this program. *)
Variable chardet_detect : pybytes -> detection.

(** The decoder of the platform's preferred encoding, which [open] in
    text mode uses; [None] is a [UnicodeDecodeError]. *)
Variable locale_decode : pybytes -> option pystr.

(** How many characters of the text have gone through the newline
    decoder when the first [readline] returns (the file is read in
    chunks). *)
Variable readahead : pystr -> nat.

(** [os.walk]: the paths of the files below a directory, in the order the
    platform lists them. *)
Variable os_walk : world -> string -> list string.

(** [TextProcessor.__init__] *)
Definition TextProcessor_init (filename_orig filename_new : string)
    : io TextProcessor :=
  (* Grab encoding *)
  raw ← read_file filename_orig;
  let results := chardet_detect (take 1024 raw) in
  if num_lt (Float (det_confidence results)) (Float float_0_9)
  then raise (RuntimeError (NotConfident filename_orig))
  else
    let orig_encoding := det_encoding results in
    (* Process encoding *)
    '(enc, bom) ←
      (if decide (orig_encoding = Some "UTF-8-SIG"%string)
       then mret (Utf8, Some BOM_UTF8)
       else if decide (orig_encoding = Some "ascii"%string)
       then mret (Ascii, None)
       else raise (RuntimeError (UnknownEncoding filename_orig)));
    (* Read in the file data *)
    raw' ← read_file filename_orig;
    text ← lift (of_option UnicodeDecodeError (locale_decode raw'));
    nl ←
      match newlines_after_readline (take (readahead text) text) with
      | NlNone => raise (RuntimeError (UnknownLineEndings filename_orig))
      | NlStr s => lift (encode enc s)
      | NlTuple _ => raise AttributeError
      end;
    data ← lift (extract_lines bom enc (readlines (translate_newlines text)));
    mret (MkTextProcessor filename_orig filename_new false orig_encoding
            enc bom nl data None).

(** [TextProcessor.__enter__] *)
Definition TextProcessor_enter (self : TextProcessor) : io TextProcessor :=
  open_wb (filename_new self);;
  match bom self with
  | Some b => append_file (filename_new self) b
  | None => mret tt
  end;;
  mret (MkTextProcessor (filename_orig self) (filename_new self)
          (written_line self) (orig_encoding self) (tp_encoding self)
          (bom self) (newline self) (data self) (Some (filename_new self))).

(** [TextProcessor.__exit__] *)
Definition TextProcessor_exit (self : TextProcessor) : io TextProcessor :=
  match odf self with
  | Some _ =>
      mret (MkTextProcessor (filename_orig self) (filename_new self)
              (written_line self) (orig_encoding self) (tp_encoding self)
              (bom self) (newline self) (data self) None)
  | None => raise AttributeError
  end.

(** [TextProcessor.write] *)
Definition TextProcessor_write (self : TextProcessor) (text : pystr)
    : io TextProcessor :=
  match odf self with
  | None => raise AttributeError
  | Some f =>
      (if written_line self then append_file f (newline self) else mret tt);;
      encoded ← lift (encode (tp_encoding self) text);
      append_file f encoded;;
      mret (MkTextProcessor (filename_orig self) (filename_new self)
              true (orig_encoding self) (tp_encoding self)
              (bom self) (newline self) (data self) (odf self))
  end.

(* =================================================================== *)
(** * [App] *)
(* =================================================================== *)

Record App := MkApp {
  template_dir : string;
  live_dir : string;
  changes : gmap pystr action;
  default_action : action
}.

(** [App.__init__] *)
Definition App_init (template_dir live_dir : string)
    (changes : gmap pystr action) : App :=
  MkApp template_dir live_dir changes ActionDefault.

(** The body of the loop of [process_file], for one line. *)
Definition process_line (self : App) (tp : TextProcessor) (line : pystr)
    : io TextProcessor :=
  match macro_match line with
  | Some m =>
      let start := occ_start m in
      let name := occ_name m in
      let default := occ_default m in
      let end_ := occ_end m in
      action ←
        match changes self !! name with
        | Some a => mret a
        | None => print (MsgWarningKeyNotFound name);; mret (default_action self)
        end;
      v ← lift (process action name default);
      TextProcessor_write tp (start ++ py_str v ++ end_)
  | None => TextProcessor_write tp line
  end.

(** [for line in tp: ...] *)
Fixpoint process_lines (self : App) (tp : TextProcessor) (lines : list pystr)
    : io TextProcessor :=
  match lines with
  | [] => mret tp
  | line :: lines' =>
      tp' ← process_line self tp line;
      process_lines self tp' lines'
  end.

(** The [with] statement: [__exit__] runs on the way out, also when the
    body raises, and the exception goes on. *)
Definition run_then_exit (tp : TextProcessor) (body : io TextProcessor)
    : io unit := fun w =>
  match body w with
  | (Ok tp', w') => (TextProcessor_exit tp';; mret tt) w'
  | (Raise e, w') => (TextProcessor_exit tp;; raise e) w'
  end.

Definition with_TextProcessor (init : io TextProcessor)
    (body : TextProcessor -> io TextProcessor) : io unit :=
  tp ← init;
  tp ← TextProcessor_enter tp;
  run_then_exit tp (body tp).

(** [App.process_file] *)
Definition process_file (self : App) (filename : string) : io unit :=
  print (MsgProcessing filename);;
  let filename_template := path_join (template_dir self) filename in
  let filename_live := path_join (live_dir self) filename in
  let dirname_live := path_dirname filename_live in
  ((fun w => if path_exists dirname_live w then (Ok tt, w)
             else makedirs dirname_live w) : io unit);;
  with_TextProcessor (TextProcessor_init filename_template filename_live)
    (fun tp => process_lines self tp (data tp)).

(** [App.process_files] *)
Fixpoint process_paths (self : App) (paths : list string) : io unit :=
  match paths with
  | [] => mret tt
  | p :: paths' =>
      process_file self
        (string_of_list_ascii
           (drop (S (String.length (template_dir self)))
                 (list_ascii_of_string p)));;
      process_paths self paths'
  end.

Definition process_files (self : App) : io unit := fun w =>
  process_paths self (os_walk w (template_dir self)) w.

End Platform.

(* ===================================================================== *)
(** * A concrete platform, for running examples *)
(* ===================================================================== *)

Definition float_1_0 : float := S754_finite false 4503599627370496 (-52).
Definition float_0_0 : float := S754_zero false.

(** A detector that recognises the signature of UTF-8 and plain 7-bit
    text, as [chardet] does on such input, and is unsure about the rest. *)
Definition sample_detect (b : pybytes) : detection :=
  if decide (take 3 b = BOM_UTF8) then Detection (Some "UTF-8-SIG"%string) float_1_0
  else if forallb (fun x => (x <? 128)%N) b then Detection (Some "ascii"%string) float_1_0
  else Detection None float_0_0.

(** Small files go through the newline decoder in one piece. *)
Definition sample_readahead (text : pystr) : nat := length text.

(** The files below a directory, in the order of the file table. *)
Definition sample_walk (w : world) (dir : string) : list string :=
  filter (fun p => String.prefix (dir +:+ "/") p = true)
         (map fst (map_to_list (files w))).

Definition sample_process_file :=
  process_file sample_detect utf8_decode sample_readahead.
Definition sample_process_files :=
  process_files sample_detect utf8_decode sample_readahead sample_walk.

(** A world with directories [t] and [l] and one template file. *)
Definition one_file_world (name : string) (content : pybytes) : world :=
  World {[ ("t/" +:+ name)%string := content ]} {[ "t"%string; "l"%string ]} [].

(* ===================================================================== *)
(** * The words of the specification, for comparison *)
(* ===================================================================== *)

Fixpoint take_while {A} (p : A -> bool) (l : list A) : list A :=
  match l with
  | x :: l' => if p x then x :: take_while p l' else []
  | [] => []
  end.

Definition not_at (c : pychar) : bool := negb (N.eqb c (chr "@")).

(** A macro span that opens at the very beginning of [v]: an at sign, a
    non-empty name of [a-z_], a vertical bar, the default up to the next at
    sign, and what follows that sign. *)
Definition span_here (v : pystr) : option (pystr * pystr * pystr) :=
  match v with
  | c :: v1 =>
      if N.eqb c (chr "@") then
        match take_while name_char v1, drop_while name_char v1 with
        | (_ :: _) as n, c2 :: v3 =>
            if N.eqb c2 (chr "|") then
              match drop_while not_at v3 with
              | _ :: e => Some (n, take_while not_at v3, e)
              | [] => None
              end
            else None
        | _, _ => None
        end
      else None
  | [] => None
  end.

(** The span that opens last on the line, with all the text before it. *)
Fixpoint last_span (line : pystr) : option occurrence :=
  match line with
  | [] => None
  | c :: line' =>
      match last_span line' with
      | Some o => Some (Occurrence (c :: occ_start o) (occ_name o)
                                   (occ_default o) (occ_end o))
      | None =>
          match span_here line with
          | Some (n, d, e) => Some (Occurrence [] n d e)
          | None => None
          end
      end
  end.

(** No newline inside the text: what the lines of a file look like once
    their terminator is gone. *)
Definition no_newline (s : pystr) : Prop := forallb dot s = true.

(** The same, character by character. *)
Definition dotted (s : pystr) : Prop := Forall (fun c => dot c = true) s.

(** The separator-joined concatenation of byte strings. *)
Fixpoint join_bytes (sep : pybytes) (l : list pybytes) : pybytes :=
  match l with
  | [] => []
  | [x] => x
  | x :: l' => x ++ sep ++ join_bytes sep l'
  end.

(** A sequence of [write] calls. *)
Fixpoint write_all (tp : TextProcessor) (texts : list pystr) : io TextProcessor :=
  match texts with
  | [] => mret tp
  | t :: texts' => tp' ← TextProcessor_write tp t; write_all tp' texts'
  end.

(** The number of characters after the decimal point of a text. *)
Definition decimal_places (s : pystr) : option nat :=
  match drop_while (fun c => negb (N.eqb c (chr "."))) s with
  | _ :: frac => Some (length frac)
  | [] => None
  end.

(** What a run of [write] calls adds to the file: the separator before
    each line but the very first of the file. *)
Definition added (written : bool) (nl : pybytes) (encs : list pybytes)
    : pybytes :=
  match encs with
  | [] => []
  | _ => (if written then nl else []) ++ join_bytes nl encs
  end.

(** The part of [macro_re] after the [start] group. *)
Definition macro_tail : regex :=
  RChar (chr "@") ;;;
  RGroup Gname (RPlus name_char) ;;; RChar (chr "|") ;;;
  RGroup Gdefault (RStarLazy dot) ;;; RChar (chr "@") ;;;
  RGroup Gend (RStar dot) ;;; REol.

(** The continuation at the end of the pattern. *)
Definition final_k (st : mstate) : option captures := Some (caps st).

(** What [macro_re] captures, from the span that opens last. *)
Definition captures_of (pre : pystr) (o : occurrence) : captures :=
  set_capture Gend (occ_end o)
    (set_capture Gdefault (occ_default o)
       (set_capture Gname (occ_name o)
          (set_capture Gstart (pre ++ occ_start o) no_captures))).

(** The conversion of the default text that the action makes for this
    macro name fails: [float(default)] for the scaling actions and
    [fishing_chance], [int(default)] for [fishing_room_space]. *)
Definition conversion_fails (a : action) (name default : pystr) : Prop :=
  match a with
  | ActionScaleInt _ false | ActionScaleFloat _ _ false =>
      py_float default = Raise ValueError
  | ActionFishingChance _ _ false =>
      (name = lit "fishing_chance" /\ py_float default = Raise ValueError) \/
      (name = lit "fishing_room_space" /\ py_int default = Raise ValueError)
  | _ => False
  end.

(** A catalog with one entry, for examples. *)
Definition scale_catalog : gmap pystr action :=
  {[ lit "shop_cost_scale" := ActionScaleInt (Float float_0_5) false ]}.

(** The float [x] is exactly [k + 1/2]. *)
Definition half_integer (x : float) (k : Z) : Prop :=
  match x with
  | S754_finite s m e =>
      e < 0 /\ 2 * cond_Zopp s (Zpos m) = (2 * k + 1) * 2 ^ (- e)
  | _ => False
  end.

(** Is the number a NaN? *)
Definition num_is_nan (n : num) : bool :=
  match n with
  | Float f => is_nan f
  | Int _ => false
  end.

(** The names [ActionGodMode] and [ActionFishingChance] dispatch on. *)
Definition godmode_names : list pystr :=
  [lit "godmode_base_scale"; lit "godmode_per_death"; lit "godmode_death_cap"].
Definition fishing_names : list pystr :=
  [lit "fishing_chance"; lit "fishing_room_space"].

(** A float literal of the source, through [float()]. *)
Definition float_of_lit (s : string) : float :=
  match py_float (lit s) with
  | Ok f => f
  | Raise _ => S754_nan
  end.

Definition float_1_5 : float := Eval vm_compute in float_of_lit "1.5".
Definition float_1_3 : float := Eval vm_compute in float_of_lit "1.3".
Definition float_0_6 : float := Eval vm_compute in float_of_lit "0.6".

(** [godmode = ActionGodMode(0.6, 0)] of [main]. *)
Definition main_godmode : action :=
  Eval vm_compute in
    match new_ActionGodMode (Float float_0_6) (Int 0) (Int 30) false with
    | Ok a => a
    | Raise _ => ActionDefault
    end.

(** [fishing = ActionFishingChance(min_chance=1, min_rooms=1)] of [main]. *)
Definition main_fishing : action :=
  new_ActionFishingChance (Int 1) (Int 1) false.

(** A catalog with a float-scaling entry, as [damage_scale_float] of
    [main]. *)
Definition float_catalog : gmap pystr action :=
  {[ lit "damage_scale_float" := ActionScaleFloat (Float float_1_3) 6 false ]}.

(** A text file in UTF-16 with its byte order mark: [a], newline. *)
Definition utf16_sample : pybytes := [255; 254; 97; 0; 10; 0]%N.

(** A detector that names UTF-16 from its byte order mark, as [chardet]
    does, and otherwise behaves as [sample_detect]. *)
Definition bom_detect (b : pybytes) : detection :=
  if decide (take 2 b = [255; 254]%N)
  then Detection (Some "UTF-16"%string) float_1_0
  else sample_detect b.

(* ===================================================================== *)
(** * [main]: the change dict *)
(* ===================================================================== *)

(** A constructor call of [main]; none of them raises. *)
Definition built (r : result action) : action :=
  match r with
  | Ok a => a
  | Raise _ => ActionDefault
  end.

Definition hardcode_int (z : Z) : action := ActionHardcode (VNum (Int z)) false.

(** [changes] of [main], entry by entry. *)
Definition main_changes : gmap pystr action :=
  list_to_map [
    (lit "damage_scale", built (new_ActionScaleInt (Float float_1_3) false false));
    (lit "damage_scale_float",
       built (new_ActionScaleFloat (Float float_1_3) false 6 false));
    (lit "base_health", ActionHardcode (VNum (Int 100)) true);
    (lit "well_darkness_scale", built (new_ActionScaleInt (Int 4) false false));
    (lit "well_darkness_cost_scale",
       built (new_ActionScaleFloat (Int 4) true 6 false));
    (lit "well_gem_scale", built (new_ActionScaleInt (Int 6) false false));
    (lit "well_gem_cost_scale",
       built (new_ActionScaleFloat (Int 6) true 6 false));
    (lit "shop_cost_scale",
       built (new_ActionScaleInt (Float float_0_5) false false));
    (lit "super_shop_cost_scale",
       built (new_ActionScaleInt (Float (float_of_lit "0.25")) false false));
    (lit "health_qty", hardcode_int 20);
    (lit "maxhealth_qty", hardcode_int 30);
    (lit "money_qty", hardcode_int 400);
    (lit "money_minor_qty", hardcode_int 80);
    (lit "gems_extra_money_qty", hardcode_int 60);
    (lit "darkness_reward_qty", hardcode_int 500);
    (lit "shop_darkness_qty", hardcode_int 200);
    (lit "boss_darkness_scale", built (new_ActionScaleInt (Int 10) false false));
    (lit "various_gems_qty", hardcode_int 200);
    (lit "nectar_qty", hardcode_int 10);
    (lit "ambrosia_qty", hardcode_int 10);
    (lit "keys_qty", hardcode_int 10);
    (lit "diamonds_qty", hardcode_int 10);
    (lit "titan_blood_qty", hardcode_int 10);
    (lit "fishing_max_fakes", hardcode_int 0);
    (lit "fishing_perfect_interval",
       ActionHardcode (VNum (Float (float_of_lit "0.64"))) false);
    (lit "fishing_chance", main_fishing);
    (lit "fishing_room_space", main_fishing);
    (lit "godmode_base_scale", main_godmode);
    (lit "godmode_per_death", main_godmode);
    (lit "godmode_death_cap", main_godmode);
    (lit "keepsake_activations", ActionHardcode (VStr (lit "2, 2")) false);
    (lit "charon_shoplift_chance", hardcode_int 1)
  ].

(** [App(template_dir, live_dir, changes)] of [main] on the concrete
    platform. *)
Definition main_app (template_dir live_dir : string) : App :=
  App_init template_dir live_dir main_changes.

(** A run of [main] over one template file: how it ends and what the
    output file holds. *)
Definition run_main (content : pybytes) : result unit * option pybytes :=
  let '(r, w) := sample_process_files (main_app "t" "l")
                   (one_file_world "f.txt" content) in
  (r, files w !! "l/f.txt"%string).

(* ===================================================================== *)
(** * Statements about effects *)
(* ===================================================================== *)

(** The computation changes no file but [f], whether it returns or
    raises, and a [TextProcessor] it returns has its output open under
    [f]. *)
Definition writes_only (f : string) (m : io TextProcessor) : Prop :=
  forall w,
    (forall g, g <> f -> files (snd (m w)) !! g = files w !! g) /\
    (forall tp, fst (m w) = Ok tp -> odf tp = Some f).

(** The three newline sequences a text file can use, as bytes. *)
Definition newline_bytes : list pybytes := [[10]; [13]; [13; 10]]%N.

(** Neither a line feed nor a carriage return in the text. *)
Definition no_terminator (s : pystr) : Prop := has_terminator s = false.

(** [path[len(template_dir)+1:]], the name [process_files] hands to
    [process_file] for a path that [os.walk] lists. *)
Definition relative_name (template_dir p : string) : string :=
  string_of_list_ascii
    (drop (S (String.length template_dir)) (list_ascii_of_string p)).

(* ===================================================================== *)
(** * The loop body of [process_file] without its effects *)
(* ===================================================================== *)

(** [self.changes[name]] when the name is a key, else
    [self.default_action]. *)
Definition chosen_action (self : App) (name : pystr) : action :=
  default (default_action self) (changes self !! name).

(** The text the loop body hands to [tp.write] for one line. *)
Definition line_text (self : App) (line : pystr) : result pystr :=
  match macro_match line with
  | Some m =>
      v ← process (chosen_action self (occ_name m)) (occ_name m)
            (occ_default m);
      Ok (occ_start m ++ py_str v ++ occ_end m)
  | None => Ok line
  end.

(** What the loop body prints for one line. *)
Definition line_warnings (self : App) (line : pystr) : list message :=
  match macro_match line with
  | Some m =>
      match changes self !! occ_name m with
      | Some _ => []
      | None => [MsgWarningKeyNotFound (occ_name m)]
      end
  | None => []
  end.

(** A template of three lines, the second one with a macro, and the
    [TextProcessor] that [__init__] builds from it. *)
Definition sample_template : pybytes :=
  lit "a = 1" ++ [10%N] ++ lit "b = @x|2@," ++ [10%N] ++ lit "c" ++ [10%N].

Definition sample_tp : TextProcessor :=
  MkTextProcessor "t/f.txt" "l/f.txt" false (Some "ascii"%string) Ascii None
    [10%N] [lit "a = 1"; lit "b = @x|2@,"; lit "c"] None.

(** The text of the lines [ls], each one ended by the newline sequence
    [nl]. *)
Definition terminated_text (nl : pystr) (ls : list pystr) : pystr :=
  concat (map (fun l => l ++ nl) ls).

(** What [df.newlines] has recorded once the kind [nl] has been met. *)
Definition mark_newline (nl : pystr) (acc : seen_nl) : seen_nl :=
  if decide (nl = [10%N]) then SeenNl (seen_cr acc) true (seen_crlf acc)
  else if decide (nl = [13%N]) then SeenNl true (seen_lf acc) (seen_crlf acc)
  else SeenNl (seen_cr acc) (seen_lf acc) true.

(** Whether a text begins with a line feed. *)
Definition starts_with_lf (s : pystr) : bool :=
  match s with
  | c :: _ => (c =? 10)%N
  | [] => false
  end.

(** [s.endswith('/')] and [s.startswith('/')] *)
Definition ends_with_slash (s : string) : bool :=
  match rev (list_ascii_of_string s) with
  | a :: _ => is_slash a
  | [] => false
  end.

Definition starts_with_slash (s : string) : bool :=
  match list_ascii_of_string s with
  | a :: _ => is_slash a
  | [] => false
  end.

(** Whether a number is zero: the integer [0], or a float zero of either
    sign. *)
Definition num_is_zero (n : num) : bool :=
  match n with
  | Int z => (z =? 0)%Z
  | Float f => float_is_zero f
  end.

(** A world with two templates, the first one without any line ending. *)
Definition two_file_world : world :=
  World {[ "t/a.txt"%string := lit "abc";
           "t/b.txt"%string := lit "abc" ++ [10%N] ]}
        {[ "t"%string; "l"%string ]} [].

Definition two_file_walk (w : world) (dir : string) : list string :=
  ["t/a.txt"; "t/b.txt"]%string.

(* ===================================================================== *)
(** * [desc] and the listing of [main] *)
(* ===================================================================== *)

(** [int(x)] for a float: the value cut off toward zero. *)
Definition int_of_float (x : float) : result Z :=
  match x with
  | S754_nan => Raise ValueError
  | S754_infinity _ => Raise OverflowError
  | S754_zero _ => Ok 0%Z
  | S754_finite s m e => Ok (cond_Zopp s (Z.shiftl (Zpos m) e))
  end.

(** [int(n * 100)] *)
Definition percent (n : num) : result Z :=
  match n with
  | Int z => Ok (z * 100)%Z
  | Float f => y ← float_mul_num f (Int 100); int_of_float y
  end.

(** The digits of [q / 10^p] with [p] places: [q] is padded to [p + 1]
    digits, and the point is left out when there is no place after it. *)
Definition fixed_digits (q p : Z) : pystr :=
  let ds := nat_digits q in
  let ds := zeros (p + 1 - Z.of_nat (length ds)) ++ ds in
  let k := (length ds - Z.to_nat p)%nat in
  take k ds ++ (if (p =? 0)%Z then [] else chr "." :: drop k ds).

(** [format(x, '0.<p>f')] for a float and [0 <= p]: the decimal with [p]
    places nearest to the exact value of [x], ties to even. *)
Definition format_fixed (x : float) (p : Z) : pystr :=
  match x with
  | S754_nan => lit "nan"
  | S754_infinity s => if s then lit "-inf" else lit "inf"
  | S754_zero s => (if s then [chr "-"] else []) ++ fixed_digits 0 p
  | S754_finite s m e =>
      (if s then [chr "-"] else [])
      ++ fixed_digits (div_half_even (dyadic_num m e * 10 ^ p) (dyadic_den e)) p
  end.

(** ['{:0.<precision>f}'.format(scale)] on a 64-bit build: a negative
    precision leaves a format without precision, one beyond the size type
    does not parse, and one beyond [INT_MAX] is refused once the number
    is a float. *)
Definition format_scale (scale : num) (precision : Z) : result pystr :=
  if (precision <? 0)%Z || (9223372036854775807 <? precision)%Z
  then Raise ValueError
  else
    x ← num_to_float scale;
    if (2147483647 <? precision)%Z then Raise ValueError
    else Ok (format_fixed x precision).

(** [Action.desc], with the [_desc] of each class in its place;
    [ActionDefault] overrides [desc] itself. *)
Definition disabled_suffix (u : bool) (d : pystr) : pystr :=
  if u then d ++ lit " (disabled, using defaults)" else d.

Definition desc (a : action) : result pystr :=
  match a with
  | ActionDefault => Ok (lit "Always use default")
  | ActionScaleInt scale u =>
      Ok (disabled_suffix u (lit "Scale by " ++ str_num scale))
  | ActionScaleFloat scale precision u =>
      t ← format_scale scale precision;
      Ok (disabled_suffix u (lit "Scale by " ++ t ++ lit " as a float"))
  | ActionHardcode val u =>
      Ok (disabled_suffix u (lit "Hardcoded to: " ++ py_str val))
  | ActionGodMode start_pct end_pct steps _ u =>
      s ← percent start_pct;
      e ← percent end_pct;
      Ok (disabled_suffix u
            (lit "God Mode from " ++ str_int s ++ lit "% -> " ++ str_int e
             ++ lit "%, with " ++ str_num steps ++ lit " steps"))
  | ActionFishingChance min_chance min_rooms u =>
      c ← percent min_chance;
      Ok (disabled_suffix u
            (lit "Fishing Minimum Chance: " ++ str_int c
             ++ lit "%, Space Between Rooms: " ++ str_num min_rooms))
  end.

(** ['{:>label_max}: {}'.format(label, text)] *)
Definition label_line (label_max : nat) (label text : pystr) : pystr :=
  replicate (label_max - length label) (chr " ") ++ label ++ lit ": " ++ text.

(** The loop of the listing over [changes.items()]: the lines printed, in
    order, and how the loop ends. *)
Fixpoint list_lines (label_max : nat) (items : list (pystr * action))
    : list pystr * result unit :=
  match items with
  | [] => ([], Ok tt)
  | (label, change) :: rest =>
      match desc change with
      | Ok d =>
          let '(lines, r) := list_lines label_max rest in
          (label_line label_max label d :: lines, r)
      | Raise e => ([], Raise e)
      end
  end.

(** [max([len(k) for k in changes.keys()])] *)
Definition label_max (items : list (pystr * action)) : result nat :=
  match items with
  | [] => Raise ValueError
  | _ => Ok (foldr Nat.max 0%nat (map (fun kv => length (fst kv)) items))
  end.

(** The branch of [main] under [--list-changes], for the items of the
    [changes] dict in their order. *)
Definition list_changes (items : list (pystr * action))
    : list pystr * result unit :=
  match label_max items with
  | Ok n => list_lines n items
  | Raise e => ([], Raise e)
  end.

(** [floor(x + 1/2)] on the exact value of a finite float: where rounding
    half up takes it. *)
Definition round_half_up (x : float) : Z :=
  match x with
  | S754_finite s m e =>
      (2 * cond_Zopp s (dyadic_num m e) + dyadic_den e) / (2 * dyadic_den e)
  | _ => 0
  end.

(** The floats whose binary64 sum with [0.5] is rounded up to the next
    integer: the float just below one half, [0.49999999999999994], and the
    odd integers of 53 bits, from [2^52 + 1] to [2^53 - 1] and their
    opposites. *)
Definition sum_rounds_up (x : float) : bool :=
  match x with
  | S754_finite s m e =>
      negb s && (Zpos m =? 2 ^ 53 - 1) && (e =? -54) ||
      (e =? 0) && Z.odd (Zpos m)
  | _ => false
  end.

(** A float text that is not padded with zeros: it shows a decimal point or
    an exponent, and when it ends in a zero and has no exponent, that zero
    is the only digit after the point. *)
Definition unpadded (s : pystr) : Prop :=
  (chr "." ∈ s \/ chr "e" ∈ s) /\
  forall body, s = body ++ [chr "0"] ->
    chr "e" ∈ s \/ exists b, body = b ++ [chr "."].

(** [r] is [x] rounded to [p] decimal places, [p >= 0]: with [t] the
    integer nearest to [|x| * 10^p], the even one of two that are equally
    near, [r] is the float read from the decimal [t * 10^-p] with the sign
    of [x].  Zeros, infinities and NaN are their own roundings. *)
Definition rounded_to (x : float) (p : Z) (r : float) : Prop :=
  match x with
  | S754_finite s m e =>
      exists t,
        2 * Z.abs (t * dyadic_den e - dyadic_num m e * 10 ^ p) <= dyadic_den e /\
        (2 * Z.abs (t * dyadic_den e - dyadic_num m e * 10 ^ p) = dyadic_den e ->
         Z.even t = true) /\
        r = decimal_to_float s t (- p)
  | _ => r = x
  end.

(* ===================================================================== *)
(** * Theorems: the built-ins on known values *)
(* ===================================================================== *)

(** The models of [float], [int], [str], the codecs, the text reader and
    [os.path] on inputs whose results are known from Python. *)

Example macro_match_ex1 :
  macro_match (lit "Cost=@shop_cost_scale|40@;") =
  Some (Occurrence (lit "Cost=") (lit "shop_cost_scale") (lit "40") (lit ";")).
Proof. vm_compute. reflexivity. Qed.

Example macro_match_ex2 :
  macro_match (lit "a@x|1@b@y|2@c") =
  Some (Occurrence (lit "a@x|1@b") (lit "y") (lit "2") (lit "c")).
Proof. vm_compute. reflexivity. Qed.

Example macro_match_ex3 : macro_match (lit "no macro here @ | @") = None.
Proof. vm_compute. reflexivity. Qed.

Example py_float_0_5 : py_float (lit "0.5") = Ok float_0_5.
Proof. vm_compute. reflexivity. Qed.

Example py_float_0_9 : py_float (lit "0.9") = Ok float_0_9.
Proof. vm_compute. reflexivity. Qed.

Example py_float_0_1 :
  py_float (lit " 0.1 ") = Ok (S754_finite false 7205759403792794 (-56)).
Proof. vm_compute. reflexivity. Qed.

Example py_float_1_3 :
  py_float (lit "1.3") = Ok (S754_finite false 5854679515581645 (-52)).
Proof. vm_compute. reflexivity. Qed.

Example py_float_5 :
  py_float (lit "5") = Ok (S754_finite false 5629499534213120 (-50)).
Proof. vm_compute. reflexivity. Qed.

Example py_float_exp :
  py_float (lit "-1_0.5e-1") = py_float (lit "-1.05").
Proof. vm_compute. reflexivity. Qed.


Example py_float_empty : py_float [] = Raise ValueError.
Proof. vm_compute. reflexivity. Qed.

Example py_float_nan : py_float (lit "NaN") = Ok S754_nan.
Proof. vm_compute. reflexivity. Qed.

Example py_float_bad : py_float (lit "1e") = Raise ValueError.
Proof. vm_compute. reflexivity. Qed.

Example py_int_ok : py_int (lit " -1_000 ") = Ok (-1000).
Proof. vm_compute. reflexivity. Qed.

Example py_int_bad : py_int (lit "10.0") = Raise ValueError.
Proof. vm_compute. reflexivity. Qed.

Example scale_int_half_up :
  process (ActionScaleInt (Float (S754_finite false 6755399441055744 (-52))) false)
    (lit "x") (lit "5") = Ok (VNum (Int 8)).
Proof. vm_compute. reflexivity. Qed.

Example shop_cost_scale_40 :
  (a ← new_ActionScaleInt (Float float_0_5) false false;
   v ← process a (lit "shop_cost_scale") (lit "40"); Ok (py_str v))
  = Ok (lit "20").
Proof. vm_compute. reflexivity. Qed.

Example fishing_chance_0_1 :
  py_str <$> (process (new_ActionFishingChance (Int 1) (Int 1) false)
                (lit "fishing_chance") (lit "0.1")) = Ok (lit "1").
Proof. vm_compute. reflexivity. Qed.

Example bom_decodes : utf8_decode BOM_UTF8 = Some [65279%N].
Proof. vm_compute. reflexivity. Qed.

Example utf8_roundtrip_ex :
  (encode_opt Utf8 [72; 233; 8364; 128512]%N ≫= utf8_decode)
  = Some [72; 233; 8364; 128512]%N.
Proof. vm_compute. reflexivity. Qed.

Example readlines_ex :
  readlines (translate_newlines (lit "a" ++ [13; 10] ++ lit "bc" ++ [13] ++ lit "d")%N)
  = [lit "a" ++ [10]; lit "bc" ++ [10]; lit "d"]%N.
Proof. vm_compute. reflexivity. Qed.

Example path_join_ex : path_join "templates" "Game/Text.sjson" = "templates/Game/Text.sjson"%string.
Proof. vm_compute. reflexivity. Qed.

Example path_dirname_ex : path_dirname "live/Game/Text.sjson" = "live/Game"%string.
Proof. vm_compute. reflexivity. Qed.

Example path_dirname_ex2 : path_dirname "Text.sjson" = ""%string.
Proof. vm_compute. reflexivity. Qed.

Example path_dirname_ex3 : path_dirname "/Text.sjson" = "/"%string.
Proof. vm_compute. reflexivity. Qed.

Example ancestors_ex : ancestors 10 "live/Game/Sub" = ["live/Game/Sub"; "live/Game"; "live"; ""]%string.
Proof. vm_compute. reflexivity. Qed.

Example newlines_held_back :
  newlines_after_readline (lit "a" ++ [10; 13]%N) = NlStr [10%N] /\
  newlines_after_readline (lit "a" ++ [13]%N) = NlStr [13%N] /\
  newlines_after_readline (lit "a" ++ [13; 10]%N ++ lit "b" ++ [10%N])
    = NlTuple (SeenNl false true true).
Proof. vm_compute. repeat split; reflexivity. Qed.

(** The end-to-end scenarios of the specification, on the change dict of
    [main]. *)
Example main_shop_cost :
  run_main (lit "Cost=@shop_cost_scale|40@;" ++ [10%N])
  = (Ok tt, Some (lit "Cost=20;")).
Proof. vm_compute. reflexivity. Qed.

Example main_fishing_chance :
  run_main (lit "Chance=@fishing_chance|0.1@" ++ [10%N])
  = (Ok tt, Some (lit "Chance=1")).
Proof. vm_compute. reflexivity. Qed.

Example main_godmode_lines :
  run_main (BOM_UTF8 ++ lit "a=@godmode_base_scale|0.8@" ++ [13; 10]%N ++
            lit "b=@godmode_per_death|-0.02@" ++ [13; 10]%N ++
            lit "c=@godmode_death_cap|30@ d=@well_gem_cost_scale|3@" ++ [13; 10]%N ++
            lit "k=@keepsake_activations|25, 50@" ++ [13; 10]%N)
  = (Ok tt,
     Some (BOM_UTF8 ++ lit "a=0.6" ++ [13; 10]%N ++ lit "b=-0.02" ++ [13; 10]%N ++
           lit "c=@godmode_death_cap|30@ d=0.5" ++ [13; 10]%N ++ lit "k=2, 2")).
Proof. vm_compute. reflexivity. Qed.

(** [str] of a float gives back the shortest text that reads as it. *)
Example str_float_0 : str_float (float_of_lit "13.0") = lit "13.0".
Proof. vm_compute. reflexivity. Qed.

Example str_float_1 : str_float (float_of_lit "0.1") = lit "0.1".
Proof. vm_compute. reflexivity. Qed.

Example str_float_2 : str_float (float_of_lit "-0.02") = lit "-0.02".
Proof. vm_compute. reflexivity. Qed.

Example str_float_3 : str_float (float_of_lit "1e+16") = lit "1e+16".
Proof. vm_compute. reflexivity. Qed.

Example str_float_4 : str_float (float_of_lit "1000000000000000.0") = lit "1000000000000000.0".
Proof. vm_compute. reflexivity. Qed.

Example str_float_5 : str_float (float_of_lit "0.0001") = lit "0.0001".
Proof. vm_compute. reflexivity. Qed.

Example str_float_6 : str_float (float_of_lit "1e-05") = lit "1e-05".
Proof. vm_compute. reflexivity. Qed.



Example str_float_9 : str_float (float_of_lit "123456789.12345679") = lit "123456789.12345679".
Proof. vm_compute. reflexivity. Qed.

Example str_float_10 : str_float (float_of_lit "2e+16") = lit "2e+16".
Proof. vm_compute. reflexivity. Qed.

Example str_float_11 : str_float (float_of_lit "0.325") = lit "0.325".
Proof. vm_compute. reflexivity. Qed.

Example str_float_12 : str_float (float_of_lit "9007199254740992.0") = lit "9007199254740992.0".
Proof. vm_compute. reflexivity. Qed.

(** [round] takes the decimal nearest to the exact binary value. *)
Example py_round_0 : py_round (float_of_lit "2.675") (2) = Ok (float_of_lit "2.67").
Proof. vm_compute. reflexivity. Qed.

Example py_round_1 : py_round (float_of_lit "2.5") (0) = Ok (float_of_lit "2.0").
Proof. vm_compute. reflexivity. Qed.

Example py_round_2 : py_round (float_of_lit "0.5") (0) = Ok (float_of_lit "0.0").
Proof. vm_compute. reflexivity. Qed.

Example py_round_3 : py_round (float_of_lit "1.5") (0) = Ok (float_of_lit "2.0").
Proof. vm_compute. reflexivity. Qed.

Example py_round_4 : py_round (float_of_lit "-0.05") (1) = Ok (float_of_lit "-0.1").
Proof. vm_compute. reflexivity. Qed.

Example py_round_5 : py_round (float_of_lit "1234.5678") (-2) = Ok (float_of_lit "1200.0").
Proof. vm_compute. reflexivity. Qed.

Example py_round_6 : py_round (float_of_lit "13.000000000000002") (6) = Ok (float_of_lit "13.0").
Proof. vm_compute. reflexivity. Qed.

Example py_round_7 : py_round (float_of_lit "0.3250000000000001") (6) = Ok (float_of_lit "0.325").
Proof. vm_compute. reflexivity. Qed.


(* ===================================================================== *)
(** * Theorems: the output side of [TextProcessor] *)
(* ===================================================================== *)

Ltac io_unfold :=
  unfold mbind, io_bind, mret, io_ret, lift, raise, append_file, open_wb,
    print in *; cbn [fst snd files dirs stdout] in *.

Section OutputChannel.

Lemma encode_ok enc text b :
  encode_opt enc text = Some b -> encode enc text = Ok b.
Proof. unfold encode. intros ->. reflexivity. Qed.

Lemma write_effect tp text b f content w :
  odf tp = Some f ->
  files w !! f = Some content ->
  encode_opt (tp_encoding tp) text = Some b ->
  exists tp' w',
    TextProcessor_write tp text w = (Ok tp', w') /\
    files w' !! f = Some (content ++ (if written_line tp then newline tp else []) ++ b) /\
    (forall g, g <> f -> files w' !! g = files w !! g) /\
    dirs w' = dirs w /\ stdout w' = stdout w /\
    written_line tp' = true /\ odf tp' = Some f /\
    newline tp' = newline tp /\ tp_encoding tp' = tp_encoding tp /\
    bom tp' = bom tp /\ filename_new tp' = filename_new tp.
Proof.
  intros Hodf Hf Henc.
  unfold TextProcessor_write. rewrite Hodf.
  rewrite (encode_ok _ _ _ Henc).
  destruct (written_line tp); io_unfold; eexists _, _; (split; [reflexivity|]);
    cbn [files dirs stdout written_line odf newline tp_encoding bom filename_new].
  - rewrite lookup_insert_eq. rewrite lookup_insert_eq. rewrite Hf. cbn.
    rewrite <- app_assoc.
    repeat split; try assumption.
    intros g Hg. rewrite !lookup_insert_ne by congruence. reflexivity.
  - rewrite lookup_insert_eq. rewrite Hf. cbn.
    repeat split; try assumption.
    intros g Hg. rewrite !lookup_insert_ne by congruence. reflexivity.
Qed.

Lemma write_all_effect texts : forall encs tp f content w,
  odf tp = Some f ->
  files w !! f = Some content ->
  mapM (encode_opt (tp_encoding tp)) texts = Some encs ->
  exists tp' w',
    write_all tp texts w = (Ok tp', w') /\
    files w' !! f = Some (content ++ added (written_line tp) (newline tp) encs).
Proof.
  induction texts as [|t texts IH]; intros encs tp f content w Hodf Hf Hm.
  - cbn in Hm. injection Hm as <-. exists tp, w. split; [reflexivity|].
    cbn. rewrite app_nil_r. exact Hf.
  - cbn in Hm.
    destruct (encode_opt (tp_encoding tp) t) as [b|] eqn:Hb; [|discriminate].
    cbn in Hm.
    destruct (mapM (encode_opt (tp_encoding tp)) texts) as [bs|] eqn:Hbs;
      [|discriminate].
    cbn in Hm. injection Hm as <-.
    destruct (write_effect tp t b f content w Hodf Hf Hb)
      as (tp1 & w1 & Hw & Hf1 & _ & _ & _ & Hwl & Hodf1 & Hnl & Henc & _ & _).
    rewrite <- Henc in Hbs.
    destruct (IH bs tp1 f _ w1 Hodf1 Hf1 Hbs) as (tp2 & w2 & Hrun & Hf2).
    exists tp2, w2. split.
    + cbn [write_all]. unfold mbind at 1, io_bind at 1. rewrite Hw. exact Hrun.
    + rewrite Hf2. f_equal. rewrite Hwl, Hnl.
      unfold added. destruct bs as [|b2 bs].
      * cbn. rewrite !app_nil_r. reflexivity.
      * cbn [join_bytes]. rewrite <- !app_assoc. reflexivity.
Qed.

(** When a text cannot be encoded, [write] raises after the separator has
    gone out: the file of the aborted run ends with the newline bytes. *)
Lemma write_unencodable (tp : TextProcessor) (text : pystr) (f : string)
    (content : pybytes) (w : world) :
  odf tp = Some f ->
  written_line tp = true ->
  files w !! f = Some content ->
  encode_opt (tp_encoding tp) text = None ->
  exists w', TextProcessor_write tp text w = (Raise UnicodeEncodeError, w') /\
             files w' !! f = Some (content ++ newline tp).
Proof.
  intros Hodf Hwl Hf Henc. unfold TextProcessor_write.
  rewrite Hodf, Hwl. unfold encode. rewrite Henc. io_unfold.
  eexists. split; [reflexivity|]. cbn [files].
  rewrite lookup_insert_eq. unfold pybytes in *. rewrite Hf. reflexivity.
Qed.

(** Before the first line there is no separator to write, and the file
    stays as it was. *)
Lemma write_unencodable_first (tp : TextProcessor) (text : pystr) (f : string)
    (w : world) :
  odf tp = Some f ->
  written_line tp = false ->
  encode_opt (tp_encoding tp) text = None ->
  TextProcessor_write tp text w = (Raise UnicodeEncodeError, w).
Proof.
  intros Hodf Hwl Henc. unfold TextProcessor_write.
  rewrite Hodf, Hwl. unfold encode. rewrite Henc. io_unfold. reflexivity.
Qed.

(** A run of [write] calls stops at the first text that cannot be encoded:
    the texts before it are in the file, followed by the separator that
    went out for the refused one. *)
Lemma write_all_unencodable done : forall encs tp f content w bad rest,
  odf tp = Some f ->
  files w !! f = Some content ->
  mapM (encode_opt (tp_encoding tp)) done = Some encs ->
  encode_opt (tp_encoding tp) bad = None ->
  exists w',
    write_all tp (done ++ bad :: rest) w = (Raise UnicodeEncodeError, w') /\
    files w' !! f =
      Some (content ++ added (written_line tp) (newline tp) encs ++
            match encs with
            | [] => if written_line tp then newline tp else []
            | _ => newline tp
            end).
Proof.
  induction done as [|t done IH]; intros encs tp f content w bad rest Hodf Hf Hm Hbad.
  - cbn in Hm. injection Hm as <-. cbn [app write_all added].
    destruct (written_line tp) eqn:Hwl.
    + destruct (write_unencodable tp bad f content w Hodf Hwl Hf Hbad)
        as (w' & Hw & Hf').
      exists w'. split; [|exact Hf'].
      unfold mbind, io_bind. rewrite Hw. reflexivity.
    + exists w. split.
      * unfold mbind, io_bind.
        rewrite (write_unencodable_first tp bad f w Hodf Hwl Hbad). reflexivity.
      * rewrite app_nil_r. exact Hf.
  - cbn in Hm.
    destruct (encode_opt (tp_encoding tp) t) as [b|] eqn:Hb; [|discriminate].
    cbn in Hm.
    destruct (mapM (encode_opt (tp_encoding tp)) done) as [bs|] eqn:Hbs;
      [|discriminate].
    cbn in Hm. injection Hm as <-.
    destruct (write_effect tp t b f content w Hodf Hf Hb)
      as (tp1 & w1 & Hw & Hf1 & _ & _ & _ & Hwl & Hodf1 & Hnl & Henc & _ & _).
    rewrite <- Henc in Hbs, Hbad.
    destruct (IH bs tp1 f _ w1 bad rest Hodf1 Hf1 Hbs Hbad) as (w2 & Hrun & Hf2).
    exists w2. split.
    + cbn [app write_all]. unfold mbind at 1, io_bind at 1. rewrite Hw. exact Hrun.
    + rewrite Hf2. f_equal. rewrite Hwl, Hnl.
      unfold added. destruct bs as [|b2 bs].
      * cbn. rewrite <- !app_assoc. reflexivity.
      * cbn [join_bytes]. rewrite <- !app_assoc. reflexivity.
Qed.

Lemma enter_opens (tp : TextProcessor) (w : world) :
  exists w1,
    TextProcessor_enter tp w
      = (Ok (MkTextProcessor (filename_orig tp) (filename_new tp)
               (written_line tp) (orig_encoding tp) (tp_encoding tp)
               (bom tp) (newline tp) (data tp) (Some (filename_new tp))), w1) /\
    files w1 !! filename_new tp = Some (default [] (bom tp)).
Proof.
  unfold TextProcessor_enter. destruct (bom tp) as [b|]; io_unfold;
    eexists; (split; [reflexivity|]); cbn [files];
    rewrite ?lookup_insert_eq; reflexivity.
Qed.

End OutputChannel.

(** The run of the counterexample below: an ASCII file, a first line that
    can be encoded and a second one that cannot. *)
Lemma ascii_run_aborts :
  exists w',
    (tp1 ← TextProcessor_enter
             (MkTextProcessor "t/f" "l/f" false (Some "ascii"%string) Ascii
                None [10]%N [] None);
     write_all tp1 [lit "ab"; [233%N]]) (World ∅ ∅ [])
      = (Raise UnicodeEncodeError, w') /\
    files w' !! "l/f"%string = Some [97; 98; 10]%N.
Proof. eexists. split; reflexivity. Qed.

(** C2, as stated, fails: the layout is promised for any sequence of
    [write] calls, but a call whose text cannot be encoded raises after its
    separator went out.  Here an ASCII file gets the lines [ab] and [é]:
    the run is aborted and the file holds [ab] and the newline byte, which
    is the layout of no leading part of the sequence. *)
Lemma output_layout_counterexample :
  let tp := MkTextProcessor "t/f" "l/f" false (Some "ascii"%string) Ascii
              None [10]%N [] None in
  let texts := [lit "ab"; [233%N]] in
  exists r w' content,
    (tp1 ← TextProcessor_enter tp; write_all tp1 texts) (World ∅ ∅ []) = (r, w') /\
    files w' !! filename_new tp = Some content /\
    content = [97; 98; 10]%N /\
    forall written encs,
      written `prefix_of` texts ->
      mapM (encode_opt (tp_encoding tp)) written = Some encs ->
      content <> default [] (bom tp) ++ join_bytes (newline tp) encs.
Proof.
  intros tp texts.
  destruct ascii_run_aborts as (w' & Hrun & Hf).
  exists (Raise UnicodeEncodeError), w', [97; 98; 10]%N.
  split; [exact Hrun|]. split; [exact Hf|]. split; [reflexivity|].
  intros written encs [k Hk] Hm.
  destruct written as [|a [|b [|c written]]]; cbn in Hk.
  - cbn in Hm. injection Hm as <-. discriminate.
  - injection Hk as <- _. cbn in Hm. injection Hm as <-. discriminate.
  - injection Hk as <- <- _. cbn in Hm. discriminate.
  - discriminate.
Qed.

(** C2, amended.  After [__enter__] on a fresh [TextProcessor], a sequence
    of [write] calls whose texts can all be encoded leaves in the output
    file the BOM bytes first (when the source had one), then the encoded
    lines with the recorded newline bytes before every line except the
    first, and nothing after the last line.  A further call whose text
    cannot be encoded raises [UnicodeEncodeError] once its separator is
    written: the file keeps that layout, followed by the newline bytes when
    a line had been written before, and the calls after it never run. *)
Theorem output_layout (tp : TextProcessor) (texts : list pystr)
    (encs : list pybytes) (w : world) :
  written_line tp = false ->
  mapM (encode_opt (tp_encoding tp)) texts = Some encs ->
  (exists tp' w',
     (tp1 ← TextProcessor_enter tp; write_all tp1 texts) w = (Ok tp', w') /\
     files w' !! filename_new tp =
       Some (default [] (bom tp) ++ join_bytes (newline tp) encs)) /\
  (forall bad rest,
     encode_opt (tp_encoding tp) bad = None ->
     exists w',
       (tp1 ← TextProcessor_enter tp; write_all tp1 (texts ++ bad :: rest)) w
         = (Raise UnicodeEncodeError, w') /\
       files w' !! filename_new tp =
         Some (default [] (bom tp) ++ join_bytes (newline tp) encs ++
               match encs with [] => [] | _ => newline tp end)).
Proof.
  intros Hfresh Hm.
  set (f := filename_new tp).
  destruct (enter_opens tp w) as (w1 & Hent & Hf1).
  set (tp1 := MkTextProcessor _ _ _ _ _ _ _ _ _) in Hent.
  split.
  - destruct (write_all_effect texts encs tp1 f _ w1 eq_refl Hf1 Hm)
      as (tp2 & w2 & Hrun & Hf2).
    exists tp2, w2. split.
    + unfold mbind at 1, io_bind at 1. rewrite Hent. exact Hrun.
    + rewrite Hf2. cbn [written_line newline tp1]. rewrite Hfresh.
      unfold added. destruct encs; cbn; reflexivity.
  - intros bad rest Hbad.
    destruct (write_all_unencodable texts encs tp1 f _ w1 bad rest
                eq_refl Hf1 Hm Hbad) as (w2 & Hrun & Hf2).
    exists w2. split.
    + unfold mbind at 1, io_bind at 1. rewrite Hent. exact Hrun.
    + rewrite Hf2. cbn [written_line newline tp1]. rewrite Hfresh.
      unfold added. destruct encs; cbn; reflexivity.
Qed.

Lemma output_layout_witness :
  let tp := MkTextProcessor "t/f" "l/f" false (Some "UTF-8-SIG"%string) Utf8
              (Some BOM_UTF8) [13; 10]%N [] None in
  (exists tp' w',
     (tp1 ← TextProcessor_enter tp; write_all tp1 [lit "ab"; []; lit "c"])
       (World ∅ ∅ []) = (Ok tp', w') /\
     files w' !! "l/f"%string =
       Some (BOM_UTF8 ++ lit "ab" ++ [13; 10] ++ [13; 10] ++ lit "c")%N) /\
  (exists w',
     (tp1 ← TextProcessor_enter tp;
      write_all tp1 ([lit "ab"; []; lit "c"] ++ [55296%N] :: [lit "d"]))
       (World ∅ ∅ []) = (Raise UnicodeEncodeError, w') /\
     files w' !! "l/f"%string =
       Some (BOM_UTF8 ++ lit "ab" ++ [13; 10] ++ [13; 10] ++ lit "c" ++ [13; 10])%N).
Proof.
  intros tp.
  destruct (output_layout tp [lit "ab"; []; lit "c"] [lit "ab"; []; lit "c"]
              (World ∅ ∅ []) eq_refl eq_refl) as [H1 H2].
  split; [exact H1|].
  exact (H2 [55296%N] [lit "d"] eq_refl).
Defined.

(* ===================================================================== *)
(** * Theorems: the macro pattern *)
(* ===================================================================== *)

Section StarLemmas.
Context {R : Type}.
Variable p : pychar -> bool.
Variable K : nat -> pystr -> option R.

Lemma star_greedy_none u :
  (forall m v, suffix v u -> K m v = None) ->
  forall n, star_greedy p n u K = None.
Proof.
  induction u as [|c u IH]; intros HK n; cbn.
  - apply HK. reflexivity.
  - assert (Hn : K n (c :: u) = None) by (apply HK; reflexivity).
    destruct (p c); [|exact Hn].
    rewrite IH; [exact Hn|].
    intros m v Hv. apply HK. by apply suffix_cons_r.
Qed.

Lemma star_greedy_here c u n :
  (forall m v, suffix v u -> K m v = None) ->
  star_greedy p n (c :: u) K = K n (c :: u).
Proof.
  intros HK. cbn. destruct (p c); [|reflexivity].
  rewrite star_greedy_none; auto.
Qed.

Lemma star_greedy_skip a : forall b n r,
  Forall (fun c => p c = true) a ->
  star_greedy p (n + length a) b K = Some r ->
  star_greedy p n (a ++ b) K = Some r.
Proof.
  induction a as [|c a IH]; intros b n r Ha Hr.
  - cbn in *. rewrite Nat.add_0_r in Hr. exact Hr.
  - inversion Ha as [|? ? Hc Ha']; subst. cbn. rewrite Hc.
    rewrite (IH b (S n) r Ha'); [reflexivity|].
    cbn in Hr. rewrite <- Nat.add_succ_comm in Hr. exact Hr.
Qed.

Lemma star_greedy_all a n r :
  Forall (fun c => p c = true) a ->
  K (n + length a) [] = Some r ->
  star_greedy p n a K = Some r.
Proof.
  intros Ha Hr. rewrite <- (app_nil_r a).
  apply star_greedy_skip; [exact Ha|]. exact Hr.
Qed.

Lemma star_greedy_max a : forall b n,
  Forall (fun c => p c = true) a ->
  head (p <$> b) <> Some true ->
  (forall m c w, p c = true -> K m (c :: w) = None) ->
  star_greedy p n (a ++ b) K = K (n + length a) b.
Proof.
  induction a as [|c a IH]; intros b n Ha Hb HK.
  - cbn. rewrite Nat.add_0_r. destruct b as [|c b]; [reflexivity|].
    cbn in *. destruct (p c); [congruence|reflexivity].
  - inversion Ha as [|? ? Hc Ha']; subst. cbn. rewrite Hc.
    rewrite (IH b (S n) Ha' Hb HK).
    rewrite <- Nat.add_succ_comm.
    destruct (K (S n + length a) b); [reflexivity|].
    apply HK, Hc.
Qed.

Lemma star_lazy_none u :
  (forall m v, suffix v u -> K m v = None) ->
  forall n, star_lazy p n u K = None.
Proof.
  induction u as [|c u IH]; intros HK n.
  - cbn. rewrite HK; reflexivity.
  - cbn. rewrite HK by reflexivity.
    destruct (p c); [|reflexivity].
    apply IH. intros m v Hv. apply HK. by apply suffix_cons_r.
Qed.

Lemma star_lazy_first d : forall w n r,
  Forall (fun c => p c = true) d ->
  (forall m c w', c ∈ d -> K m (c :: w') = None) ->
  K (n + length d) w = Some r ->
  star_lazy p n (d ++ w) K = Some r.
Proof.
  induction d as [|c d IH]; intros w n r Hd HK Hr.
  - cbn in *. rewrite Nat.add_0_r in Hr.
    destruct w; cbn; rewrite Hr; reflexivity.
  - inversion Hd as [|? ? Hc Hd']; subst. cbn.
    rewrite HK by (left). rewrite Hc.
    apply IH; [exact Hd'| |].
    + intros m c' w' Hin. apply HK. by right.
    + cbn in Hr. rewrite <- Nat.add_succ_comm in Hr. exact Hr.
Qed.

End StarLemmas.

Lemma take_drop_while {A} (p : A -> bool) l :
  take_while p l ++ drop_while p l = l.
Proof.
  induction l as [|x l IH]; cbn; [reflexivity|].
  destruct (p x); cbn; [rewrite IH|]; reflexivity.
Qed.

Lemma take_while_all {A} (p : A -> bool) l :
  Forall (fun x => p x = true) (take_while p l).
Proof.
  induction l as [|x l IH]; cbn; [constructor|].
  destruct (p x) eqn:E; constructor; assumption.
Qed.

Lemma drop_while_head {A} (p : A -> bool) l :
  head (p <$> drop_while p l) <> Some true.
Proof.
  induction l as [|x l IH]; cbn; [congruence|].
  destruct (p x) eqn:E; [exact IH|]. cbn. rewrite E. congruence.
Qed.

Lemma dotted_app a b : dotted (a ++ b) <-> dotted a /\ dotted b.
Proof. apply Forall_app. Qed.

Lemma name_char_not_bar c : name_char c = true -> N.eqb (chr "|") c = false.
Proof.
  unfold name_char, chr. cbn. intros H. apply N.eqb_neq. intros <-.
  cbn in H. discriminate.
Qed.

Lemma drop_while_skip {A} (p : A -> bool) a b :
  Forall (fun x => p x = true) a -> head (p <$> b) <> Some true ->
  drop_while p (a ++ b) = b.
Proof.
  intros Ha Hb. induction Ha as [|x a Hx Ha IH]; cbn.
  - destruct b as [|y b]; [reflexivity|]. cbn in *.
    destruct (p y); [congruence|reflexivity].
  - rewrite Hx. exact IH.
Qed.

Lemma take_while_skip {A} (p : A -> bool) a b :
  Forall (fun x => p x = true) a -> head (p <$> b) <> Some true ->
  take_while p (a ++ b) = a.
Proof.
  intros Ha Hb. induction Ha as [|x a Hx Ha IH]; cbn.
  - destruct b as [|y b]; [reflexivity|]. cbn in *.
    destruct (p y); [congruence|reflexivity].
  - rewrite Hx, IH. reflexivity.
Qed.

Lemma not_at_false c : not_at c = false -> N.eqb (chr "@") c = true.
Proof.
  unfold not_at. intros H. apply negb_false_iff in H.
  rewrite N.eqb_sym. exact H.
Qed.

Lemma not_at_true c : not_at c = true -> N.eqb (chr "@") c = false.
Proof.
  unfold not_at. intros H. apply negb_true_iff in H.
  rewrite N.eqb_sym. exact H.
Qed.

(** The pattern after the [start] group, on a text without newlines: it
    matches exactly when a span opens here. *)
Lemma macro_tail_spec v m cs :
  dotted v ->
  rmatch macro_tail (MState m v cs) final_k =
  match span_here v with
  | Some (n, d, e) =>
      Some (set_capture Gend e (set_capture Gdefault d (set_capture Gname n cs)))
  | None => None
  end.
Proof.
  intros Hnl. destruct v as [|c v1]; [reflexivity|].
  cbn [macro_tail rmatch rest pos caps span_here].
  rewrite (N.eqb_sym c). destruct (N.eqb (chr "@") c) eqn:Hat; [|reflexivity].
  apply Forall_cons in Hnl as [_ Hnl1].
  pose proof (take_drop_while name_char v1) as Hsplit.
  pose proof (take_while_all name_char v1) as Hname.
  pose proof (drop_while_head name_char v1) as Hhead.
  destruct (take_while name_char v1) as [|c1 nm] eqn:Hnm.
  { (* no name *)
    cbn in Hsplit. rewrite Hsplit in Hhead.
    destruct v1 as [|c1 v1']; [reflexivity|].
    cbn in Hhead. destruct (name_char c1); [congruence|reflexivity]. }
  remember (drop_while name_char v1) as v2 eqn:Hv2. clear Hv2 Hnm.
  subst v1. cbn [app].
  apply Forall_cons in Hname as [Hc1 Hname].
  rewrite Hc1.
  rewrite star_greedy_max; [|exact Hname|exact Hhead|].
  2:{ intros k c0 w Hc0. rewrite (name_char_not_bar _ Hc0). reflexivity. }
  apply dotted_app in Hnl1 as [_ Hnl2].
  replace (S (S m) + length nm - S m)%nat with (length (c1 :: nm))
    by (cbn [length]; lia).
  change (c1 :: nm ++ v2) with ((c1 :: nm) ++ v2). rewrite take_app_length.
  destruct v2 as [|c2 v3]; [reflexivity|].
  rewrite (N.eqb_sym c2).
  destruct (N.eqb (chr "|") c2) eqn:Hbar; [|reflexivity].
  apply Forall_cons in Hnl2 as [_ Hnl3].
  pose proof (take_drop_while not_at v3) as Hsplit3.
  pose proof (take_while_all not_at v3) as Hd.
  pose proof (drop_while_head not_at v3) as Hhead3.
  remember (take_while not_at v3) as d eqn:Hdeq.
  remember (drop_while not_at v3) as v4 eqn:Hv4. clear Hdeq Hv4.
  subst v3. apply dotted_app in Hnl3 as [Hnld Hnl4].
  destruct v4 as [|c4 e].
  { (* no closing at sign *)
    apply star_lazy_none. intros k v Hv.
    destruct v as [|c0 v']; [reflexivity|].
    destruct (N.eqb (chr "@") c0) eqn:E; [|reflexivity].
    exfalso. rewrite app_nil_r in Hv.
    assert (Hin : c0 ∈ d).
    { destruct Hv as [pre ->]. apply elem_of_app. right. left. }
    rewrite Forall_forall in Hd. specialize (Hd _ Hin).
    apply not_at_true in Hd. congruence. }
  cbn in Hhead3. destruct (not_at c4) eqn:Hc4; [congruence|].
  apply not_at_false in Hc4.
  apply Forall_cons in Hnl4 as [_ Hnle].
  apply star_lazy_first; [exact Hnld| |].
  { intros k c0 w' Hin. rewrite Forall_forall in Hd.
    rewrite (not_at_true _ (Hd _ Hin)). reflexivity. }
  rewrite Hc4.
  replace (S (S (S m) + length nm) + length d - S (S (S m) + length nm))%nat
    with (length d) by lia.
  rewrite take_app_length.
  apply star_greedy_all; [exact Hnle|].
  unfold final_k. cbn [caps].
  replace (S (S (S (S m) + length nm) + length d) + length e
           - S (S (S (S m) + length nm) + length d))%nat
    with (length e) by lia.
  rewrite firstn_all. reflexivity.
Qed.

Lemma greedy_start_spec u : forall pre,
  dotted u ->
  star_greedy dot (length pre) u
    (fun n r => rmatch macro_tail
                  (MState n r (set_capture Gstart (take (n - 0) (pre ++ u)) no_captures))
                  final_k)
  = captures_of pre <$> last_span u.
Proof.
  induction u as [|c u IH]; intros pre Hnl.
  - cbn [star_greedy]. rewrite macro_tail_spec by exact Hnl. reflexivity.
  - pose proof Hnl as Hnl'. apply Forall_cons in Hnl' as [Hc Hu].
    cbn [star_greedy]. rewrite Hc.
    specialize (IH (pre ++ [c]) Hu).
    rewrite length_app in IH. cbn [length] in IH.
    rewrite Nat.add_1_r in IH. rewrite <- app_assoc in IH. cbn [app] in IH.
    rewrite IH. cbn [last_span].
    destruct (last_span u) as [o|].
    + cbn. unfold captures_of. cbn. rewrite <- app_assoc. reflexivity.
    + cbn [fmap option_fmap option_map].
      rewrite macro_tail_spec by exact Hnl.
      rewrite Nat.sub_0_r, take_app_length.
      destruct (span_here (c :: u)) as [[[n d] e]|]; [|reflexivity].
      cbn. unfold captures_of. cbn. rewrite app_nil_r. reflexivity.
Qed.

(** On a line without newlines [macro_re] finds the span that opens
    last. *)
Lemma macro_match_is_last_span line :
  dotted line -> macro_match line = last_span line.
Proof.
  intros Hnl. unfold macro_match.
  change (re_match macro_re line) with
    (star_greedy dot (length (@nil pychar)) line
       (fun n r => rmatch macro_tail
                     (MState n r (set_capture Gstart (take (n - 0) ([] ++ line)) no_captures))
                     final_k)).
  rewrite greedy_start_spec by exact Hnl.
  destruct (last_span line) as [[s n d e]|]; reflexivity.
Qed.

Lemma last_span_none u :
  (forall v, suffix v u -> span_here v = None) -> last_span u = None.
Proof.
  induction u as [|c u IH]; intros H; [reflexivity|].
  cbn [last_span]. rewrite IH.
  - rewrite H by reflexivity. reflexivity.
  - intros v Hv. apply H. by apply suffix_cons_r.
Qed.

Lemma last_span_app s u o :
  last_span u = Some o ->
  last_span (s ++ u) =
    Some (Occurrence (s ++ occ_start o) (occ_name o) (occ_default o) (occ_end o)).
Proof.
  intros Hu. induction s as [|c s IH].
  - cbn. rewrite Hu. destruct o; reflexivity.
  - cbn [app last_span]. rewrite IH. reflexivity.
Qed.

Lemma last_span_here u n d e :
  span_here u = Some (n, d, e) ->
  (forall w v, u = w ++ v -> w <> [] -> span_here v = None) ->
  last_span u = Some (Occurrence [] n d e).
Proof.
  intros Hu Hlater. destruct u as [|c u]; [discriminate|].
  cbn [last_span]. rewrite last_span_none.
  - rewrite Hu. reflexivity.
  - intros v [w Hv]. apply (Hlater (c :: w) v); [|discriminate].
    rewrite Hv. reflexivity.
Qed.

Lemma no_newline_dotted s : no_newline s -> dotted s.
Proof.
  unfold no_newline, dotted. intros H.
  apply Forall_forall. intros c Hc.
  rewrite forallb_forall in H. apply H. by apply list_elem_of_In.
Qed.

Lemma last_span_none_inv u :
  last_span u = None -> forall v, suffix v u -> span_here v = None.
Proof.
  induction u as [|c u IH]; intros H v Hv.
  - apply suffix_nil_inv in Hv as ->. reflexivity.
  - cbn [last_span] in H.
    destruct (last_span u) as [o|] eqn:Hu; [discriminate|].
    destruct Hv as [[|c' w] Hv].
    + cbn in Hv. subst v.
      destruct (span_here (c :: u)) as [[[? ?] ?]|]; [discriminate|reflexivity].
    + injection Hv as _ Hv. apply IH; [reflexivity|]. by exists w.
Qed.

(** C3. When a span opens at the beginning of [u] and none opens further
    on, the match is made against that last span whatever precedes it:
    everything before its at sign, earlier spans included, is the [start]
    group, the name and default are those of the last span, and the line
    written is [start], the one replacement and [end]. *)
Theorem last_span_wins (self : App) (tp : TextProcessor)
    (s u n d e : pystr) :
  no_newline (s ++ u) ->
  span_here u = Some (n, d, e) ->
  last_span (tail u) = None ->
  macro_match (s ++ u) = Some (Occurrence s n d e) /\
  process_line self tp (s ++ u) =
    (action ← match changes self !! n with
              | Some a => mret a
              | None => print (MsgWarningKeyNotFound n);; mret (default_action self)
              end;
     v ← lift (process action n d);
     TextProcessor_write tp (s ++ py_str v ++ e)).
Proof.
  intros Hnl Hu Hlater. apply no_newline_dotted in Hnl.
  assert (Hm : macro_match (s ++ u) = Some (Occurrence s n d e)).
  { rewrite macro_match_is_last_span by exact Hnl.
    rewrite (last_span_app s u (Occurrence [] n d e)).
    - cbn. rewrite app_nil_r. reflexivity.
    - apply last_span_here; [exact Hu|].
      intros w v Huv Hw. apply (last_span_none_inv (tail u) Hlater).
      destruct w as [|c w]; [congruence|]. subst u. cbn. by exists w. }
  split; [exact Hm|].
  unfold process_line. rewrite Hm. reflexivity.
Qed.

Lemma last_span_wins_witness :
  macro_match (lit "a@x|1@b@y|2@c") =
    Some (Occurrence (lit "a@x|1@b") (lit "y") (lit "2") (lit "c")).
Proof.
  refine (proj1 (last_span_wins (App_init "t" "l" ∅)
            (MkTextProcessor "t/f" "l/f" false None Ascii None [10%N] [] None)
            (lit "a@x|1@b") (lit "@y|2@c") (lit "y") (lit "2") (lit "c") _ _ _));
    reflexivity.
Defined.

(* ===================================================================== *)
(** * Theorems: the driver *)
(* ===================================================================== *)

(** A line without a macro goes to [write] as it is. *)
Lemma no_macro_passthrough (self : App) (tp : TextProcessor) (line : pystr) :
  macro_match line = None ->
  process_line self tp line = TextProcessor_write tp line.
Proof. intros H. unfold process_line. rewrite H. reflexivity. Qed.

(** C5. A macro whose name is not in the catalog: the driver prints the
    warning, writes the line with the default text in place of the macro,
    and carries on without an error. *)
Theorem missing_key_uses_default (td ld : string) (ch : gmap pystr action)
    (tp : TextProcessor) (line : pystr) (m : occurrence) (f : string)
    (content b : pybytes) (w : world) :
  macro_match line = Some m ->
  ch !! occ_name m = None ->
  odf tp = Some f ->
  files w !! f = Some content ->
  encode_opt (tp_encoding tp) (occ_start m ++ occ_default m ++ occ_end m) = Some b ->
  exists tp' w',
    process_line (App_init td ld ch) tp line w = (Ok tp', w') /\
    stdout w' = stdout w ++ [MsgWarningKeyNotFound (occ_name m)] /\
    files w' !! f =
      Some (content ++ (if written_line tp then newline tp else []) ++ b).
Proof.
  intros Hm Hch Hodf Hf Henc.
  set (w1 := World (files w) (dirs w)
               (stdout w ++ [MsgWarningKeyNotFound (occ_name m)])).
  destruct (write_effect tp _ b f content w1 Hodf Hf Henc)
    as (tp' & w' & Hw & Hf' & _ & _ & Hout & _).
  exists tp', w'. split; [|split; [exact Hout|exact Hf']].
  unfold process_line. rewrite Hm. cbn [App_init changes default_action].
  rewrite Hch. io_unfold. cbn. exact Hw.
Qed.

Lemma missing_key_uses_default_witness :
  (exists tp' w',
    process_line (App_init "t" "l" ∅)
      (MkTextProcessor "t/f" "l/f" false (Some "ascii"%string) Ascii None
         [10%N] [] (Some "l/f"%string))
      (lit "x=@unknown_macro|7@;")
      (World {[ "l/f"%string := [] ]} ∅ []) = (Ok tp', w') /\
    stdout w' = [] ++ [MsgWarningKeyNotFound (lit "unknown_macro")] /\
    files w' !! "l/f"%string = Some ([] ++ [] ++ lit "x=7;")) /\
  sample_process_files (App_init "t" "l" ∅)
    (one_file_world "f.txt" (lit "x=@unknown_macro|7@;" ++ [10%N]))
  = (Ok tt,
     World {[ "t/f.txt"%string := lit "x=@unknown_macro|7@;" ++ [10%N];
              "l/f.txt"%string := lit "x=7;" ]}
           {[ "t"%string; "l"%string ]}
           [MsgProcessing "f.txt"; MsgWarningKeyNotFound (lit "unknown_macro")]).
Proof.
  split; [|vm_compute; reflexivity].
  apply (missing_key_uses_default "t" "l" ∅
           (MkTextProcessor "t/f" "l/f" false (Some "ascii"%string) Ascii None
              [10%N] [] (Some "l/f"%string))
           (lit "x=@unknown_macro|7@;")
           (Occurrence (lit "x=") (lit "unknown_macro") (lit "7") (lit ";"))
           "l/f" [] (lit "x=7;")); reflexivity.
Defined.

Lemma process_lines_raise (self : App) tp line rest e w w' :
  process_line self tp line w = (Raise e, w') ->
  process_lines self tp (line :: rest) w = (Raise e, w').
Proof.
  intros H. cbn [process_lines]. unfold mbind at 1, io_bind at 1.
  rewrite H. reflexivity.
Qed.

Lemma process_conversion_fails a name default :
  conversion_fails a name default ->
  process a name default = Raise ValueError.
Proof.
  unfold conversion_fails, process.
  destruct a as [|sc [|]|sc pr [|]|v u|s e st stp u|mc mr [|]]; try tauto.
  - intros H. cbn. rewrite H. reflexivity.
  - intros H. cbn. rewrite H. reflexivity.
  - intros [[-> H]|[-> H]]; cbn; rewrite H; reflexivity.
Qed.

(** C10. A matched macro bound to a numeric action whose default text does
    not convert: [process] raises [ValueError], nothing catches it in the
    line loop or in the [with] statement, and the lines and files that
    follow are not processed. *)
Theorem malformed_default_aborts (self : App) (tp : TextProcessor)
    (line : pystr) (others : list pystr) (m : occurrence) (a : action)
    (f : string) (w : world) :
  macro_match line = Some m ->
  changes self !! occ_name m = Some a ->
  conversion_fails a (occ_name m) (occ_default m) ->
  odf tp = Some f ->
  process a (occ_name m) (occ_default m) = Raise ValueError /\
  process_line self tp line w = (Raise ValueError, w) /\
  process_lines self tp (line :: others) w = (Raise ValueError, w) /\
  run_then_exit tp (process_lines self tp (line :: others)) w
    = (Raise ValueError, w).
Proof.
  intros Hm Hch Hfail Hodf.
  pose proof (process_conversion_fails _ _ _ Hfail) as Hp.
  assert (Hl : process_line self tp line w = (Raise ValueError, w)).
  { unfold process_line. rewrite Hm, Hch. io_unfold. rewrite Hp. reflexivity. }
  pose proof (process_lines_raise self tp line others _ _ _ Hl) as Hls.
  repeat split; try assumption.
  unfold run_then_exit. rewrite Hls. unfold TextProcessor_exit.
  rewrite Hodf. reflexivity.
Qed.

(** A failing file stops [process_files]: the files after it are not
    touched. *)
Lemma process_paths_raise detect decode ra (self : App) p paths e w w' :
  process_file detect decode ra self
    (string_of_list_ascii
       (drop (S (String.length (template_dir self))) (list_ascii_of_string p))) w
    = (Raise e, w') ->
  process_paths detect decode ra self (p :: paths) w = (Raise e, w').
Proof.
  intros H. cbn [process_paths]. unfold mbind at 1, io_bind at 1.
  rewrite H. reflexivity.
Qed.

Lemma malformed_default_aborts_witness :
  (let tp := MkTextProcessor "t/f" "l/f" false (Some "ascii"%string) Ascii None
               [10%N] [] (Some "l/f"%string) in
   let w := World {[ "l/f"%string := [] ]} ∅ [] in
   let self := App_init "t" "l" scale_catalog in
   process (ActionScaleInt (Float float_0_5) false) (lit "shop_cost_scale") []
     = Raise ValueError /\
   process_line self tp (lit "Cost=@shop_cost_scale|@;") w = (Raise ValueError, w) /\
   process_lines self tp [lit "Cost=@shop_cost_scale|@;"; lit "next"] w
     = (Raise ValueError, w) /\
   run_then_exit tp
     (process_lines self tp [lit "Cost=@shop_cost_scale|@;"; lit "next"]) w
     = (Raise ValueError, w)) /\
  fst (sample_process_files (App_init "t" "l" scale_catalog)
         (one_file_world "f.txt" (lit "Cost=@shop_cost_scale|@;" ++ [10%N])))
    = Raise ValueError.
Proof.
  split.
  - apply (malformed_default_aborts (App_init "t" "l" scale_catalog)
             (MkTextProcessor "t/f" "l/f" false (Some "ascii"%string) Ascii None
                [10%N] [] (Some "l/f"%string))
             (lit "Cost=@shop_cost_scale|@;") [lit "next"]
             (Occurrence (lit "Cost=") (lit "shop_cost_scale") [] (lit ";"))
             (ActionScaleInt (Float float_0_5) false) "l/f");
      reflexivity.
  - vm_compute. reflexivity.
Defined.

(* ===================================================================== *)
(** * Theorems: the input side of [TextProcessor] *)
(* ===================================================================== *)

(** C9. When the detector is not confident enough, or names an encoding
    other than the two supported ones, [process_file] raises before the
    output file is opened: the table of files is the one it started
    from. *)
Theorem unsupported_encoding_no_output
    (detect : pybytes -> detection) (decode : pybytes -> option pystr)
    (ra : pystr -> nat) (self : App) (filename : string) (raw : pybytes)
    (w : world) :
  files w !! path_join (template_dir self) filename = Some raw ->
  num_lt (Float (det_confidence (detect (take 1024 raw)))) (Float float_0_9) = true \/
  (det_encoding (detect (take 1024 raw)) <> Some "UTF-8-SIG"%string /\
   det_encoding (detect (take 1024 raw)) <> Some "ascii"%string) ->
  exists e w',
    process_file detect decode ra self filename w = (Raise e, w') /\
    files w' = files w /\
    (e = FileNotFoundError \/
     e = RuntimeError (NotConfident (path_join (template_dir self) filename)) \/
     e = RuntimeError (UnknownEncoding (path_join (template_dir self) filename))).
Proof.
  intros Hsrc Hbad.
  unfold process_file, with_TextProcessor, TextProcessor_init.
  io_unfold. cbn [files].
  destruct (path_exists _ _) eqn:Hex.
  - (* the destination directory is there *)
    unfold read_file at 1. cbn [files]. rewrite Hsrc. cbn [of_option].
    destruct (num_lt _ _) eqn:Hconf.
    + eexists _, _. split; [reflexivity|]. split; [reflexivity|]. auto.
    + destruct Hbad as [Hbad|[Hne1 Hne2]]; [discriminate|].
      destruct (decide _) as [Heq|_]; [contradiction|].
      destruct (decide _) as [Heq|_]; [contradiction|].
      eexists _, _. split; [reflexivity|]. split; [reflexivity|]. auto.
  - unfold makedirs. destruct (decide _) as [Hd|Hd].
    + eexists _, _. split; [reflexivity|]. split; [reflexivity|]. auto.
    + unfold read_file at 1. cbn [files]. rewrite Hsrc. cbn [of_option].
      destruct (num_lt _ _) eqn:Hconf.
      * eexists _, _. split; [reflexivity|]. split; [reflexivity|]. auto.
      * destruct Hbad as [Hbad|[Hne1 Hne2]]; [discriminate|].
        destruct (decide _) as [Heq|_]; [contradiction|].
        destruct (decide _) as [Heq|_]; [contradiction|].
        eexists _, _. split; [reflexivity|]. split; [reflexivity|]. auto.
Qed.

Lemma unsupported_encoding_no_output_witness :
  exists e w',
    process_file bom_detect utf8_decode sample_readahead
      (App_init "t" "l" ∅) "f.txt" (one_file_world "f.txt" utf16_sample)
      = (Raise e, w') /\
    files w' = files (one_file_world "f.txt" utf16_sample) /\
    (e = FileNotFoundError \/
     e = RuntimeError (NotConfident (path_join "t" "f.txt")) \/
     e = RuntimeError (UnknownEncoding (path_join "t" "f.txt"))).
Proof.
  apply (unsupported_encoding_no_output bom_detect utf8_decode sample_readahead
           (App_init "t" "l" ∅) "f.txt" utf16_sample
           (one_file_world "f.txt" utf16_sample)).
  - reflexivity.
  - right. split; vm_compute; discriminate.
Defined.

(* ===================================================================== *)
(** * Theorems: binary64 arithmetic *)
(* ===================================================================== *)

Section Digits.

Lemma digits2_pos_size p : digits2_pos p = Pos.size p.
Proof. induction p as [p IH|p IH|]; cbn; congruence. Qed.

Lemma Zdigits2_log2 p : Zdigits2 (Zpos p) = Z.log2 (Zpos p) + 1.
Proof.
  unfold Zdigits2. rewrite digits2_pos_size.
  destruct p as [p|p|]; cbn [Pos.size Z.log2]; lia.
Qed.

Lemma Zdigits2_bounds M :
  0 < M -> 2 ^ (Zdigits2 M - 1) <= M < 2 ^ Zdigits2 M.
Proof.
  intros HM. destruct M as [|p|p]; try lia.
  rewrite Zdigits2_log2.
  replace (Z.log2 (Z.pos p) + 1 - 1) with (Z.log2 (Z.pos p)) by lia.
  pose proof (Z.log2_spec (Z.pos p) HM) as H.
  replace (Z.succ (Z.log2 (Z.pos p))) with (Z.log2 (Z.pos p) + 1) in H by lia.
  exact H.
Qed.

Lemma Zdigits2_nonneg M : 0 <= Zdigits2 M.
Proof. destruct M; cbn; lia. Qed.

Lemma Zdigits2_pos M : 0 < M -> 0 < Zdigits2 M.
Proof. destruct M; cbn; lia. Qed.

Lemma Zdigits2_le M d : 0 <= M -> 0 <= d -> M < 2 ^ d -> Zdigits2 M <= d.
Proof.
  intros HM Hd Hlt. destruct (Z.eq_dec M 0) as [->|Hne]; [cbn; lia|].
  assert (0 < M) as Hpos by lia.
  destruct (Zdigits2_bounds M Hpos) as [Hlo _].
  destruct (Z_le_gt_dec (Zdigits2 M) d) as [|Hgt]; [assumption|].
  exfalso.
  assert (2 ^ d <= 2 ^ (Zdigits2 M - 1)) by (apply Z.pow_le_mono_r; lia).
  lia.
Qed.

Lemma Zdigits2_ge M d : 0 < d -> 2 ^ (d - 1) <= M -> d <= Zdigits2 M.
Proof.
  intros Hd Hge.
  assert (0 < M) as Hpos by (pose proof (Z.pow_pos_nonneg 2 (d - 1)); lia).
  destruct (Zdigits2_bounds M Hpos) as [_ Hhi].
  destruct (Z_le_gt_dec d (Zdigits2 M)) as [|Hgt]; [assumption|].
  exfalso.
  assert (2 ^ Zdigits2 M <= 2 ^ (d - 1))
    by (apply Z.pow_le_mono_r; pose proof (Zdigits2_nonneg M); lia).
  lia.
Qed.

Lemma Zdigits2_eq M d : 0 < d -> 2 ^ (d - 1) <= M < 2 ^ d -> Zdigits2 M = d.
Proof.
  intros Hd [Hlo Hhi].
  assert (0 < M) by (pose proof (Z.pow_pos_nonneg 2 (d - 1)); lia).
  pose proof (Zdigits2_le M d). pose proof (Zdigits2_ge M d). lia.
Qed.

(** Shifting left adds digits. *)
Lemma Zdigits2_shift M n : 0 < M -> 0 <= n -> Zdigits2 (M * 2 ^ n) = Zdigits2 M + n.
Proof.
  intros HM Hn. destruct (Zdigits2_bounds M HM) as [Hlo Hhi].
  pose proof (Zdigits2_pos M HM).
  apply Zdigits2_eq; [lia|].
  replace (Zdigits2 M + n - 1) with (Zdigits2 M - 1 + n) by lia.
  rewrite !Z.pow_add_r by lia.
  assert (0 < 2 ^ n) by (apply Z.pow_pos_nonneg; lia).
  split; nia.
Qed.

End Digits.

Section Shifts.

Lemma iter_pos_nat {A} (f : A -> A) p x :
  @SpecFloat.iter_pos A f p x = Nat.iter (Pos.to_nat p) f x.
Proof.
  revert x. induction p as [p IH|p IH|]; intros x; cbn [SpecFloat.iter_pos].
  - rewrite !IH. rewrite Pos2Nat.inj_xI. cbn [Nat.iter].
    rewrite <- Nat.iter_add. rewrite <- Nat.iter_succ_r.
    f_equal. lia.
  - rewrite !IH. rewrite Pos2Nat.inj_xO. rewrite <- Nat.iter_add.
    f_equal. lia.
  - reflexivity.
Qed.

Lemma shr_1_m r : 0 <= shr_m r -> shr_m (shr_1 r) = shr_m r / 2.
Proof.
  destruct r as [m b s]. cbn [shr_m]. intros Hm.
  destruct m as [|[p|p|]|p]; cbn [shr_1 shr_m]; try lia.
  - reflexivity.
  - rewrite Pos2Z.inj_xI. apply Z.div_unique with 1; lia.
  - rewrite Pos2Z.inj_xO. apply Z.div_unique with 0; lia.
  - reflexivity.
Qed.

Lemma shr_iter_m n r :
  0 <= shr_m r -> shr_m (Nat.iter n shr_1 r) = shr_m r / 2 ^ Z.of_nat n.
Proof.
  intros Hm. induction n as [|n IH].
  - cbn. rewrite Z.div_1_r. reflexivity.
  - change (Nat.iter (S n) shr_1 r) with (shr_1 (Nat.iter n shr_1 r)).
    rewrite shr_1_m.
    + rewrite IH. rewrite Nat2Z.inj_succ, Z.pow_succ_r by lia.
      rewrite Z.div_div by (try apply Z.pow_pos_nonneg; lia).
      f_equal. lia.
    + rewrite IH. apply Z.div_pos; [lia|apply Z.pow_pos_nonneg; lia].
Qed.

(** A shift that drops only zero bits leaves nothing to round. *)
Lemma shr_iter_exact n m :
  0 <= m -> m mod 2 ^ Z.of_nat n = 0 ->
  Nat.iter n shr_1 (Build_shr_record m false false)
  = Build_shr_record (m / 2 ^ Z.of_nat n) false false.
Proof.
  intros Hm. induction n as [|n IH]; intros Hdiv.
  - cbn. rewrite Z.div_1_r. reflexivity.
  - assert (Hp : 0 < 2 ^ Z.of_nat n) by (apply Z.pow_pos_nonneg; lia).
    rewrite Nat2Z.inj_succ, Z.pow_succ_r in Hdiv by lia.
    apply Z.mod_divide in Hdiv; [|lia]. destruct Hdiv as [k Hk].
    assert (Hm2 : m = (2 * k) * 2 ^ Z.of_nat n) by lia.
    assert (Hq : m mod 2 ^ Z.of_nat n = 0) by (rewrite Hm2; apply Z.mod_mul; lia).
    assert (E1 : m / 2 ^ Z.of_nat n = 2 * k) by (rewrite Hm2; apply Z.div_mul; lia).
    assert (E2 : m / 2 ^ Z.of_nat (S n) = k).
    { rewrite Nat2Z.inj_succ, Z.pow_succ_r by lia.
      rewrite Hk. apply Z.div_mul. lia. }
    change (Nat.iter (S n) shr_1 ?x) with (shr_1 (Nat.iter n shr_1 x)).
    rewrite IH by exact Hq. rewrite E1, E2.
    assert (0 <= k) by nia.
    destruct k as [|p|p]; [reflexivity|reflexivity|lia].
Qed.

End Shifts.

Section Rounding.

Local Abbreviation fexp := (SpecFloat.fexp prec emax).
Local Abbreviation bra := (binary_round_aux prec emax).

Ltac fexp_lia :=
  unfold SpecFloat.fexp, SpecFloat.emin, prec, emax in *; lia.

Lemma fexp_eq e : fexp e = Z.max (e - 53) (-1074).
Proof. reflexivity. Qed.

Lemma shr_nonpos mrs e n : n <= 0 -> shr mrs e n = (mrs, e).
Proof. destruct n; [reflexivity|lia|reflexivity]. Qed.

Lemma shr_pos_m mrs e n :
  0 < n -> 0 <= shr_m mrs ->
  shr_m (fst (shr mrs e n)) = shr_m mrs / 2 ^ n /\ snd (shr mrs e n) = e + n.
Proof.
  intros Hn Hm. destruct n as [|p|p]; try lia. cbn [shr fst snd].
  rewrite iter_pos_nat, shr_iter_m by exact Hm.
  rewrite positive_nat_Z. split; reflexivity.
Qed.

Lemma shr_pos_exact m e n :
  0 < n -> 0 <= m -> m mod 2 ^ n = 0 ->
  shr (Build_shr_record m false false) e n
  = (Build_shr_record (m / 2 ^ n) false false, e + n).
Proof.
  intros Hn Hm Hdiv. destruct n as [|p|p]; try lia. cbn [shr].
  rewrite iter_pos_nat.
  rewrite shr_iter_exact; rewrite ?positive_nat_Z; auto.
Qed.

(** Rounding a number that fits the format exactly returns it. *)
Lemma binary_round_aux_exact s M E :
  0 < M ->
  let n := Z.max 0 (fexp (Zdigits2 M + E) - E) in
  M mod 2 ^ n = 0 ->
  E + n <= 971 ->
  bra s M E loc_Exact = S754_finite s (Z.to_pos (M / 2 ^ n)) (E + n).
Proof.
  intros HM n Hdiv Hle.
  assert (Hn : 0 <= n) by (unfold n; lia).
  assert (Hp : 0 < 2 ^ n) by (apply Z.pow_pos_nonneg; lia).
  apply Z.mod_divide in Hdiv; [|lia]. destruct Hdiv as [M1 HM1].
  assert (HM1pos : 0 < M1) by nia.
  assert (EM1 : M / 2 ^ n = M1) by (rewrite HM1; apply Z.div_mul; lia).
  assert (Hdig : Zdigits2 M = Zdigits2 M1 + n)
    by (rewrite HM1; apply Zdigits2_shift; lia).
  assert (Hstage1 : shr_fexp prec emax M E loc_Exact
                    = (Build_shr_record M1 false false, E + n)).
  { unfold shr_fexp. cbn [shr_record_of_loc].
    destruct (Z_lt_le_dec 0 (fexp (Zdigits2 M + E) - E)) as [Hpos|Hnp].
    - rewrite shr_pos_exact; try lia.
      + replace n with (fexp (Zdigits2 M + E) - E) in * by (unfold n; lia).
        rewrite EM1. reflexivity.
      + replace (fexp (Zdigits2 M + E) - E) with n by (unfold n; lia).
        rewrite HM1. apply Z.mod_mul. lia.
    - rewrite shr_nonpos by exact Hnp.
      assert (n = 0) as Hn0 by (unfold n; lia).
      rewrite Hn0 in *. rewrite Z.pow_0_r in HM1.
      f_equal; [f_equal|]; lia. }
  assert (Hstage2 : shr_fexp prec emax M1 (E + n) loc_Exact
                    = (Build_shr_record M1 false false, E + n)).
  { unfold shr_fexp. cbn [shr_record_of_loc].
    apply shr_nonpos.
    replace (Zdigits2 M1 + (E + n)) with (Zdigits2 M + E) by lia.
    unfold n. fexp_lia. }
  unfold binary_round_aux. rewrite Hstage1.
  cbn [shr_m loc_of_shr_record round_nearest_even].
  rewrite Hstage2. cbn [shr_m]. rewrite EM1.
  destruct M1 as [|p|p]; try lia.
  change (emax - prec) with 971.
  destruct (Z.leb_spec (E + n) 971); [reflexivity|lia].
Qed.

Lemma round_nearest_even_bounds m l :
  m <= round_nearest_even m l <= m + 1.
Proof.
  destruct l as [|[| |]]; cbn; try lia. destruct (Z.even m); lia.
Qed.

Lemma shr_record_of_loc_m m l : shr_m (shr_record_of_loc m l) = m.
Proof. destruct l as [|[| |]]; reflexivity. Qed.

(** A number well below [2^1024] does not round to an infinity. *)
Lemma binary_round_aux_finite s M E l :
  0 <= M -> E <= 971 -> Zdigits2 M + E <= 1023 ->
  is_inf (bra s M E l) = false.
Proof.
  intros HM HE Hdig.
  unfold binary_round_aux.
  destruct (shr_fexp prec emax M E l) as [mrs1 e1] eqn:H1.
  assert (Hs1 : 0 <= shr_m mrs1 /\ e1 <= 971 /\ Zdigits2 (shr_m mrs1) + e1 <= 1023).
  { unfold shr_fexp in H1.
    destruct (Z_lt_le_dec 0 (fexp (Zdigits2 M + E) - E)) as [Hpos|Hnp].
    - pose proof (shr_pos_m (shr_record_of_loc M l) E _ Hpos) as Hm.
      rewrite shr_record_of_loc_m in Hm. specialize (Hm HM).
      rewrite H1 in Hm. cbn [fst snd] in Hm. destruct Hm as [Hm He].
      set (k := fexp (Zdigits2 M + E) - E) in *.
      assert (Hk : 0 < 2 ^ k) by (apply Z.pow_pos_nonneg; lia).
      assert (Hq : 0 <= M / 2 ^ k) by (apply Z.div_pos; lia).
      rewrite Hm. split; [exact Hq|]. split; [unfold k in *; fexp_lia|].
      destruct (Z_le_gt_dec k (Zdigits2 M)) as [Hkd|Hkd].
      + assert (Zdigits2 (M / 2 ^ k) <= Zdigits2 M - k); [|lia].
        apply Zdigits2_le; [exact Hq|lia|].
        apply Z.div_lt_upper_bound; [lia|].
        rewrite <- Z.pow_add_r by lia.
        replace (k + (Zdigits2 M - k)) with (Zdigits2 M) by lia.
        destruct (Z.eq_dec M 0) as [->|]; [apply Z.pow_pos_nonneg; cbn; lia|].
        apply Zdigits2_bounds. lia.
      + assert (M / 2 ^ k = 0) as ->.
        { apply Z.div_small. split; [lia|].
          destruct (Z.eq_dec M 0) as [->|]; [lia|].
          assert (M < 2 ^ Zdigits2 M) by (apply Zdigits2_bounds; lia).
          assert (2 ^ Zdigits2 M <= 2 ^ k)
            by (apply Z.pow_le_mono_r; pose proof (Zdigits2_nonneg M); lia).
          lia. }
        cbn [Zdigits2]. unfold k in *. fexp_lia.
    - rewrite shr_nonpos in H1 by exact Hnp. injection H1 as <- <-.
      rewrite shr_record_of_loc_m. lia. }
  destruct Hs1 as (Hm1 & He1 & Hd1).
  set (m1 := round_nearest_even (shr_m mrs1) (loc_of_shr_record mrs1)).
  pose proof (round_nearest_even_bounds (shr_m mrs1) (loc_of_shr_record mrs1)) as Hr.
  fold m1 in Hr.
  assert (Hd2 : Zdigits2 m1 <= Zdigits2 (shr_m mrs1) + 1).
  { apply Zdigits2_le; [lia|pose proof (Zdigits2_nonneg (shr_m mrs1)); lia|].
    rewrite Z.pow_add_r by (pose proof (Zdigits2_nonneg (shr_m mrs1)); lia).
    destruct (Z.eq_dec (shr_m mrs1) 0) as [E0|].
    - rewrite E0 in *. cbn. lia.
    - assert (shr_m mrs1 < 2 ^ Zdigits2 (shr_m mrs1))
        by (apply Zdigits2_bounds; lia).
      lia. }
  destruct (shr_fexp prec emax m1 e1 loc_Exact) as [mrs2 e2] eqn:H2.
  assert (Hs2 : 0 <= shr_m mrs2 /\ e2 <= 971).
  { unfold shr_fexp in H2. cbn [shr_record_of_loc] in H2.
    destruct (Z_lt_le_dec 0 (fexp (Zdigits2 m1 + e1) - e1)) as [Hpos|Hnp].
    - pose proof (shr_pos_m (Build_shr_record m1 false false) e1 _ Hpos) as Hm.
      cbn [shr_m] in Hm. specialize (Hm ltac:(lia)).
      rewrite H2 in Hm. cbn [fst snd] in Hm. destruct Hm as [Hm He].
      rewrite Hm, He. split.
      + apply Z.div_pos; [lia|apply Z.pow_pos_nonneg; lia].
      + fexp_lia.
    - rewrite shr_nonpos in H2 by exact Hnp. injection H2 as <- <-.
      cbn [shr_m]. lia. }
  destruct Hs2 as [Hm2 He2].
  destruct (shr_m mrs2) as [|p|p]; try reflexivity.
  change (emax - prec) with 971.
  destruct (Z.leb_spec e2 971); [reflexivity|lia].
Qed.

End Rounding.

Section HalfUp.

Local Abbreviation fexp := (SpecFloat.fexp prec emax).

Ltac fexp_lia' :=
  unfold SpecFloat.fexp, SpecFloat.emin, prec, emax in *; lia.

Lemma pos_iter_xO m d : Zpos (Pos.iter xO m d) = Zpos m * 2 ^ Zpos d.
Proof.
  induction d as [|d IH] using Pos.peano_ind.
  - cbn [Pos.iter]. rewrite Pos2Z.inj_xO. change (2 ^ 1) with 2. lia.
  - rewrite Pos.iter_succ, Pos2Z.inj_xO, IH.
    rewrite Pos2Z.inj_succ, Z.pow_succ_r by lia. lia.
Qed.

Lemma shl_align_fst m e e' :
  e' <= e -> Zpos (fst (shl_align m e e')) = Zpos m * 2 ^ (e - e').
Proof.
  intros Hle. unfold shl_align.
  destruct (e' - e) as [|d|d] eqn:E; cbn [fst]; try lia.
  - replace (e - e') with 0 by lia. lia.
  - rewrite pos_iter_xO. f_equal. f_equal. lia.
Qed.

(** A valid mantissa has at most 53 bits. *)
Lemma valid_mantissa m e :
  bounded prec emax m e = true -> Zpos m < 2 ^ 53 /\ e <= 971 /\ -1074 <= e.
Proof.
  unfold bounded, canonical_mantissa. intros H.
  apply andb_prop in H as [Hc He].
  apply Z.eqb_eq in Hc. apply Z.leb_le in He.
  change (Zpos (digits2_pos m)) with (Zdigits2 (Zpos m)) in Hc.
  assert (Hd : Zdigits2 (Zpos m) <= 53) by fexp_lia'.
  destruct (Zdigits2_bounds (Zpos m)) as [_ Hhi]; [lia|].
  assert (2 ^ Zdigits2 (Z.pos m) <= 2 ^ 53)
    by (apply Z.pow_le_mono_r; lia).
  split; [lia|]. split; [fexp_lia'|fexp_lia'].
Qed.

(** The sum of a multiple of [2^53] at exponent [-53] below [2^106] is the
    integer it stands for. *)
Lemma floor_normalize_int N :
  Z.abs N <= 2 ^ 52 ->
  math_floor (binary_normalize prec emax (N * 2 ^ 53) (-53) false) = Ok N.
Proof.
  intros HN.
  destruct (Z.eq_dec N 0) as [->|Hne]; [reflexivity|].
  set (A := Z.abs N).
  assert (HA : 0 < A) by (unfold A; lia).
  set (dk := Zdigits2 A).
  assert (Hdk : 0 < dk <= 53).
  { split; [apply Zdigits2_pos; lia|].
    apply Zdigits2_le; [lia|lia|]. change (2 ^ 53) with (2 * 2 ^ 52). lia. }
  assert (HS : 0 < A * 2 ^ 53) by lia.
  assert (HdS : Zdigits2 (A * 2 ^ 53) = dk + 53)
    by (apply Zdigits2_shift; lia).
  assert (Hround : forall s,
            binary_round prec emax s (Z.to_pos (A * 2 ^ 53)) (-53)
            = S754_finite s (Z.to_pos (A * 2 ^ (53 - dk))) (dk - 53)).
  { intros s. unfold binary_round.
    change (Zpos (digits2_pos (Z.to_pos (A * 2 ^ 53))))
      with (Zdigits2 (Zpos (Z.to_pos (A * 2 ^ 53)))).
    rewrite Z2Pos.id by lia. rewrite HdS.
    assert (Hf : fexp (dk + 53 + -53) = dk - 53) by fexp_lia'.
    rewrite Hf. unfold shl_align.
    destruct (dk - 53 - -53) as [|p|p] eqn:E; try lia.
    rewrite Z2Pos.id by lia.
    rewrite binary_round_aux_exact; try lia.
    - rewrite HdS, Hf.
      replace (Z.max 0 (dk - 53 - -53)) with dk by lia.
      f_equal; [|lia]. f_equal.
      replace 53 with ((53 - dk) + dk) at 1 by lia.
      rewrite Z.pow_add_r by lia. rewrite Z.mul_assoc.
      apply Z.div_mul. apply Z.pow_nonzero; lia.
    - rewrite HdS, Hf.
      replace (Z.max 0 (dk - 53 - -53)) with dk by lia.
      replace 53 with ((53 - dk) + dk) at 1 by lia.
      rewrite Z.pow_add_r by lia. rewrite Z.mul_assoc.
      apply Z.mod_mul. apply Z.pow_nonzero; lia.
    - rewrite HdS, Hf. lia. }
  assert (Hshift : Z.shiftl (A * 2 ^ (53 - dk)) (dk - 53) = A).
  { rewrite Z.shiftl_div_pow2 by lia.
    replace (- (dk - 53)) with (53 - dk) by lia.
    apply Z.div_mul. apply Z.pow_nonzero; lia. }
  assert (Hshiftn : Z.shiftl (- (A * 2 ^ (53 - dk))) (dk - 53) = - A).
  { rewrite Z.shiftl_div_pow2 by lia.
    replace (- (dk - 53)) with (53 - dk) by lia.
    rewrite <- Z.mul_opp_l.
    apply Z.div_mul. apply Z.pow_nonzero; lia. }
  assert (Hp : 0 < A * 2 ^ (53 - dk)).
  { apply Z.mul_pos_pos; [lia|apply Z.pow_pos_nonneg; lia]. }
  destruct N as [|p|p]; [lia| |].
  - (* positive *)
    change (Z.pos p * 2 ^ 53) with (Zpos (p * 2 ^ 53)).
    cbn [binary_normalize].
    replace (p * 2 ^ 53)%positive with (Z.to_pos (A * 2 ^ 53))
      by (unfold A; cbn; lia).
    rewrite Hround. cbn [math_floor cond_Zopp].
    rewrite Z2Pos.id by lia. rewrite Hshift. reflexivity.
  - change (Z.neg p * 2 ^ 53) with (Zneg (p * 2 ^ 53)).
    cbn [binary_normalize].
    replace (p * 2 ^ 53)%positive with (Z.to_pos (A * 2 ^ 53))
      by (unfold A; cbn; lia).
    rewrite Hround. cbn [math_floor cond_Zopp].
    rewrite Z2Pos.id by lia. rewrite Hshiftn. unfold A. cbn. reflexivity.
Qed.

(** Adding [0.5] to a float that is exactly [k + 1/2] and taking the floor
    gives [k + 1]: the sum is exact. *)
Lemma floor_add_half (x : float) (k : Z) :
  valid_binary prec emax x = true ->
  half_integer x k ->
  math_floor (fadd x float_0_5) = Ok (k + 1).
Proof.
  intros Hvalid Hhalf.
  destruct x as [| | |s m e]; try contradiction.
  cbn [valid_binary] in Hvalid. cbn [half_integer] in Hhalf.
  destruct Hhalf as [He Hval].
  destruct (valid_mantissa m e Hvalid) as (Hm & _ & _).
  set (M := cond_Zopp s (Zpos m)) in *.
  assert (HabsM : Z.abs M = Zpos m) by (unfold M; destruct s; cbn; lia).
  assert (Hpow : 0 < 2 ^ (- e)) by (apply Z.pow_pos_nonneg; lia).
  (* the exponent is at least -53 *)
  assert (Hge : -53 <= e).
  { destruct (Z_le_gt_dec (-53) e) as [|Hlt]; [assumption|exfalso].
    assert (2 ^ 54 <= 2 ^ (- e)) by (apply Z.pow_le_mono_r; lia).
    assert (1 <= Z.abs (2 * k + 1)) by lia.
    assert (Z.abs (2 * M) = Z.abs (2 * k + 1) * 2 ^ (- e))
      by (rewrite Hval, Z.abs_mul, (Z.abs_eq (2 ^ (- e))); lia).
    change (2 ^ 54) with (2 * 2 ^ 53) in *. nia. }
  unfold fadd, SFadd, float_0_5.
  replace (Z.min e (-53)) with (-53) by lia.
  assert (Hx : Zpos (fst (shl_align m e (-53))) = Zpos m * 2 ^ (e + 53)).
  { rewrite shl_align_fst by lia. reflexivity. }
  rewrite Hx.
  change (Zpos (fst (shl_align 4503599627370496 (-53) (-53)))) with (2 ^ 52).
  change (cond_Zopp false (2 ^ 52)) with (2 ^ 52).
  assert (Hsum : cond_Zopp s (Zpos m * 2 ^ (e + 53)) + 2 ^ 52 = (k + 1) * 2 ^ 53).
  { assert (HM : cond_Zopp s (Zpos m * 2 ^ (e + 53)) = M * 2 ^ (e + 53))
      by (unfold M; destruct s; cbn [cond_Zopp]; lia).
    rewrite HM.
    assert (H2 : 2 * (M * 2 ^ (e + 53)) = (2 * k + 1) * 2 ^ 53).
    { replace (2 * (M * 2 ^ (e + 53))) with ((2 * M) * 2 ^ (e + 53)) by lia.
      rewrite Hval. rewrite <- Z.mul_assoc, <- Z.pow_add_r by lia.
      f_equal. f_equal. lia. }
    change (2 ^ 53) with (2 * 2 ^ 52) in *. lia. }
  rewrite Hsum.
  apply floor_normalize_int.
  (* |k + 1| <= 2^52 *)
  assert (Hb : Z.abs (2 * k + 1) * 2 ^ (- e) < 2 * 2 ^ 53).
  { replace (Z.abs (2 * k + 1) * 2 ^ (- e)) with (Z.abs (2 * M)).
    - rewrite Z.abs_mul. cbn [Z.abs]. lia.
    - rewrite Hval, Z.abs_mul, (Z.abs_eq (2 ^ (- e))); lia. }
  assert (2 <= 2 ^ (- e)).
  { change 2 with (2 ^ 1) at 1. apply Z.pow_le_mono_r; lia. }
  change (2 ^ 53) with (2 * 2 ^ 52) in Hb.
  assert (Z.abs (2 * k + 1) < 2 * 2 ^ 52) by nia. lia.
Qed.

End HalfUp.

Section RoundTotal.

Local Abbreviation fexp := (SpecFloat.fexp prec emax).

Ltac fexp_lia'' :=
  unfold SpecFloat.fexp, SpecFloat.emin, prec, emax in *; lia.

(** What the division of [spec_float] computes from two integer
    mantissas at exponent zero. *)
Lemma SFdiv_core_spec (p U : positive) :
  exists k, 0 <= k /\
    SFdiv_core_binary prec emax (Zpos p) 0 (Zpos U) 0
    = ((Zpos p * 2 ^ k) / Zpos U, - k,
       new_location (Zpos U) ((Zpos p * 2 ^ k) mod Zpos U)).
Proof.
  unfold SFdiv_core_binary.
  set (e' := Z.min (fexp (Zdigits2 (Zpos p) + 0 - (Zdigits2 (Zpos U) + 0))) (0 - 0)).
  assert (He' : e' <= 0) by (unfold e'; lia).
  exists (- e'). split; [lia|].
  replace (0 - 0 - e') with (- e') by lia.
  assert (Hm : match - e' with
               | Z0 => Zpos p
               | Zpos _ => Z.shiftl (Zpos p) (- e')
               | Zneg _ => 0
               end = Zpos p * 2 ^ (- e')).
  { destruct (- e') as [|q|q] eqn:E; try lia.
    rewrite Z.shiftl_mul_pow2 by lia. reflexivity. }
  rewrite Hm. unfold Z.div, Z.modulo.
  destruct (Z.div_eucl (Z.pos p * 2 ^ (- e')) (Z.pos U)) as [q r].
  rewrite Z.opp_involutive. reflexivity.
Qed.

Lemma new_location_0 U : new_location U 0 = loc_Exact.
Proof.
  unfold new_location, new_location_even, new_location_odd.
  destruct (Z.even U); reflexivity.
Qed.

(** A quotient far below the overflow threshold is finite. *)
Lemma ratio_to_float_small s (p U : positive) :
  Zpos p < 2 ^ 1000 * Zpos U ->
  is_inf (ratio_to_float s p U) = false.
Proof.
  intros Hsmall. unfold ratio_to_float, fdiv, SFdiv.
  destruct (SFdiv_core_spec p U) as (k & Hk & ->).
  assert (Hpk : 0 < 2 ^ k) by (apply Z.pow_pos_nonneg; lia).
  set (q := Z.pos p * 2 ^ k / Z.pos U).
  assert (Hq0 : 0 <= q) by (apply Z.div_pos; lia).
  assert (Hq : q < 2 ^ (1000 + k)).
  { apply Z.div_lt_upper_bound; [lia|].
    rewrite Z.pow_add_r by lia. nia. }
  apply binary_round_aux_finite; [exact Hq0|lia|].
  assert (Zdigits2 q <= 1000 + k) by (apply Zdigits2_le; lia).
  lia.
Qed.

(** The quotient of [m * 2^e * U] by [U] is the float [m * 2^e]. *)
Lemma ratio_to_float_exact s (m U : positive) e :
  bounded prec emax m e = true -> 0 <= e ->
  ratio_to_float s (Z.to_pos (Zpos m * 2 ^ e * Zpos U)) U = S754_finite s m e.
Proof.
  intros Hb He.
  assert (Hpe : 0 < 2 ^ e) by (apply Z.pow_pos_nonneg; lia).
  assert (Hdm : Zdigits2 (Zpos m) = 53).
  { unfold bounded, canonical_mantissa in Hb.
    apply andb_prop in Hb as [Hc _]. apply Z.eqb_eq in Hc.
    change (Zpos (digits2_pos m)) with (Zdigits2 (Zpos m)) in Hc.
    fexp_lia''. }
  assert (Hle : e <= 971).
  { unfold bounded in Hb. apply andb_prop in Hb as [_ Hl].
    apply Z.leb_le in Hl. exact Hl. }
  unfold ratio_to_float, fdiv, SFdiv.
  destruct (SFdiv_core_spec (Z.to_pos (Z.pos m * 2 ^ e * Z.pos U)) U)
    as (k & Hk & ->).
  assert (Hpk : 0 < 2 ^ k) by (apply Z.pow_pos_nonneg; lia).
  rewrite Z2Pos.id by nia.
  replace (Z.pos m * 2 ^ e * Z.pos U * 2 ^ k)
    with ((Z.pos m * 2 ^ (e + k)) * Z.pos U)
    by (rewrite Z.pow_add_r by lia; lia).
  rewrite Z.div_mul, Z.mod_mul by lia.
  rewrite new_location_0. rewrite xorb_false_r.
  assert (Hd : Zdigits2 (Z.pos m * 2 ^ (e + k)) = 53 + (e + k))
    by (rewrite Zdigits2_shift by lia; lia).
  assert (Hpek : 0 < 2 ^ (e + k)) by (apply Z.pow_pos_nonneg; lia).
  rewrite binary_round_aux_exact; rewrite ?Hd.
  - assert (Hn : Z.max 0 (fexp (53 + (e + k) + - k) - - k) = e + k) by fexp_lia''.
    rewrite Hn. rewrite Z.div_mul by lia.
    f_equal. lia.
  - lia.
  - assert (Hn : Z.max 0 (fexp (53 + (e + k) + - k) - - k) = e + k) by fexp_lia''.
    rewrite Hn. apply Z.mod_mul. lia.
  - fexp_lia''.
Qed.

Lemma div_half_even_bounds n d :
  0 <= n -> 0 < d -> 0 <= div_half_even n d /\ div_half_even n d * d <= n + d.
Proof.
  intros Hn Hd. unfold div_half_even.
  pose proof (Z.div_mod n d ltac:(lia)) as Hdm.
  pose proof (Z.mod_pos_bound n d Hd) as Hr.
  assert (0 <= n / d) by (apply Z.div_pos; lia).
  destruct (2 * (n mod d) ?= d); [destruct (Z.even (n / d))| |]; nia.
Qed.

Lemma div_half_even_exact n : div_half_even n 1 = n.
Proof.
  unfold div_half_even. rewrite Z.mod_1_r, Z.div_1_r. reflexivity.
Qed.

(** Rounding a valid float to a non-negative number of decimal places
    always returns. *)
Lemma py_round_total (x : float) (n : Z) :
  valid_binary prec emax x = true -> 0 <= n ->
  exists r, py_round x n = Ok r.
Proof.
  intros Hvalid Hn.
  destruct x as [s|s| |s m e]; try (eexists; reflexivity).
  cbn [valid_binary] in Hvalid. unfold py_round.
  destruct (323 <? n); [eexists; reflexivity|].
  destruct (Z.ltb_spec n (-308)); [lia|].
  replace (Z.max (- n) 0) with 0 by lia.
  replace (Z.max n 0) with n by lia.
  change (10 ^ 0) with 1. rewrite !Z.mul_1_r.
  assert (HU : 0 < 10 ^ n) by (apply Z.pow_pos_nonneg; lia).
  set (U := Z.to_pos (10 ^ n)).
  assert (HUz : Zpos U = 10 ^ n) by (unfold U; rewrite Z2Pos.id; lia).
  rewrite <- HUz.
  match goal with
  | |- exists r, (if is_inf ?f then _ else _) = _ =>
      assert (Hfin : is_inf f = false); [|rewrite Hfin; eexists; reflexivity]
  end.
  destruct (Z_le_gt_dec 0 e) as [Hpos|Hneg].
  - (* an integer: the quotient is exact *)
    unfold dyadic_num, dyadic_den.
    replace (Z.max e 0) with e by lia. replace (Z.max (- e) 0) with 0 by lia.
    change (2 ^ 0) with 1. rewrite div_half_even_exact.
    assert (Hp : 0 < Z.pos m * 2 ^ e * Z.pos U).
    { assert (0 < 2 ^ e) by (apply Z.pow_pos_nonneg; lia). nia. }
    unfold signed_ratio_to_float.
    pose proof (ratio_to_float_exact s m U e Hvalid Hpos) as Hex.
    destruct (Z.pos m * 2 ^ e * Z.pos U) as [|p|p]; try lia.
    cbn [Z.to_pos] in Hex. rewrite Hex. reflexivity.
  - (* below 2^53: far from overflow *)
    destruct (valid_mantissa m e Hvalid) as (Hm & _ & _).
    unfold dyadic_num, dyadic_den.
    replace (Z.max e 0) with 0 by lia. replace (Z.max (- e) 0) with (- e) by lia.
    change (2 ^ 0) with 1. rewrite Z.mul_1_r.
    assert (Hpe : 2 <= 2 ^ (- e)).
    { change 2 with (2 ^ 1) at 1. apply Z.pow_le_mono_r; lia. }
    destruct (div_half_even_bounds (Z.pos m * Z.pos U) (2 ^ (- e)))
      as [Ht0 Ht]; [lia|lia|].
    set (t := div_half_even (Z.pos m * Z.pos U) (2 ^ (- e))) in *.
    unfold signed_ratio_to_float.
    destruct t as [|p|p] eqn:Et; try reflexivity.
    apply ratio_to_float_small.
    assert (2 ^ 53 < 2 ^ 1000) by (apply Z.pow_lt_mono_r; lia).
    assert (Z.pos p * 2 <= Z.pos m * Z.pos U + 2 ^ (- e)) by nia.
    assert (2 ^ (- e) <= 2 ^ (- e) * Z.pos U) by nia.
    assert (Z.pos p * 2 ^ (- e) <= (Z.pos m + 1) * Z.pos U * 2 ^ (- e)) by nia.
    assert (Z.pos p <= (Z.pos m + 1) * Z.pos U) by nia.
    nia.
Qed.

End RoundTotal.

Section NearestEven.

Local Abbreviation fexp := (SpecFloat.fexp prec emax).
Local Abbreviation bra := (binary_round_aux prec emax).

Lemma shr_1_spec m r s :
  0 <= m ->
  shr_1 (Build_shr_record m r s) = Build_shr_record (m / 2) (Z.odd m) (r || s).
Proof.
  intros Hm. destruct m as [|[p|p|]|p]; cbn [shr_1 Z.odd]; try lia.
  - reflexivity.
  - f_equal. rewrite Pos2Z.inj_xI. apply Z.div_unique with 1; lia.
  - f_equal. rewrite Pos2Z.inj_xO. apply Z.div_unique with 0; lia.
  - reflexivity.
Qed.

(** What is left after shifting [n + 1] bits out of [M]: the quotient, the
    last bit shifted out, and whether a lower bit was set. *)
Lemma shr_iter_spec n M :
  0 <= M ->
  Nat.iter (S n) shr_1 (Build_shr_record M false false)
  = Build_shr_record (M / 2 ^ Z.of_nat (S n)) (Z.odd (M / 2 ^ Z.of_nat n))
      (negb (M mod 2 ^ Z.of_nat n =? 0)).
Proof.
  intros HM. induction n as [|n IH].
  - cbn [Nat.iter]. rewrite shr_1_spec by exact HM.
    change (2 ^ Z.of_nat 1) with 2. change (2 ^ Z.of_nat 0) with 1.
    rewrite Z.div_1_r, Z.mod_1_r. reflexivity.
  - change (Nat.iter (S (S n)) shr_1 ?x) with (shr_1 (Nat.iter (S n) shr_1 x)).
    rewrite IH.
    assert (Hp : 0 < 2 ^ Z.of_nat n) by (apply Z.pow_pos_nonneg; lia).
    assert (Hp1 : 2 ^ Z.of_nat (S n) = 2 ^ Z.of_nat n * 2)
      by (rewrite Nat2Z.inj_succ, Z.pow_succ_r by lia; lia).
    assert (Hp2 : 2 ^ Z.of_nat (S (S n)) = 2 ^ Z.of_nat (S n) * 2)
      by (rewrite (Nat2Z.inj_succ (S n)), Z.pow_succ_r by lia; lia).
    rewrite shr_1_spec by (apply Z.div_pos; lia).
    f_equal.
    + rewrite Hp2. rewrite Z.div_div by lia. reflexivity.
    + rewrite Hp1. rewrite Z.rem_mul_r by lia.
      rewrite Zmod_odd.
      pose proof (Z.mod_pos_bound M (2 ^ Z.of_nat n) Hp) as Hb.
      destruct (Z.odd (M / 2 ^ Z.of_nat n)); cbn [orb].
      * symmetry. apply negb_true_iff. apply Z.eqb_neq. lia.
      * rewrite Z.mul_0_r, Z.add_0_r. reflexivity.
Qed.

(** Shifting and rounding to nearest, ties to even, is [div_half_even]. *)
Lemma round_shr_spec M e k :
  0 <= M -> 0 < k ->
  let r := fst (shr (Build_shr_record M false false) e k) in
  round_nearest_even (shr_m r) (loc_of_shr_record r) = div_half_even M (2 ^ k) /\
  snd (shr (Build_shr_record M false false) e k) = e + k.
Proof.
  intros HM Hk. destruct k as [|p|p]; try lia. cbn [shr fst snd].
  split; [|reflexivity].
  rewrite iter_pos_nat.
  destruct (Pos2Nat.is_succ p) as [n Hn]. rewrite Hn.
  rewrite shr_iter_spec by exact HM.
  assert (Hpn : Zpos p = Z.of_nat n + 1) by lia.
  rewrite Hpn.
  assert (Hp : 0 < 2 ^ Z.of_nat n) by (apply Z.pow_pos_nonneg; lia).
  assert (Hp1 : 2 ^ (Z.of_nat n + 1) = 2 ^ Z.of_nat n * 2)
    by (rewrite Z.pow_add_r by lia; reflexivity).
  replace (Z.of_nat (S n)) with (Z.of_nat n + 1) by lia.
  unfold div_half_even.
  set (q := M / 2 ^ (Z.of_nat n + 1)).
  assert (Hrm : M mod 2 ^ (Z.of_nat n + 1)
                = M mod 2 ^ Z.of_nat n + 2 ^ Z.of_nat n * (if Z.odd (M / 2 ^ Z.of_nat n) then 1 else 0)).
  { rewrite Hp1. rewrite Z.rem_mul_r by lia. rewrite Zmod_odd. reflexivity. }
  rewrite Hrm. rewrite Hp1.
  pose proof (Z.mod_pos_bound M (2 ^ Z.of_nat n) Hp) as Hb.
  cbn [shr_m loc_of_shr_record].
  destruct (Z.odd (M / 2 ^ Z.of_nat n)).
  - destruct (Z.eqb_spec (M mod 2 ^ Z.of_nat n) 0) as [E0|Hne]; cbn [negb].
    + rewrite E0. cbn [round_nearest_even].
      replace (2 * (0 + 2 ^ Z.of_nat n * 1) ?= 2 ^ Z.of_nat n * 2) with Eq
        by (symmetry; apply Z.compare_eq_iff; lia).
      reflexivity.
    + cbn [round_nearest_even].
      replace (2 * (M mod 2 ^ Z.of_nat n + 2 ^ Z.of_nat n * 1) ?= 2 ^ Z.of_nat n * 2)
        with Gt by (symmetry; apply Z.compare_gt_iff; lia).
      reflexivity.
  - replace (2 * (M mod 2 ^ Z.of_nat n + 2 ^ Z.of_nat n * 0) ?= 2 ^ Z.of_nat n * 2)
      with Lt by (symmetry; apply Z.compare_lt_iff; lia).
    destruct (negb _); reflexivity.
Qed.

(** The quotient nearest to [n / d] is within half a unit of it. *)
Lemma div_half_even_spec n d :
  0 < d ->
  let t := div_half_even n d in
  2 * Z.abs (t * d - n) <= d /\ n / d <= t <= n / d + 1.
Proof.
  intros Hd. unfold div_half_even. cbv zeta.
  pose proof (Z.div_mod n d ltac:(lia)) as Hdm.
  pose proof (Z.mod_pos_bound n d Hd) as Hr.
  set (q := n / d) in *. set (r := n mod d) in *. clearbody q r.
  assert (Hqd : q * d = d * q) by apply Z.mul_comm.
  assert (Hq1 : (q + 1) * d = d * q + d) by (rewrite Z.mul_add_distr_r; lia).
  destruct (Z.compare_spec (2 * r) d) as [C|C|C].
  - destruct (Z.even q); rewrite ?Hq1, ?Hqd; split; lia.
  - rewrite ?Hq1, ?Hqd; split; lia.
  - rewrite ?Hq1, ?Hqd; split; lia.
Qed.

(** The integer strictly nearest to [n / d] is what [div_half_even] gives. *)
Lemma div_half_even_near n d q :
  0 < d -> 2 * Z.abs (q * d - n) < d -> div_half_even n d = q.
Proof.
  intros Hd Hq. unfold div_half_even.
  pose proof (Z.div_mod n d ltac:(lia)) as Hdm.
  pose proof (Z.mod_pos_bound n d Hd) as Hr.
  set (q0 := n / d) in *. set (r := n mod d) in *. clearbody q0 r.
  subst n.
  assert (Hcases : q = q0 \/ q = q0 + 1).
  { assert (-1 < q - q0 < 2); [|lia]. split; nia. }
  destruct (Z.compare_spec (2 * r) d) as [C|C|C].
  - exfalso. destruct Hcases; subst q; nia.
  - destruct Hcases; subst q; [reflexivity|exfalso; nia].
  - destruct Hcases; subst q; [exfalso; nia|reflexivity].
Qed.

(** On a tie the even neighbour is taken. *)
Lemma div_half_even_tie n d q :
  0 < d -> 2 * n = (2 * q + 1) * d ->
  div_half_even n d = if Z.even q then q else q + 1.
Proof.
  intros Hd Hq. unfold div_half_even.
  pose proof (Z.div_mod n d ltac:(lia)) as Hdm.
  pose proof (Z.mod_pos_bound n d Hd) as Hr.
  assert (Hqq : n / d = q) by nia.
  rewrite Hqq in *.
  replace (2 * (n mod d) ?= d) with Eq; [reflexivity|].
  symmetry. apply Z.compare_eq_iff. nia.
Qed.

Lemma div_half_even_exact_mul q d : 0 < d -> div_half_even (q * d) d = q.
Proof. intros Hd. apply div_half_even_near; [exact Hd|]. replace (q * d - q * d) with 0 by lia. cbn. lia. Qed.

(** Rounding an integer mantissa to the format: the result is the nearest
    multiple of the unit in the last place, carried to the next exponent
    when the mantissa overflows. *)
Lemma bra_nearest s M E :
  0 < M ->
  let k := Z.max 0 (fexp (Zdigits2 M + E) - E) in
  let t := div_half_even M (2 ^ k) in
  bra s M E loc_Exact =
    if t =? 0 then S754_zero s
    else if t <? 2 ^ 53 then
      if E + k <=? 971 then S754_finite s (Z.to_pos t) (E + k) else S754_infinity s
    else
      if E + k + 1 <=? 971 then S754_finite s (2 ^ 52)%positive (E + k + 1)
      else S754_infinity s.
Proof.
  intros HM k t.
  assert (Hk0 : 0 <= k) by (unfold k; lia).
  assert (Hpk : 0 < 2 ^ k) by (apply Z.pow_pos_nonneg; lia).
  pose proof (Zdigits2_bounds M HM) as [Hdlo Hdhi].
  pose proof (Zdigits2_pos M HM) as Hdpos.
  set (d := Zdigits2 M) in *.
  assert (Hfk : -1074 <= E + k /\ d - 53 <= k).
  { unfold k, SpecFloat.fexp, SpecFloat.emin, prec, emax. lia. }
  destruct Hfk as [Hf Hdk].
  (* the quotient has at most 53 bits *)
  assert (Hq : 0 <= M / 2 ^ k < 2 ^ 53).
  { split; [apply Z.div_pos; lia|].
    apply Z.div_lt_upper_bound; [lia|].
    rewrite <- Z.pow_add_r by lia.
    assert (2 ^ d <= 2 ^ (k + 53)) by (apply Z.pow_le_mono_r; lia). lia. }
  pose proof (div_half_even_spec M (2 ^ k) Hpk) as [_ Ht]. fold t in Ht.
  assert (Hstage1 : exists mrs,
            shr_fexp prec emax M E loc_Exact = (mrs, E + k) /\
            round_nearest_even (shr_m mrs) (loc_of_shr_record mrs) = t).
  { unfold shr_fexp. cbn [shr_record_of_loc]. fold d.
    destruct (Z_lt_le_dec 0 (fexp (d + E) - E)) as [Hpos|Hnp].
    - pose proof (round_shr_spec M E _ ltac:(lia) Hpos) as [Hr He].
      destruct (shr _ E (fexp (d + E) - E)) as [mrs e1] eqn:Hs.
      cbn [fst snd] in Hr, He. exists mrs. split.
      + f_equal. rewrite He. unfold k. lia.
      + rewrite Hr. unfold t, k. f_equal. f_equal. lia.
    - rewrite shr_nonpos by exact Hnp. eexists. split.
      + f_equal. unfold k. lia.
      + cbn. unfold t, k. replace (Z.max 0 (fexp (d + E) - E)) with 0 by lia.
        rewrite div_half_even_exact. reflexivity. }
  destruct Hstage1 as (mrs & Hs1 & Hr1).
  unfold binary_round_aux. rewrite Hs1, Hr1.
  destruct (Z.eqb_spec t 0) as [Et|Hne].
  - rewrite Et. unfold shr_fexp. cbn [shr_record_of_loc Zdigits2].
    rewrite shr_nonpos; [reflexivity|].
    unfold SpecFloat.fexp, SpecFloat.emin, prec, emax. lia.
  - assert (Htpos : 0 < t) by lia.
    destruct (Z.ltb_spec t (2 ^ 53)) as [Hlt|Hge].
    + assert (Hdt : Zdigits2 t <= 53) by (apply Zdigits2_le; lia).
      unfold shr_fexp. cbn [shr_record_of_loc].
      rewrite shr_nonpos.
      * cbn [shr_m]. destruct t as [|p|p]; try lia.
        change (emax - prec) with 971. reflexivity.
      * unfold SpecFloat.fexp, SpecFloat.emin, prec, emax. lia.
    + assert (Et : t = 2 ^ 53) by lia.
      rewrite Et. unfold shr_fexp. cbn [shr_record_of_loc].
      change (Zdigits2 (2 ^ 53)) with 54.
      replace (fexp (54 + (E + k)) - (E + k)) with 1
        by (unfold SpecFloat.fexp, SpecFloat.emin, prec, emax; lia).
      cbn [shr SpecFloat.iter_pos shr_1 shr_m].
      change (emax - prec) with 971.
      change (2 ^ 53) with 9007199254740992. cbn [shr_1 shr_m]. reflexivity.
Qed.

(** The floor of the rounded number. *)
Lemma floor_bra s M E :
  0 < M ->
  let k := Z.max 0 (fexp (Zdigits2 M + E) - E) in
  let t := div_half_even M (2 ^ k) in
  E + k <= 970 \/ (t < 2 ^ 53 /\ E + k <= 971) ->
  math_floor (bra s M E loc_Exact) = Ok (Z.shiftl (cond_Zopp s t) (E + k)).
Proof.
  intros HM k t Hov. rewrite (bra_nearest s M E HM). fold k. fold t.
  assert (Hpk : 0 < 2 ^ k) by (apply Z.pow_pos_nonneg; unfold k; lia).
  pose proof (div_half_even_spec M (2 ^ k) Hpk) as [_ Ht]. fold t in Ht.
  assert (0 <= M / 2 ^ k) by (apply Z.div_pos; lia).
  destruct (Z.eqb_spec t 0) as [Et|Hne].
  - rewrite Et. destruct s; cbn [math_floor cond_Zopp Z.opp];
      rewrite Z.shiftl_0_l; reflexivity.
  - destruct (Z.ltb_spec t (2 ^ 53)) as [Hlt|Hge].
    + destruct (Z.leb_spec (E + k) 971); [|lia].
      cbn [math_floor]. rewrite Z2Pos.id by lia. reflexivity.
    + destruct (Z.leb_spec (E + k + 1) 971); [|lia].
      cbn [math_floor].
      assert (Et : t = 2 ^ 53).
      { assert (M / 2 ^ k < 2 ^ 53); [|lia].
        pose proof (Zdigits2_bounds M HM) as [_ Hdhi].
        apply Z.div_lt_upper_bound; [lia|].
        rewrite <- Z.pow_add_r by (unfold k; lia).
        assert (2 ^ Zdigits2 M <= 2 ^ (k + 53)); [|lia].
        apply Z.pow_le_mono_r; [lia|].
        unfold k, SpecFloat.fexp, SpecFloat.emin, prec, emax. lia. }
      rewrite Et. f_equal.
      replace (cond_Zopp s (2 ^ 53)) with (Z.shiftl (cond_Zopp s (Z.pos (2 ^ 52))) 1)
        by (destruct s; reflexivity).
      rewrite Z.shiftl_shiftl by lia. f_equal. lia.
Qed.

(** The floor of a normalized sum [S * 2^ez]. *)
Lemma floor_normalize S ez :
  let A := Z.abs S in
  let k := Z.max 0 (fexp (Zdigits2 A + ez) - ez) in
  let t := div_half_even A (2 ^ k) in
  ez + k <= 970 \/ (t < 2 ^ 53 /\ ez + k <= 971) ->
  math_floor (binary_normalize prec emax S ez false)
    = Ok (Z.shiftl (Z.sgn S * t) (ez + k)).
Proof.
  intros A k t Hov.
  assert (Hgen : forall (s : bool) (p : positive), A = Zpos p ->
            math_floor (binary_round prec emax s p ez)
            = Ok (Z.shiftl (cond_Zopp s t) (ez + k))).
  { intros s p HA. unfold binary_round.
    change (Zpos (digits2_pos p)) with (Zdigits2 (Zpos p)). rewrite <- HA.
    pose proof (floor_bra s A ez ltac:(lia) Hov) as Hfb.
    set (f := fexp (Zdigits2 A + ez)) in *.
    unfold shl_align.
    destruct (f - ez) as [|q|q] eqn:Ef.
    - rewrite <- HA. exact Hfb.
    - rewrite <- HA. exact Hfb.
    - rewrite pos_iter_xO. rewrite <- HA.
      assert (Hq : Z.pos q = ez - f) by lia.
      assert (Hpq : 0 < 2 ^ Z.pos q) by (apply Z.pow_pos_nonneg; lia).
      assert (HAq : 0 < A * 2 ^ Z.pos q) by nia.
      assert (k = 0) as Hk0 by (unfold k; lia).
      assert (Hd : Zdigits2 (A * 2 ^ Z.pos q) + f = Zdigits2 A + ez)
        by (rewrite Zdigits2_shift by lia; lia).
      rewrite floor_bra; rewrite ?Hd; fold f.
      + replace (Z.max 0 (f - f)) with 0 by lia.
        change (2 ^ 0) with 1. rewrite div_half_even_exact.
        f_equal. unfold t. rewrite Hk0. change (2 ^ 0) with 1.
        rewrite div_half_even_exact.
        replace (cond_Zopp s (A * 2 ^ Z.pos q))
          with (Z.shiftl (cond_Zopp s A) (Z.pos q))
          by (rewrite Z.shiftl_mul_pow2 by lia; destruct s; cbn [cond_Zopp]; lia).
        rewrite Z.shiftl_shiftl by lia. f_equal. lia.
      + exact HAq.
      + left. lia. }
  destruct S as [|p|p].
  - cbn [binary_normalize math_floor Z.sgn]. rewrite Z.mul_0_l, Z.shiftl_0_l. reflexivity.
  - cbn [binary_normalize]. rewrite (Hgen false p eq_refl).
    cbn [cond_Zopp Z.sgn]. rewrite Z.mul_1_l. reflexivity.
  - cbn [binary_normalize]. rewrite (Hgen true p eq_refl).
    cbn [cond_Zopp Z.sgn]. reflexivity.
Qed.

End NearestEven.

Section HalfUpAll.

Local Abbreviation fexp := (SpecFloat.fexp prec emax).

Lemma round_shift A j ez :
  0 <= j -> -1074 <= ez -> 2 ^ (52 + j) <= A < 2 ^ (53 + j) ->
  Z.max 0 (fexp (Zdigits2 A + ez) - ez) = j.
Proof.
  intros Hj Hez HA.
  rewrite (Zdigits2_eq A (53 + j)); [|lia|].
  - unfold SpecFloat.fexp, SpecFloat.emin, prec, emax. lia.
  - replace (53 + j - 1) with (52 + j) by lia. exact HA.
Qed.

Lemma round_shift_le A j ez :
  0 <= j -> -1074 <= ez -> 0 <= A < 2 ^ (53 + j) ->
  0 <= Z.max 0 (fexp (Zdigits2 A + ez) - ez) <= j.
Proof.
  intros Hj Hez HA.
  assert (Zdigits2 A <= 53 + j) by (apply Zdigits2_le; lia).
  unfold SpecFloat.fexp, SpecFloat.emin, prec, emax. lia.
Qed.

(** The sum [S * 2^ez] when [|S|] has [53 + j] bits. *)
Lemma floor_normalize_bits S ez j t :
  -1074 <= ez -> 0 <= j -> 2 ^ (52 + j) <= Z.abs S < 2 ^ (53 + j) ->
  div_half_even (Z.abs S) (2 ^ j) = t ->
  ez + j <= 970 \/ (t < 2 ^ 53 /\ ez + j <= 971) ->
  math_floor (binary_normalize prec emax S ez false)
    = Ok (Z.shiftl (Z.sgn S * t) (ez + j)).
Proof.
  intros Hez Hj HA Ht Hov.
  pose proof (floor_normalize S ez) as H. cbv zeta in H.
  rewrite (round_shift (Z.abs S) j ez Hj Hez HA) in H.
  rewrite Ht in H. exact (H Hov).
Qed.

(** A sum that fits the format is not rounded. *)
Lemma floor_normalize_exact S ez j :
  -1074 <= ez -> 0 <= j -> Z.abs S < 2 ^ (53 + j) -> (2 ^ j | S) ->
  ez + j <= 970 ->
  math_floor (binary_normalize prec emax S ez false) = Ok (Z.shiftl S ez).
Proof.
  intros Hez Hj HA [c Hc] Hov.
  pose proof (floor_normalize S ez) as H. cbv zeta in H.
  pose proof (round_shift_le (Z.abs S) j ez Hj Hez ltac:(lia)) as Hk.
  set (k := Z.max 0 (fexp (Zdigits2 (Z.abs S) + ez) - ez)) in *.
  assert (Hpk : 0 < 2 ^ k) by (apply Z.pow_pos_nonneg; lia).
  assert (Hsplit : 2 ^ j = 2 ^ (j - k) * 2 ^ k)
    by (rewrite <- Z.pow_add_r by lia; f_equal; lia).
  assert (HS : S = (c * 2 ^ (j - k)) * 2 ^ k) by (rewrite Hc, Hsplit; lia).
  assert (HAk : Z.abs S = Z.abs (c * 2 ^ (j - k)) * 2 ^ k).
  { rewrite HS at 1. rewrite Z.abs_mul. f_equal. lia. }
  rewrite HAk in H. rewrite div_half_even_exact_mul in H by exact Hpk.
  rewrite H by lia. f_equal.
  replace (Z.sgn S * Z.abs (c * 2 ^ (j - k))) with (c * 2 ^ (j - k)).
  - transitivity (Z.shiftl (Z.shiftl (c * 2 ^ (j - k)) k) ez).
    + rewrite Z.shiftl_shiftl by lia. f_equal. lia.
    + f_equal. rewrite Z.shiftl_mul_pow2 by lia. symmetry. exact HS.
  - assert (Z.sgn S = Z.sgn (c * 2 ^ (j - k))).
    { rewrite HS at 1. rewrite Z.sgn_mul. rewrite (Z.sgn_pos (2 ^ k)) by lia. lia. }
    rewrite H0. generalize (c * 2 ^ (j - k)). intros z. destruct z; reflexivity.
Qed.

End HalfUpAll.

Section HalfUpCases.

Local Abbreviation fexp := (SpecFloat.fexp prec emax).

Lemma fadd_half_sum s m e :
  fadd (S754_finite s m e) float_0_5
  = binary_normalize prec emax
      (cond_Zopp s (Zpos m) * 2 ^ (e - Z.min e (-53)) + 2 ^ (-1 - Z.min e (-53)))
      (Z.min e (-53)) false.
Proof.
  unfold fadd, SFadd, float_0_5. f_equal.
  rewrite !shl_align_fst by lia. f_equal.
  - destruct s; cbn [cond_Zopp]; lia.
  - cbn [cond_Zopp]. change (Z.pos 4503599627370496) with (2 ^ 52).
    rewrite <- Z.pow_add_r by lia. f_equal. lia.
Qed.

(** Integers beyond [2^53]: the half is rounded away. *)
Lemma half_sum_large s m e :
  1 <= e <= 971 -> 2 ^ 52 <= Zpos m < 2 ^ 53 ->
  math_floor (binary_normalize prec emax
                (cond_Zopp s (Zpos m) * 2 ^ (e + 53) + 2 ^ 52) (-53) false)
  = Ok (cond_Zopp s (Zpos m) * 2 ^ e).
Proof.
  intros He Hm.
  assert (HP : 2 <= 2 ^ e).
  { change 2 with (2 ^ 1) at 1. apply Z.pow_le_mono_r; lia. }
  assert (HK : 2 ^ (e + 53) = 2 ^ e * 2 ^ 53) by (apply Z.pow_add_r; lia).
  assert (H52 : 2 ^ (52 + (e + 53)) = 2 ^ 52 * (2 ^ e * 2 ^ 53)).
  { rewrite <- HK. apply Z.pow_add_r; lia. }
  assert (H53 : 2 ^ (53 + (e + 53)) = 2 ^ 53 * (2 ^ e * 2 ^ 53)).
  { rewrite <- HK. apply Z.pow_add_r; lia. }
  set (P := 2 ^ e) in *.
  change (2 ^ 52) with 4503599627370496 in *.
  change (2 ^ 53) with 9007199254740992 in *.
  destruct s; cbn [cond_Zopp].
  - (* negative *)
    destruct (Z.eq_dec (Zpos m) 4503599627370496) as [Em|Hne].
    + (* the power of two: the sum belongs to the binade below *)
      rewrite Em.
      assert (HP2 : 2 ^ (e - 1 + 53) = P * 4503599627370496).
      { replace (e - 1 + 53) with (e + 52) by lia.
        rewrite Z.pow_add_r by lia. reflexivity. }
      assert (H52' : 2 ^ (52 + (e - 1 + 53)) = 4503599627370496 * (P * 4503599627370496)).
      { rewrite <- HP2. apply Z.pow_add_r; lia. }
      assert (H53' : 2 ^ (53 + (e - 1 + 53)) = 9007199254740992 * (P * 4503599627370496)).
      { rewrite <- HP2. apply Z.pow_add_r; lia. }
      rewrite (floor_normalize_bits _ (-53) (e - 1 + 53) 9007199254740992); [|lia|lia| | |lia].
      * f_equal. rewrite Z.sgn_neg by nia.
        replace (-53 + (e - 1 + 53)) with (e - 1) by lia.
        rewrite Z.shiftl_mul_pow2 by lia.
        assert (P = 2 * 2 ^ (e - 1)).
        { unfold P. replace e with (1 + (e - 1)) at 1 by lia.
          rewrite Z.pow_add_r by lia. reflexivity. }
        lia.
      * rewrite H52', H53', HK. rewrite Z.abs_neq by nia. nia.
      * rewrite HK, HP2. rewrite Z.abs_neq by nia.
        destruct (Z.eq_dec e 1) as [E1|Hne1].
        -- (* a tie, taken to the even side *)
           subst P. rewrite E1. change (2 ^ 1) with 2.
           reflexivity.
        -- apply div_half_even_near; [nia|].
           assert (4 <= P).
           { unfold P. change 4 with (2 ^ 2). apply Z.pow_le_mono_r; lia. }
           rewrite Z.abs_eq by nia. nia.
    + rewrite (floor_normalize_bits _ (-53) (e + 53) (Zpos m)); [|lia|lia| | |lia].
      * f_equal. rewrite Z.sgn_neg by nia.
        replace (-53 + (e + 53)) with e by lia.
        rewrite Z.shiftl_mul_pow2 by lia. fold P. lia.
      * rewrite H52, H53, HK. rewrite Z.abs_neq by nia. nia.
      * rewrite HK. rewrite Z.abs_neq by nia.
        apply div_half_even_near; [nia|].
        rewrite Z.abs_eq by nia. nia.
  - rewrite (floor_normalize_bits _ (-53) (e + 53) (Zpos m)); [|lia|lia| | |lia].
    + f_equal. rewrite Z.sgn_pos by nia.
      replace (-53 + (e + 53)) with e by lia.
      rewrite Z.shiftl_mul_pow2 by lia. fold P. lia.
    + rewrite H52, H53, HK. rewrite Z.abs_eq by nia. nia.
    + rewrite HK. rewrite Z.abs_eq by nia.
      apply div_half_even_near; [nia|].
      rewrite Z.abs_neq by nia. nia.
Qed.


(** Integers of 53 bits: the sum is a tie and goes to the even side. *)
Lemma half_sum_tie s m :
  2 ^ 52 <= Zpos m < 2 ^ 53 ->
  math_floor (binary_normalize prec emax
                (cond_Zopp s (Zpos m) * 2 ^ 53 + 2 ^ 52) (-53) false)
  = Ok (cond_Zopp s (Zpos m) + (if Z.odd (Zpos m) then 1 else 0)).
Proof.
  intros Hm.
  change (2 ^ 52) with 4503599627370496 in *.
  change (2 ^ 53) with 9007199254740992 in *.
  destruct s; cbn [cond_Zopp].
  - destruct (Z.eq_dec (Zpos m) 4503599627370496) as [Em|Hne].
    + injection Em as ->. vm_compute. reflexivity.
    + rewrite (floor_normalize_bits _ (-53) 53
                 (if Z.even (Zpos m - 1) then Zpos m - 1 else Zpos m - 1 + 1));
        [|lia|lia| | |lia].
      * f_equal. rewrite Z.sgn_neg by lia. change (-53 + 53) with 0. rewrite Z.shiftl_0_r.
        replace (Z.pos m - 1) with (Z.pred (Z.pos m)) by lia.
        rewrite Z.even_pred.
        destruct (Z.odd (Z.pos m)); lia.
      * change (2 ^ (52 + 53)) with 40564819207303340847894502572032.
        change (2 ^ (53 + 53)) with 81129638414606681695789005144064.
        lia.
      * apply div_half_even_tie; [reflexivity|].
        change (2 ^ 53) with 9007199254740992. lia.
  - rewrite (floor_normalize_bits _ (-53) 53
               (if Z.even (Zpos m) then Zpos m else Zpos m + 1));
      [|lia|lia| | |lia].
    + f_equal. rewrite Z.sgn_pos by lia. change (-53 + 53) with 0. rewrite Z.shiftl_0_r.
      rewrite <- Z.negb_odd.
      destruct (Z.odd (Z.pos m)); cbn [negb]; lia.
    + change (2 ^ (52 + 53)) with 40564819207303340847894502572032.
      change (2 ^ (53 + 53)) with 81129638414606681695789005144064.
      lia.
    + apply div_half_even_tie; [reflexivity|].
      change (2 ^ 53) with 9007199254740992. lia.
Qed.

(** Between [2^-1] and [2^52] in magnitude: the sum is exact, or it loses
    one bit that cannot carry into the integer part. *)
Lemma half_sum_mid s m e :
  -53 <= e <= -1 -> Zpos m < 2 ^ 53 ->
  math_floor (binary_normalize prec emax
                (cond_Zopp s (Zpos m) * 2 ^ (e + 53) + 2 ^ 52) (-53) false)
  = Ok ((cond_Zopp s (Zpos m) + 2 ^ (-1 - e)) / 2 ^ (- e)).
Proof.
  intros He Hm.
  set (G := 2 ^ (-1 - e)). set (J := 2 ^ (e + 53)).
  assert (HG : 1 <= G) by (unfold G; pose proof (Z.pow_pos_nonneg 2 (-1 - e)); lia).
  assert (HJ : 1 <= J) by (unfold J; pose proof (Z.pow_pos_nonneg 2 (e + 53)); lia).
  assert (HGJ : G * J = 2 ^ 52).
  { unfold G, J. rewrite <- Z.pow_add_r by lia. f_equal. lia. }
  assert (H2G : 2 ^ (- e) = 2 * G).
  { unfold G. replace (- e) with (1 + (-1 - e)) by lia.
    rewrite Z.pow_add_r by lia. reflexivity. }
  assert (H53J : 2 ^ (53 + (e + 53)) = 2 ^ 53 * J)
    by (unfold J; apply Z.pow_add_r; lia).
  assert (H54J : 2 ^ (53 + (e + 53 + 1)) = 2 ^ 54 * J).
  { unfold J. replace (53 + (e + 53 + 1)) with (54 + (e + 53)) by lia.
    apply Z.pow_add_r; lia. }
  assert (H53J' : 2 ^ (52 + (e + 53 + 1)) = 2 ^ 53 * J).
  { unfold J. replace (52 + (e + 53 + 1)) with (53 + (e + 53)) by lia.
    apply Z.pow_add_r; lia. }
  assert (HJ1 : 2 ^ (e + 53 + 1) = 2 * J).
  { unfold J. replace (e + 53 + 1) with (1 + (e + 53)) by lia.
    rewrite Z.pow_add_r by lia. reflexivity. }
  rewrite H2G.
  set (M := cond_Zopp s (Zpos m)).
  assert (HM : - 2 ^ 53 < M < 2 ^ 53) by (unfold M; destruct s; cbn [cond_Zopp]; lia).
  assert (HS : M * J + 2 ^ 52 = (M + G) * J) by lia.
  rewrite HS.
  change (2 ^ 52) with 4503599627370496 in *.
  change (2 ^ 53) with 9007199254740992 in *.
  change (2 ^ 54) with 18014398509481984 in *.
  assert (HG52 : G <= 4503599627370496) by nia.
  destruct (Z_lt_le_dec (Z.abs (M + G)) 9007199254740992) as [Hsmall|Hbig].
  - (* the sum is exact *)
    rewrite (floor_normalize_exact _ (-53) (e + 53)); [|lia|lia| | |lia].
    + f_equal. rewrite Z.shiftl_div_pow2 by lia.
      change (2 ^ (- -53)) with 9007199254740992.
      replace 9007199254740992 with (2 * G * J) by lia.
      apply Z.div_mul_cancel_r; lia.
    + rewrite H53J. rewrite Z.abs_mul, (Z.abs_eq J) by lia. nia.
    + exists (M + G). reflexivity.
  - (* one bit too many *)
    assert (HMG : 9007199254740992 <= M + G < 18014398509481984) by lia.
    set (t := div_half_even (Z.abs ((M + G) * J)) (2 ^ (e + 53 + 1))).
    rewrite (floor_normalize_bits _ (-53) (e + 53 + 1) t); [|lia|lia| |reflexivity|lia].
    + f_equal. rewrite Z.sgn_pos by nia. rewrite Z.mul_1_l.
      rewrite Z.shiftl_div_pow2 by lia.
      replace (- (-53 + (e + 53 + 1))) with (-1 - e) by lia. fold G.
      pose proof (div_half_even_spec (Z.abs ((M + G) * J)) (2 ^ (e + 53 + 1))
                    ltac:(apply Z.pow_pos_nonneg; lia)) as [Ht _].
      fold t in Ht. rewrite HJ1 in Ht. rewrite (Z.abs_eq ((M + G) * J)) in Ht by nia.
      assert (Ht2 : Z.abs (2 * t - (M + G)) <= 1).
      { assert (2 * Z.abs (t * (2 * J) - (M + G) * J) = 2 * (Z.abs (2 * t - (M + G)) * J)).
        { replace (t * (2 * J) - (M + G) * J) with ((2 * t - (M + G)) * J) by lia.
          rewrite Z.abs_mul, (Z.abs_eq J) by lia. reflexivity. }
        nia. }
      set (N := (M + G) / (2 * G)).
      pose proof (Z.div_mod (M + G) (2 * G) ltac:(lia)) as Hdm. fold N in Hdm.
      pose proof (Z.mod_pos_bound (M + G) (2 * G) ltac:(lia)) as Hr.
      set (r := (M + G) mod (2 * G)) in *. clearbody N r.
      symmetry. apply Z.div_unique with (t - G * N); [|lia].
      left. split; [lia|].
      assert (t <= G * N + G) by lia.
      assert (t <> G * N + G); [|lia].
      intros Et.
      assert (HMt : M + G = 2 * G * (N + 1) - 1) by lia.
      assert (Hr1 : 2 * G * J <= 2 * G * (N + 1) - 1) by lia.
      assert (Hr2 : 2 * G * (N + 1) - 1 < 2 * G * J + G) by (unfold M in *; destruct s; cbn [cond_Zopp] in *; lia).
      assert (J < N + 1) by nia.
      assert (N + 1 - J < 1) by nia.
      lia.
    + rewrite H53J', H54J. rewrite Z.abs_eq by nia. nia.
Qed.

(** Below one half in magnitude: the sum stays below one. *)
Lemma half_sum_small s m e :
  -1074 <= e <= -54 -> Zpos m < 2 ^ 53 ->
  (s = false -> e = -54 -> Zpos m <> 2 ^ 53 - 1) ->
  math_floor (binary_normalize prec emax
                (cond_Zopp s (Zpos m) + 2 ^ (-1 - e)) e false)
  = Ok 0.
Proof.
  intros He Hm Hslip.
  set (W := 2 ^ (-1 - e)).
  assert (HW : 2 ^ 53 <= W) by (unfold W; apply Z.pow_le_mono_r; lia).
  change (2 ^ 53) with 9007199254740992 in *.
  destruct s; cbn [cond_Zopp].
  - (* negative: the sum is below one half *)
    change (- Z.pos m) with (Z.neg m).
    pose proof (floor_normalize (Z.neg m + W) e) as H. cbv zeta in H.
    rewrite (Z.abs_eq (Z.neg m + W)) in H by lia.
    pose proof (round_shift_le (Z.neg m + W) (-54 - e) e ltac:(lia) ltac:(lia)) as Hk.
    replace (53 + (-54 - e)) with (-1 - e) in Hk by lia. fold W in Hk.
    specialize (Hk ltac:(lia)).
    set (k := Z.max 0 (fexp (Zdigits2 (Z.neg m + W) + e) - e)) in *.
    assert (Hpk : 0 < 2 ^ k) by (apply Z.pow_pos_nonneg; lia).
    pose proof (div_half_even_spec (Z.neg m + W) (2 ^ k) Hpk) as [Ht Ht'].
    set (t := div_half_even (Z.neg m + W) (2 ^ k)) in *.
    rewrite H by lia. f_equal.
    rewrite Z.sgn_pos by lia. rewrite Z.mul_1_l.
    rewrite Z.shiftl_div_pow2 by lia.
    assert (Hsplit : 2 ^ (- (e + k)) * 2 ^ k = 2 * W).
    { rewrite <- Z.pow_add_r by lia. unfold W.
      replace (- (e + k) + k) with (1 + (-1 - e)) by lia.
      rewrite Z.pow_add_r by lia. reflexivity. }
    assert (Hkw : 2 ^ k <= W).
    { unfold W. apply Z.pow_le_mono_r; lia. }
    assert (0 <= (Z.neg m + W) / 2 ^ k) by (apply Z.div_pos; lia).
    apply Z.div_small. split; [lia|].
    assert (0 < 2 ^ (- (e + k))) by (apply Z.pow_pos_nonneg; lia).
    assert (t * 2 ^ k < 2 ^ (- (e + k)) * 2 ^ k) by lia.
    nia.
  - (* positive, and not the float just below one half *)
    set (j := -53 - e).
    assert (HWj : W = 4503599627370496 * 2 ^ j).
    { unfold W, j. replace (-1 - e) with (52 + (-53 - e)) by lia.
      rewrite Z.pow_add_r by lia. reflexivity. }
    assert (Hpj : 2 <= 2 ^ j).
    { change 2 with (2 ^ 1) at 1. apply Z.pow_le_mono_r; unfold j; lia. }
    assert (H52j : 2 ^ (52 + j) = W).
    { unfold W, j. f_equal. lia. }
    assert (H53j : 2 ^ (53 + j) = 2 * W).
    { unfold W, j. replace (53 + (-53 - e)) with (1 + (-1 - e)) by lia.
      rewrite Z.pow_add_r by lia. reflexivity. }
    set (t := div_half_even (Z.abs (Z.pos m + W)) (2 ^ j)).
    pose proof (div_half_even_spec (Z.abs (Z.pos m + W)) (2 ^ j) ltac:(lia))
      as [Ht Ht'].
    fold t in Ht, Ht'. rewrite (Z.abs_eq (Z.pos m + W)) in Ht, Ht' by lia.
    assert (0 <= (Z.pos m + W) / 2 ^ j) by (apply Z.div_pos; lia).
    assert (Htlt : t < 9007199254740992).
    { destruct (Z_lt_le_dec t 9007199254740992) as [|Hge]; [assumption|exfalso].
      assert (Hlow : 2 * (Z.pos m + W) >= 2 * (t * 2 ^ j) - 2 ^ j) by lia.
      assert (Htj : 9007199254740992 * 2 ^ j <= t * 2 ^ j) by nia.
      assert (H2m : 2 * Z.pos m >= 9007199254740991 * 2 ^ j) by lia.
      destruct (Z.eq_dec j 1) as [Ej|Hnj].
      - rewrite Ej in H2m. change (2 ^ 1) with 2 in H2m.
        apply (Hslip eq_refl); [unfold j in Ej; lia|lia].
      - assert (4 <= 2 ^ j).
        { change 4 with (2 ^ 2). apply Z.pow_le_mono_r; unfold j in *; lia. }
        lia. }
    rewrite (floor_normalize_bits _ e j t); [|lia|unfold j; lia| |reflexivity|unfold j; lia].
    + f_equal. rewrite Z.sgn_pos by lia. rewrite Z.mul_1_l.
      replace (e + j) with (-53) by (unfold j; lia).
      rewrite Z.shiftl_div_pow2 by lia.
      apply Z.div_small. change (2 ^ (- -53)) with 9007199254740992. lia.
    + rewrite H52j, H53j. rewrite Z.abs_eq by lia. lia.
Qed.

End HalfUpCases.

Section HalfUpMain.

Lemma bounded_normal m e :
  bounded prec emax m e = true -> -1074 < e -> 2 ^ 52 <= Zpos m.
Proof.
  unfold bounded, canonical_mantissa. intros H He.
  apply andb_prop in H as [Hc _]. apply Z.eqb_eq in Hc.
  change (Zpos (digits2_pos m)) with (Zdigits2 (Zpos m)) in Hc.
  assert (Hd : Zdigits2 (Zpos m) = 53)
    by (unfold SpecFloat.fexp, SpecFloat.emin, prec, emax in Hc; lia).
  pose proof (Zdigits2_bounds (Zpos m) ltac:(lia)) as [Hlo _].
  rewrite Hd in Hlo. exact Hlo.
Qed.

Lemma cond_Zopp_mul s a b : cond_Zopp s (a * b) = cond_Zopp s a * b.
Proof. destruct s; cbn [cond_Zopp]; lia. Qed.

(** The floor of [x + 0.5], computed in binary64, for every float [x]: it
    is [x] rounded half up, except on the floats of [sum_rounds_up], where
    it is one more. *)
Lemma floor_add_half_all (x : float) :
  valid_binary prec emax x = true -> is_finite x = true ->
  math_floor (fadd x float_0_5)
    = Ok (round_half_up x + (if sum_rounds_up x then 1 else 0)).
Proof.
  intros Hv Hf. destruct x as [s|s| |s m e]; try discriminate.
  - destruct s; reflexivity.
  - cbn [valid_binary] in Hv.
    destruct (valid_mantissa m e Hv) as (Hm & Hle & Hge).
    pose proof (bounded_normal m e Hv) as Hnorm.
    rewrite fadd_half_sum.
    unfold round_half_up, sum_rounds_up, dyadic_num, dyadic_den.
    rewrite cond_Zopp_mul.
    set (M := cond_Zopp s (Zpos m)).
    destruct (Z_le_gt_dec 1 e) as [HA|HnA]; [|destruct (Z.eq_dec e 0) as [HB|HnB];
      [|destruct (Z_le_gt_dec (-53) e) as [HC|HD]]].
    + (* |x| >= 2^53 *)
      replace (Z.min e (-53)) with (-53) by lia.
      replace (e - -53) with (e + 53) by lia. change (2 ^ (-1 - -53)) with (2 ^ 52).
      unfold M. rewrite half_sum_large by lia. f_equal. fold M.
      destruct (Z.eqb_spec e (-54)); [lia|]. destruct (Z.eqb_spec e 0); [lia|].
      rewrite andb_false_r. cbn [orb andb].
      replace (Z.max e 0) with e by lia. replace (Z.max (- e) 0) with 0 by lia.
      change (2 ^ 0) with 1.
      rewrite Z.add_0_r. apply Z.div_unique with 1; lia.
    + (* 2^52 <= |x| < 2^53 *)
      subst e. change (Z.min 0 (-53)) with (-53). change (0 - -53) with 53.
      change (2 ^ (-1 - -53)) with (2 ^ 52).
      unfold M. rewrite half_sum_tie by lia. f_equal. fold M.
      rewrite andb_false_r. cbn [orb andb Z.eqb].
      change (Z.max 0 0) with 0. change (Z.max (- 0) 0) with 0.
      change (2 ^ 0) with 1. rewrite Z.mul_1_r.
      f_equal. apply Z.div_unique with 1; lia.
    + (* 1/2 <= |x| < 2^52 *)
      replace (Z.min e (-53)) with (-53) by lia.
      replace (e - -53) with (e + 53) by lia. change (2 ^ (-1 - -53)) with (2 ^ 52).
      unfold M. rewrite half_sum_mid by lia. f_equal. fold M.
      destruct (Z.eqb_spec e (-54)); [lia|]. destruct (Z.eqb_spec e 0); [lia|].
      rewrite andb_false_r. cbn [orb andb]. rewrite Z.add_0_r.
      replace (Z.max e 0) with 0 by lia. replace (Z.max (- e) 0) with (- e) by lia.
      change (2 ^ 0) with 1. rewrite Z.mul_1_r.
      assert (H2G : 2 ^ (- e) = 2 * 2 ^ (-1 - e)).
      { replace (- e) with (1 + (-1 - e)) at 1 by lia.
        rewrite Z.pow_add_r by lia. reflexivity. }
      assert (0 < 2 ^ (-1 - e)) by (apply Z.pow_pos_nonneg; lia).
      rewrite H2G.
      replace (2 * M + 2 * 2 ^ (-1 - e)) with (2 * (M + 2 ^ (-1 - e))) by lia.
      symmetry. apply Z.div_mul_cancel_l; lia.
    + (* |x| < 1/2 *)
      replace (Z.min e (-53)) with e by lia.
      replace (e - e) with 0 by lia. change (2 ^ 0) with 1. rewrite Z.mul_1_r.
      destruct (Z.eqb_spec e 0); [lia|]. cbn [andb]. rewrite orb_false_r.
      replace (Z.max e 0) with 0 by lia. replace (Z.max (- e) 0) with (- e) by lia.
      change (2 ^ 0) with 1. rewrite Z.mul_1_r.
      assert (H2G : 2 ^ (- e) = 2 * 2 ^ (-1 - e)).
      { replace (- e) with (1 + (-1 - e)) at 1 by lia.
        rewrite Z.pow_add_r by lia. reflexivity. }
      assert (HW : 2 ^ 53 <= 2 ^ (-1 - e)) by (apply Z.pow_le_mono_r; lia).
      assert (HMb : - 2 ^ 53 < M < 2 ^ 53)
        by (unfold M; destruct s; cbn [cond_Zopp]; lia).
      assert (Hrhu : (2 * M + 2 ^ (- e)) / (2 * 2 ^ (- e)) = 0).
      { apply Z.div_small. rewrite H2G. lia. }
      rewrite Hrhu.
      destruct (negb s && (Z.pos m =? 2 ^ 53 - 1) && (e =? -54)) eqn:Hslip.
      * apply andb_prop in Hslip as [Hslip He].
        apply andb_prop in Hslip as [Hs Hmm].
        apply Z.eqb_eq in He, Hmm. apply negb_true_iff in Hs.
        subst s e. injection Hmm as ->. vm_compute. reflexivity.
      * unfold M. rewrite half_sum_small; [reflexivity|lia|lia|].
        intros -> -> Hmm. cbn [negb andb] in Hslip.
        rewrite Hmm in Hslip. cbn in Hslip. discriminate.
Qed.

End HalfUpMain.

(* ===================================================================== *)
(** * Theorems: the actions *)
(* ===================================================================== *)

(** C4, as stated, fails.  A default text that [float()] reads as a
    number need not give a value: [nan] and [inf] are read, and the floor
    then raises [ValueError] and [OverflowError].  (And the result is not
    always the scaled value rounded half up: [0.9999999999999999] scaled by
    [0.5] is [0.49999999999999994], below one half, and the call returns
    [1], against the docstring of the class.) *)
Lemma scale_int_rounds_half_up_counterexample :
  py_float (lit "nan") = Ok S754_nan /\
  _process (ActionScaleInt (Float float_0_5) false) (lit "shop_cost_scale")
    (lit "nan") = Raise ValueError /\
  py_float (lit "inf") = Ok (S754_infinity false) /\
  _process (ActionScaleInt (Float float_0_5) false) (lit "shop_cost_scale")
    (lit "inf") = Raise OverflowError /\
  (exists x new_val,
     py_float (lit "0.9999999999999999") = Ok x /\
     float_mul_num x (Float float_0_5) = Ok new_val /\
     new_val = S754_finite false 9007199254740991 (-54) /\
     round_half_up new_val = 0 /\
     _process (ActionScaleInt (Float float_0_5) false) (lit "shop_cost_scale")
       (lit "0.9999999999999999") = Ok (VNum (Int 1))).
Proof.
  split; [reflexivity|]. split; [reflexivity|].
  split; [reflexivity|]. split; [reflexivity|].
  eexists _, _. split; [vm_compute; reflexivity|].
  split; [vm_compute; reflexivity|].
  split; [reflexivity|]. split; vm_compute; reflexivity.
Qed.

(** C4, amended.  When the scaled value [float(default) * scale] is a
    finite binary64 number, [ActionScaleInt] returns an integer [z], the
    floor of the binary64 sum of the scaled value and [0.5]; it is the scaled
    value rounded half up, [floor(x + 1/2)] on the exact value, for every
    scaled value outside [sum_rounds_up] (the float just below one half and
    the odd integers of 53 bits, about which nothing is said here), and a
    scaled value that is exactly [k + 1/2] gives [k + 1]: halves go up, for
    negative values too.  When the scaled value is a NaN or an infinity the
    call raises [ValueError] or [OverflowError] and returns nothing. *)
Theorem scale_int_rounds_half_up (scale : num) (u : bool)
    (name default : pystr) (x new_val : float) :
  py_float default = Ok x ->
  float_mul_num x scale = Ok new_val ->
  valid_binary prec emax new_val = true ->
  (is_finite new_val = true ->
   exists z,
     _process (ActionScaleInt scale u) name default = Ok (VNum (Int z)) /\
     math_floor (fadd new_val float_0_5) = Ok z /\
     (sum_rounds_up new_val = false -> z = round_half_up new_val) /\
     (forall k, half_integer new_val k -> z = k + 1)) /\
  (is_nan new_val = true ->
   _process (ActionScaleInt scale u) name default = Raise ValueError) /\
  (is_inf new_val = true ->
   _process (ActionScaleInt scale u) name default = Raise OverflowError).
Proof.
  intros Hx Hmul Hvalid.
  assert (Hf : _process (ActionScaleInt scale u) name default
               = (z ← math_floor (fadd new_val float_0_5); Ok (VNum (Int z)))).
  { cbn [_process]. rewrite Hx. cbn. rewrite Hmul. reflexivity. }
  split; [|split].
  - intros Hfin.
    pose proof (floor_add_half_all new_val Hvalid Hfin) as Hfloor.
    eexists. split; [rewrite Hf, Hfloor; reflexivity|].
    split; [exact Hfloor|]. split.
    + intros ->. lia.
    + intros k Hhalf.
      pose proof (floor_add_half new_val k Hvalid Hhalf) as Hk.
      rewrite Hfloor in Hk. injection Hk as Hk. exact Hk.
  - intros Hnan. destruct new_val; try discriminate. rewrite Hf. reflexivity.
  - intros Hinf. destruct new_val as [| s | |]; try discriminate.
    rewrite Hf. destruct s; reflexivity.
Qed.

Lemma scale_int_rounds_half_up_witness :
  (exists z,
     _process (ActionScaleInt (Float float_1_5) false) (lit "damage_scale") (lit "5")
       = Ok (VNum (Int z)) /\ z = 8) /\
  (exists z,
     _process (ActionScaleInt (Float float_1_5) false) (lit "damage_scale") (lit "-5")
       = Ok (VNum (Int z)) /\ z = -7) /\
  (exists z,
     _process (ActionScaleInt (Float float_1_3) false) (lit "damage_scale") (lit "7")
       = Ok (VNum (Int z)) /\ z = 9).
Proof.
  split; [|split].
  - destruct (scale_int_rounds_half_up (Float float_1_5) false
                (lit "damage_scale") (lit "5")
                (S754_finite false 5629499534213120 (-50))
                (S754_finite false 8444249301319680 (-50))
                eq_refl eq_refl eq_refl) as [Hfin _].
    destruct (Hfin eq_refl) as (z & Hz & _ & _ & Hhalf).
    exists z. split; [exact Hz|].
    apply (Hhalf 7). split; [lia|reflexivity].
  - destruct (scale_int_rounds_half_up (Float float_1_5) false
                (lit "damage_scale") (lit "-5")
                (S754_finite true 5629499534213120 (-50))
                (S754_finite true 8444249301319680 (-50))
                eq_refl eq_refl eq_refl) as [Hfin _].
    destruct (Hfin eq_refl) as (z & Hz & _ & _ & Hhalf).
    exists z. split; [exact Hz|].
    apply (Hhalf (-8)). split; [lia|reflexivity].
  - destruct (scale_int_rounds_half_up (Float float_1_3) false
                (lit "damage_scale") (lit "7")
                (S754_finite false 7881299347898368 (-50))
                (S754_finite false 5122844576133939 (-49))
                eq_refl eq_refl eq_refl) as [Hfin _].
    destruct (Hfin eq_refl) as (z & Hz & _ & Hup & _).
    exists z. split; [exact Hz|].
    rewrite (Hup eq_refl). reflexivity.
Defined.

Section Comparisons.

Lemma xval_compare_refl v : v <> XNaN -> xval_compare v v = Some Eq.
Proof.
  destruct v as [| | |m e]; intros H; try reflexivity; [congruence|].
  cbn. rewrite Z.compare_refl. reflexivity.
Qed.

Lemma xval_compare_antisym a b :
  xval_compare b a = CompOpp <$> xval_compare a b.
Proof.
  destruct a as [| | |m1 e1], b as [| | |m2 e2]; try reflexivity.
  cbn. rewrite (Z.min_comm e2 e1). rewrite Z.compare_antisym. reflexivity.
Qed.

Lemma xval_compare_some a b :
  a <> XNaN -> b <> XNaN -> exists c, xval_compare a b = Some c.
Proof.
  destruct a as [| | |m1 e1], b as [| | |m2 e2]; intros Ha Hb;
    try congruence; eexists; reflexivity.
Qed.

Lemma num_xval_nan n : num_is_nan n = false -> num_xval n <> XNaN.
Proof.
  destruct n as [z|[s|s| |s m e]]; cbn; try discriminate; try destruct s;
    discriminate.
Qed.

Lemma num_le_refl a : num_is_nan a = false -> num_le a a = true.
Proof.
  intros H. unfold num_le. rewrite xval_compare_refl; [reflexivity|].
  by apply num_xval_nan.
Qed.

Lemma num_lt_le a b : num_lt a b = true -> num_le a b = true.
Proof.
  unfold num_lt, num_le. destruct (xval_compare _ _) as [[| |]|]; congruence.
Qed.

Lemma num_not_lt_ge a b :
  num_is_nan a = false -> num_is_nan b = false ->
  num_lt a b = false -> num_le b a = true.
Proof.
  intros Ha Hb. unfold num_lt, num_le.
  rewrite (xval_compare_antisym (num_xval a) (num_xval b)).
  destruct (xval_compare_some (num_xval a) (num_xval b)) as [c ->];
    [by apply num_xval_nan|by apply num_xval_nan|].
  destruct c; cbn; congruence.
Qed.

(** [max] is an upper bound of its arguments, NaN apart. *)
Lemma py_max_ge a b :
  num_is_nan a = false -> num_is_nan b = false ->
  num_ge (py_max a b) a = true /\ num_ge (py_max a b) b = true.
Proof.
  intros Ha Hb. unfold py_max, num_ge, num_gt.
  destruct (num_lt a b) eqn:E.
  - split; [by apply num_lt_le|by apply num_le_refl].
  - split; [by apply num_le_refl|by apply num_not_lt_ge].
Qed.

(** [min] is a lower bound of its arguments, NaN apart. *)
Lemma py_min_le a b :
  num_is_nan a = false -> num_is_nan b = false ->
  num_le (py_min a b) a = true /\ num_le (py_min a b) b = true.
Proof.
  intros Ha Hb. unfold py_min.
  destruct (num_lt b a) eqn:E.
  - split; [by apply num_lt_le|by apply num_le_refl].
  - split; [by apply num_le_refl|by apply num_not_lt_ge].
Qed.

End Comparisons.

(** C6, as stated, fails: the default text [nan] converts to a float and
    comes back as the result, which is not at least the floor; and a
    default such as [2.5] for the room count does not convert at all. *)
Lemma fishing_clamp_counterexample :
  process main_fishing (lit "fishing_chance") (lit "nan")
    = Ok (VNum (Float S754_nan)) /\
  num_ge (Float S754_nan) (Int 1) = false /\
  process main_fishing (lit "fishing_room_space") (lit "2.5")
    = Raise ValueError.
Proof. vm_compute. repeat split; reflexivity. Qed.

(** C6, amended.  When the default converts to a float other than NaN,
    [fishing_chance] gives the larger of that float and the floor, which
    is at least the floor and at least the default; when the default
    converts to an integer, [fishing_room_space] gives the smaller of that
    integer and the cap, at most the cap and at most the default.  The
    configured bounds are taken not to be NaN. *)
Theorem fishing_clamp_bounds (min_chance min_rooms : num) (default : pystr)
    (x : float) (n : Z) :
  (py_float default = Ok x -> is_nan x = false ->
   num_is_nan min_chance = false ->
   let v := py_max (Float x) min_chance in
   process (ActionFishingChance min_chance min_rooms false)
     (lit "fishing_chance") default = Ok (VNum v) /\
   num_ge v min_chance = true /\ num_ge v (Float x) = true) /\
  (py_int default = Ok n -> num_is_nan min_rooms = false ->
   let v := py_min (Int n) min_rooms in
   process (ActionFishingChance min_chance min_rooms false)
     (lit "fishing_room_space") default = Ok (VNum v) /\
   num_le v min_rooms = true /\ num_le v (Int n) = true).
Proof.
  split.
  - intros Hx Hnan Hmc v.
    destruct (py_max_ge (Float x) min_chance Hnan Hmc) as [Ha Hb].
    split; [|split; assumption].
    unfold process. cbn. rewrite Hx. reflexivity.
  - intros Hn Hmr v.
    destruct (py_min_le (Int n) min_rooms eq_refl Hmr) as [Ha Hb].
    split; [|split; assumption].
    unfold process. cbn. rewrite Hn. reflexivity.
Qed.

Lemma fishing_clamp_bounds_witness :
  (process main_fishing (lit "fishing_chance") (lit "0.1") = Ok (VNum (Int 1)) /\
   num_ge (Int 1) (Int 1) = true /\
   num_ge (Int 1) (Float (float_of_lit "0.1")) = true) /\
  (process main_fishing (lit "fishing_room_space") (lit "10") = Ok (VNum (Int 1)) /\
   num_le (Int 1) (Int 1) = true /\ num_le (Int 1) (Int 10) = true).
Proof.
  split.
  - apply (proj1 (fishing_clamp_bounds (Int 1) (Int 1) (lit "0.1")
                    (float_of_lit "0.1") 0)); reflexivity.
  - apply (proj2 (fishing_clamp_bounds (Int 1) (Int 1) (lit "10")
                    S754_nan 10)); reflexivity.
Defined.

Section FloatText.

Lemma dec_exp_up_lower fuel : forall n d k,
  0 < d -> 1 <= k -> d * 10 ^ (k - 1) <= n ->
  1 <= dec_exp_up fuel n d k /\ d * 10 ^ (dec_exp_up fuel n d k - 1) <= n.
Proof.
  induction fuel as [|fuel IH]; intros n d k Hd Hk Hlow; cbn [dec_exp_up].
  - split; assumption.
  - destruct (Z.ltb_spec n (d * 10 ^ k)) as [_|Hge]; [split; assumption|].
    apply IH; [exact Hd|lia|]. replace (k + 1 - 1) with k by lia. exact Hge.
Qed.

Lemma dec_exp_down_lower fuel : forall n d k,
  0 < n -> 0 < d -> k <= 0 -> n * 10 ^ (- k) < d ->
  d <= 10 ^ (Z.of_nat fuel - k) ->
  dec_exp_down fuel n d k <= 0 /\ d <= n * 10 ^ (1 - dec_exp_down fuel n d k).
Proof.
  induction fuel as [|fuel IH]; intros n d k Hn Hd Hk Hinv Hbound;
    cbn [dec_exp_down].
  - exfalso. replace (Z.of_nat 0 - k) with (- k) in Hbound by lia.
    assert (0 < 10 ^ (- k)) by (apply Z.pow_pos_nonneg; lia). nia.
  - destruct (Z.leb_spec d (n * 10 ^ (1 - k))) as [Hle|Hgt]; [split; assumption|].
    apply IH; [exact Hn|exact Hd|lia| |].
    + replace (- (k - 1)) with (1 - k) by lia. exact Hgt.
    + replace (Z.of_nat fuel - (k - 1)) with (Z.of_nat (S fuel) - k) by lia.
      exact Hbound.
Qed.

(** The decimal exponent is not too large: [10^(k-1) <= n / d]. *)
Lemma decimal_exponent_lower n d :
  0 < n -> 0 < d -> d <= 10 ^ 400 ->
  d * 10 ^ Z.max (decimal_exponent n d - 1) 0
    <= n * 10 ^ Z.max (1 - decimal_exponent n d) 0.
Proof.
  intros Hn Hd Hbound. unfold decimal_exponent.
  destruct (Z.leb_spec d n) as [Hle|Hgt].
  - destruct (dec_exp_up_lower 400 n d 1 Hd ltac:(lia)) as [Hk Hlow].
    { change (10 ^ (1 - 1)) with 1. lia. }
    set (k := dec_exp_up 400 n d 1) in *.
    replace (Z.max (k - 1) 0) with (k - 1) by lia.
    replace (Z.max (1 - k) 0) with 0 by lia. change (10 ^ 0) with 1. lia.
  - destruct (dec_exp_down_lower 400 n d 0 Hn Hd ltac:(lia)) as [Hk Hlow].
    { change (10 ^ (- 0)) with 1. lia. }
    { exact Hbound. }
    set (k := dec_exp_down 400 n d 0) in *.
    replace (Z.max (k - 1) 0) with 0 by lia.
    replace (Z.max (1 - k) 0) with (1 - k) by lia. change (10 ^ 0) with 1. lia.
Qed.

Lemma signed_ratio_nonpos s n d :
  n <= 0 -> signed_ratio_to_float s n d = S754_zero s.
Proof. destruct n; try reflexivity. lia. Qed.

(** Only a positive number of digits reads back as a finite float. *)
Lemma reads_back_pos x c p : reads_back x c p = true -> 0 < c.
Proof.
  unfold reads_back, decimal_to_float. intros H.
  destruct (Z_lt_le_dec 0 c) as [|Hc]; [assumption|exfalso].
  destruct (0 <=? p).
  - rewrite signed_ratio_nonpos in H; [discriminate|].
    assert (0 <= 10 ^ p) by (apply Z.pow_nonneg; lia). nia.
  - rewrite signed_ratio_nonpos in H by exact Hc. discriminate.
Qed.

(** The digits [shortest_fuel] returns are a positive number. *)
Lemma shortest_fuel_pos fuel : forall m e k nd,
  1 <= nd ->
  dyadic_den e * 10 ^ Z.max (k - 1) 0 <= dyadic_num m e * 10 ^ Z.max (1 - k) 0 ->
  0 < fst (shortest_fuel fuel m e k nd).
Proof.
  induction fuel as [|fuel IH]; intros m e k nd Hnd Hk; cbn [shortest_fuel].
  - cbn [fst].
    set (n := dyadic_num m e) in *. set (d := dyadic_den e) in *.
    assert (Hn : 0 < n).
    { unfold n, dyadic_num. apply Z.mul_pos_pos; [lia|].
      apply Z.pow_pos_nonneg; lia. }
    assert (Hd : 0 < d) by (unfold d, dyadic_den; apply Z.pow_pos_nonneg; lia).
    set (p := k - nd).
    assert (Hsd : 0 < d * 10 ^ Z.max p 0).
    { apply Z.mul_pos_pos; [exact Hd|apply Z.pow_pos_nonneg; lia]. }
    assert (Hle : d * 10 ^ Z.max p 0 <= n * 10 ^ Z.max (- p) 0).
    { destruct (Z_le_gt_dec (k - 1) 0) as [Ha|Ha].
      - replace (Z.max (k - 1) 0) with 0 in Hk by lia.
        replace (Z.max (1 - k) 0) with (1 - k) in Hk by lia.
        replace (Z.max p 0) with 0 by (unfold p; lia).
        replace (Z.max (- p) 0) with (- p) by (unfold p; lia).
        change (10 ^ 0) with 1 in *.
        assert (10 ^ (1 - k) <= 10 ^ (- p))
          by (apply Z.pow_le_mono_r; unfold p; lia).
        nia.
      - replace (Z.max (k - 1) 0) with (k - 1) in Hk by lia.
        replace (Z.max (1 - k) 0) with 0 in Hk by lia.
        change (10 ^ 0) with 1 in Hk.
        destruct (Z_le_gt_dec 0 p) as [Hp|Hp].
        + replace (Z.max p 0) with p by lia.
          replace (Z.max (- p) 0) with 0 by lia. change (10 ^ 0) with 1.
          assert (10 ^ p <= 10 ^ (k - 1))
            by (apply Z.pow_le_mono_r; unfold p; lia).
          nia.
        + replace (Z.max p 0) with 0 by lia.
          replace (Z.max (- p) 0) with (- p) by lia. change (10 ^ 0) with 1.
          assert (1 <= 10 ^ (k - 1)) by (pose proof (Z.pow_pos_nonneg 10 (k - 1)); lia).
          assert (1 <= 10 ^ (- p)) by (pose proof (Z.pow_pos_nonneg 10 (- p)); lia).
          nia. }
    pose proof (div_half_even_spec (n * 10 ^ Z.max (- p) 0) (d * 10 ^ Z.max p 0) Hsd)
      as [_ [Hq _]].
    assert (1 <= n * 10 ^ Z.max (- p) 0 / (d * 10 ^ Z.max p 0)).
    { apply Z.div_le_lower_bound; lia. }
    lia.
  - set (p := k - nd).
    set (lo := dyadic_num m e * 10 ^ Z.max (- p) 0 / (dyadic_den e * 10 ^ Z.max p 0)).
    destruct (reads_back (S754_finite false m e) lo p) eqn:Hlo;
      destruct (reads_back (S754_finite false m e) (lo + 1) p) eqn:Hhi;
      cbn [andb negb].
    + pose proof (reads_back_pos _ _ _ Hlo). pose proof (reads_back_pos _ _ _ Hhi).
      destruct (_ || false); cbn [fst]; assumption.
    + rewrite orb_true_r. cbn [fst]. exact (reads_back_pos _ _ _ Hlo).
    + cbn [fst]. exact (reads_back_pos _ _ _ Hhi).
    + apply IH; [lia|exact Hk].
Qed.

Lemma pow2_1074_le : 2 ^ 1074 <= 10 ^ 400.
Proof. apply Z.leb_le. vm_compute. reflexivity. Qed.

Lemma shortest_digits_pos m e :
  -1074 <= e -> 0 < fst (shortest_digits m e).
Proof.
  intros He. unfold shortest_digits.
  apply shortest_fuel_pos; [lia|].
  apply decimal_exponent_lower.
  - unfold dyadic_num. apply Z.mul_pos_pos; [lia|apply Z.pow_pos_nonneg; lia].
  - unfold dyadic_den. apply Z.pow_pos_nonneg; lia.
  - unfold dyadic_den. etransitivity; [|exact pow2_1074_le].
    apply Z.pow_le_mono_r; lia.
Qed.

Lemma digit_char_nonzero d : 1 <= d -> digit_char d <> chr "0".
Proof.
  intros Hd H. unfold digit_char in H.
  apply (f_equal Z.of_N) in H. rewrite Z2N.id in H by lia.
  change (Z.of_N (chr "0")) with 48 in H. lia.
Qed.

(** The first digit of a positive number is not a zero. *)
Lemma digits_fuel_head fuel : forall n acc,
  1 <= n < 2 ^ Z.of_nat fuel ->
  exists d0 rest, digits_fuel fuel n acc = digit_char d0 :: rest /\ 1 <= d0.
Proof.
  induction fuel as [|fuel IH]; intros n acc Hn.
  - change (2 ^ Z.of_nat 0) with 1 in Hn. lia.
  - cbn [digits_fuel]. destruct (Z.ltb_spec n 10) as [Hlt|Hge].
    + exists n, acc. split; [reflexivity|lia].
    + apply IH. rewrite Nat2Z.inj_succ, Z.pow_succ_r in Hn by lia.
      split.
      * apply Z.div_le_lower_bound; lia.
      * apply Z.div_lt_upper_bound; lia.
Qed.

Lemma nat_digits_head n :
  1 <= n -> exists d0 rest, nat_digits n = digit_char d0 :: rest /\ 1 <= d0.
Proof.
  intros Hn. unfold nat_digits. apply digits_fuel_head.
  split; [exact Hn|].
  pose proof (Z.log2_spec n ltac:(lia)) as [_ Hhi].
  pose proof (Z.log2_nonneg n).
  rewrite Nat2Z.inj_succ, Z2Nat.id by lia. exact Hhi.
Qed.

Lemma strip_zeros_rev_head l :
  strip_zeros_rev l = [] \/
  exists c tl, strip_zeros_rev l = c :: tl /\ c <> chr "0".
Proof.
  induction l as [|c l IH]; [left; reflexivity|].
  cbn [strip_zeros_rev]. destruct (N.eqb_spec c 48) as [->|Hne]; [exact IH|].
  right. exists c, l. split; [reflexivity|exact Hne].
Qed.

Lemma strip_zeros_rev_keeps l x :
  x <> chr "0" -> strip_zeros_rev (l ++ [x]) <> [].
Proof.
  intros Hx. induction l as [|c l IH]; cbn [app strip_zeros_rev].
  - destruct (N.eqb_spec x 48) as [E|_]; [contradiction|discriminate].
  - destruct (N.eqb_spec c 48); [exact IH|discriminate].
Qed.

(** The significant digits end in a digit that is not a zero. *)
Lemma significant_digits n :
  1 <= n ->
  exists pre c, rev (strip_zeros_rev (rev (nat_digits n))) = pre ++ [c] /\
                c <> chr "0".
Proof.
  intros Hn. destruct (nat_digits_head n Hn) as (d0 & rest & -> & Hd0).
  cbn [rev]. change (rev rest ++ [digit_char d0]) with (rev rest ++ [digit_char d0]).
  pose proof (strip_zeros_rev_keeps (rev rest) (digit_char d0)
                (digit_char_nonzero d0 Hd0)) as Hne.
  destruct (strip_zeros_rev_head (rev rest ++ [digit_char d0]))
    as [E|(c & tl & E & Hc)]; [contradiction|].
  rewrite E. cbn [rev]. exists (rev tl), c. split; [reflexivity|exact Hc].
Qed.

Lemma exponent_text_e ex : chr "e" ∈ exponent_text ex.
Proof. unfold exponent_text. apply elem_of_cons. left. reflexivity. Qed.

(** [repr] never pads: the digits it is given end in a non-zero digit. *)
Lemma format_repr_unpadded (sign pre : pystr) (c : pychar) (decpt : Z) :
  c <> chr "0" -> unpadded (sign ++ format_repr (pre ++ [c]) decpt).
Proof.
  intros Hc. unfold format_repr.
  set (ds := pre ++ [c]).
  assert (Hlen : length ds = S (length pre)).
  { unfold ds. rewrite length_app. cbn. lia. }
  destruct ((decpt <=? -4) || (16 <? decpt)) eqn:Hexp.
  - (* exponent notation *)
    assert (He : chr "e" ∈ sign ++
              match ds with
              | [] => []
              | [d1] => d1 :: exponent_text (decpt - 1)
              | d1 :: (_ :: _) as more => d1 :: chr "." :: more ++ exponent_text (decpt - 1)
              end).
    { apply elem_of_app. right.
      destruct ds as [|d1 [|d2 more]] eqn:Eds; [cbn in Hlen; lia| |].
      - apply elem_of_cons. right. apply exponent_text_e.
      - apply elem_of_cons. right. apply elem_of_cons. right.
        apply elem_of_app. right. apply exponent_text_e. }
    split; [right; exact He|]. intros body _. left. exact He.
  - destruct (Z.leb_spec decpt 0) as [Hle|Hgt].
    + (* 0.000ddd *)
      split.
      * left. apply elem_of_app. right. cbn. apply elem_of_cons. right.
        apply elem_of_cons. left. reflexivity.
      * intros body Hbody. exfalso.
        unfold ds in Hbody. rewrite !app_assoc in Hbody.
        apply app_inj_tail in Hbody as [_ Hbody]. contradiction.
    + destruct (Z.leb_spec (Z.of_nat (length ds)) decpt) as [Hint|Hfrac].
      * (* ddd000.0 *)
        split.
        -- left. apply elem_of_app. right. apply elem_of_app. right.
           apply elem_of_app. right. cbn. apply elem_of_cons. left. reflexivity.
        -- intros body Hbody. right.
           exists (sign ++ ds ++ zeros (decpt - Z.of_nat (length ds))).
           change (lit ".0") with ([chr "."] ++ [chr "0"]) in Hbody.
           rewrite !app_assoc in Hbody.
           apply app_inj_tail in Hbody as [Hbody _].
           rewrite <- Hbody. rewrite !app_assoc. reflexivity.
      * (* ddd.ddd *)
        assert (Hn : (Z.to_nat decpt <= length pre)%nat) by lia.
        assert (Hdrop : drop (Z.to_nat decpt) ds = drop (Z.to_nat decpt) pre ++ [c]).
        { unfold ds. rewrite drop_app_le by exact Hn. reflexivity. }
        rewrite Hdrop. split.
        -- left. apply elem_of_app. right. apply elem_of_app. right.
           apply elem_of_cons. left. reflexivity.
        -- intros body Hbody. exfalso.
           change (chr "." :: drop (Z.to_nat decpt) pre ++ [c])
             with ((chr "." :: drop (Z.to_nat decpt) pre) ++ [c]) in Hbody.
           rewrite !app_assoc in Hbody.
           apply app_inj_tail in Hbody as [_ Hbody]. contradiction.
Qed.

(** The text of a finite float is never padded. *)
Lemma str_float_unpadded (x : float) :
  match x with
  | S754_finite _ _ e => -1074 <= e
  | S754_zero _ => True
  | _ => False
  end ->
  unpadded (str_float x).
Proof.
  destruct x as [s|s| |s m e]; try contradiction.
  - intros _. destruct s; cbn [str_float].
    + split.
      * left. cbn. apply elem_of_cons. right. apply elem_of_cons. right.
        apply elem_of_cons. left. reflexivity.
      * intros body Hbody. right. exists (lit "-0").
        change (lit "-0.0") with (lit "-0." ++ [chr "0"]) in Hbody.
        apply app_inj_tail in Hbody as [<- _]. reflexivity.
    + split.
      * left. cbn. apply elem_of_cons. right. apply elem_of_cons. left. reflexivity.
      * intros body Hbody. right. exists (lit "0").
        change (lit "0.0") with (lit "0." ++ [chr "0"]) in Hbody.
        apply app_inj_tail in Hbody as [<- _]. reflexivity.
  - intros He. cbn [str_float].
    pose proof (shortest_digits_pos m e He) as Hpos.
    destruct (shortest_digits m e) as [c p]. cbn [fst] in Hpos.
    destruct (significant_digits c ltac:(lia)) as (pre & d & -> & Hd).
    apply format_repr_unpadded. exact Hd.
Qed.

End FloatText.

Section RoundSpec.

Local Abbreviation fexp := (SpecFloat.fexp prec emax).
Local Abbreviation bra := (binary_round_aux prec emax).

Lemma shr_fexp_exp m e l : -1074 <= snd (shr_fexp prec emax m e l).
Proof.
  unfold shr_fexp, shr.
  destruct (fexp (Zdigits2 m + e) - e) eqn:E; cbn [snd];
    unfold SpecFloat.fexp, SpecFloat.emin, prec, emax in *; lia.
Qed.

Lemma shr_fexp_nonneg m e l :
  0 <= m -> 0 <= shr_m (fst (shr_fexp prec emax m e l)).
Proof.
  intros Hm. unfold shr_fexp.
  destruct (Z_lt_le_dec 0 (fexp (Zdigits2 m + e) - e)) as [Hpos|Hnp].
  - pose proof (shr_pos_m (shr_record_of_loc m l) e _ Hpos) as H.
    rewrite shr_record_of_loc_m in H. destruct (H Hm) as [-> _].
    apply Z.div_pos; [exact Hm|apply Z.pow_pos_nonneg; lia].
  - rewrite shr_nonpos by exact Hnp. cbn [fst].
    rewrite shr_record_of_loc_m. exact Hm.
Qed.

(** Rounding never gives a NaN, nor an exponent below that of the
    subnormal numbers. *)
Lemma bra_shape s M E l :
  0 <= M ->
  match bra s M E l with
  | S754_nan => False
  | S754_finite _ _ e' => -1074 <= e'
  | _ => True
  end.
Proof.
  intros HM. unfold binary_round_aux.
  pose proof (shr_fexp_nonneg M E l HM) as H1.
  destruct (shr_fexp prec emax M E l) as [mrs1 e1]. cbn [fst] in H1.
  pose proof (round_nearest_even_bounds (shr_m mrs1) (loc_of_shr_record mrs1)) as Hr.
  set (m1 := round_nearest_even (shr_m mrs1) (loc_of_shr_record mrs1)) in *.
  pose proof (shr_fexp_nonneg m1 e1 loc_Exact ltac:(lia)) as H2.
  pose proof (shr_fexp_exp m1 e1 loc_Exact) as He2.
  destruct (shr_fexp prec emax m1 e1 loc_Exact) as [mrs2 e2].
  cbn [fst snd] in H2, He2.
  destruct (shr_m mrs2) as [|p|p]; [exact I| |lia].
  destruct (e2 <=? emax - prec); [exact He2|exact I].
Qed.

Lemma ratio_to_float_shape s (p U : positive) :
  match ratio_to_float s p U with
  | S754_nan => False
  | S754_finite _ _ e' => -1074 <= e'
  | _ => True
  end.
Proof.
  unfold ratio_to_float, fdiv, SFdiv.
  destruct (SFdiv_core_spec p U) as (k & Hk & ->).
  apply bra_shape. apply Z.div_pos; [|lia].
  assert (0 < 2 ^ k) by (apply Z.pow_pos_nonneg; lia). lia.
Qed.

(** What [round] returns for a finite float is finite. *)
Lemma py_round_finite (x : float) (p : Z) (r : float) :
  valid_binary prec emax x = true -> is_finite x = true ->
  py_round x p = Ok r ->
  match r with
  | S754_finite _ _ e => -1074 <= e
  | S754_zero _ => True
  | _ => False
  end.
Proof.
  intros Hv Hf Hr. destruct x as [s|s| |s m e]; try discriminate.
  - cbn in Hr. injection Hr as <-. exact I.
  - cbn [valid_binary] in Hv. destruct (valid_mantissa m e Hv) as (_ & _ & Hge).
    unfold py_round in Hr.
    destruct (323 <? p); [injection Hr as <-; exact Hge|].
    destruct (p <? -308); [injection Hr as <-; exact I|].
    cbv zeta in Hr.
    set (t := div_half_even _ _) in Hr.
    destruct (signed_ratio_to_float s (t * 10 ^ Z.max (- p) 0)
                (Z.to_pos (10 ^ Z.max p 0))) as [s'|s'| |s' m' e'] eqn:Er;
      cbn [is_inf] in Hr; try discriminate; injection Hr as <-.
    + exact I.
    + unfold signed_ratio_to_float in Er.
      destruct (t * 10 ^ Z.max (- p) 0) as [|q|q]; try discriminate.
      pose proof (ratio_to_float_shape s q (Z.to_pos (10 ^ Z.max p 0))) as H.
      rewrite Er in H. exact H.
    + unfold signed_ratio_to_float in Er.
      destruct (t * 10 ^ Z.max (- p) 0) as [|q|q]; try discriminate.
      pose proof (ratio_to_float_shape s q (Z.to_pos (10 ^ Z.max p 0))) as H.
      rewrite Er in H. exact H.
Qed.

(** On a tie [div_half_even] returns an even number. *)
Lemma div_half_even_tie_even n d :
  0 < d -> 2 * Z.abs (div_half_even n d * d - n) = d ->
  Z.even (div_half_even n d) = true.
Proof.
  intros Hd. unfold div_half_even.
  pose proof (Z.div_mod n d ltac:(lia)) as Hdm.
  pose proof (Z.mod_pos_bound n d Hd) as Hr.
  set (q := n / d) in *. set (r := n mod d) in *. clearbody q r.
  assert (Hqd : q * d = d * q) by apply Z.mul_comm.
  assert (Hq1 : (q + 1) * d = d * q + d) by (rewrite Z.mul_add_distr_r; lia).
  destruct (Z.compare_spec (2 * r) d) as [C|C|C].
  - destruct (Z.even q) eqn:Ev; intros _; [exact Ev|].
    rewrite Z.even_add, Ev. reflexivity.
  - rewrite Hqd. intros H. exfalso. lia.
  - rewrite Hq1. intros H. exfalso. lia.
Qed.

(** [round(x, p)] for [0 <= p <= 323] is the float read from the decimal
    of [p] places nearest to [x]. *)
Lemma py_round_rounded (x : float) (p : Z) (r : float) :
  0 <= p <= 323 -> py_round x p = Ok r -> rounded_to x p r.
Proof.
  intros Hp Hr. destruct x as [s|s| |s m e]; cbn in Hr; try (injection Hr as <-; reflexivity).
  unfold py_round in Hr.
  destruct (Z.ltb_spec 323 p); [lia|]. destruct (Z.ltb_spec p (-308)); [lia|].
  cbv zeta in Hr.
  replace (Z.max p 0) with p in Hr by lia.
  replace (Z.max (- p) 0) with 0 in Hr by lia.
  change (10 ^ 0) with 1 in Hr. rewrite !Z.mul_1_r in Hr.
  set (t := div_half_even (dyadic_num m e * 10 ^ p) (dyadic_den e)) in *.
  destruct (is_inf _); [discriminate|]. injection Hr as <-.
  assert (Hd : 0 < dyadic_den e) by (unfold dyadic_den; apply Z.pow_pos_nonneg; lia).
  cbn [rounded_to]. exists t. split; [|split].
  - exact (proj1 (div_half_even_spec _ _ Hd)).
  - apply div_half_even_tie_even. exact Hd.
  - unfold decimal_to_float.
    destruct (Z.leb_spec 0 (- p)) as [Hz|Hnz].
    + assert (p = 0) as -> by lia. cbn [Z.opp]. change (10 ^ 0) with 1.
      rewrite Z.mul_1_r. reflexivity.
    + rewrite Z.opp_involutive. reflexivity.
Qed.

End RoundSpec.

(** C7, as stated, fails on the text: the float that [ActionScaleFloat]
    returns is written with [str], which prints [13.0] for thirteen, with
    one decimal place and not the six of the configured precision; and a
    large value is written in exponent notation, [1e+16] for a quarter of
    [4e16], with no decimal place at all. *)
Lemma scale_float_text_counterexample :
  process (ActionScaleFloat (Float float_1_3) 6 false)
    (lit "damage_scale_float") (lit "10")
    = Ok (VNum (Float (float_of_lit "13"))) /\
  py_str (VNum (Float (float_of_lit "13"))) = lit "13.0" /\
  decimal_places (lit "13.0") = Some 1%nat /\
  fst (sample_process_files (App_init "t" "l" float_catalog)
         (one_file_world "f.txt" (lit "Dmg=@damage_scale_float|10@" ++ [10%N])))
    = Ok tt /\
  files (snd (sample_process_files (App_init "t" "l" float_catalog)
         (one_file_world "f.txt" (lit "Dmg=@damage_scale_float|10@" ++ [10%N]))))
    !! "l/f.txt"%string = Some (lit "Dmg=13.0") /\
  process (ActionScaleFloat (Float (float_of_lit "0.25")) 6 false)
    (lit "well_darkness_cost_scale") (lit "4e16")
    = Ok (VNum (Float (float_of_lit "1e16"))) /\
  py_str (VNum (Float (float_of_lit "1e16"))) = lit "1e+16" /\
  decimal_places (lit "1e+16") = None.
Proof. vm_compute. repeat split; reflexivity. Qed.

(** C7, amended.  With a precision [p >= 0] and a scaled value
    [float(default) * scale] that is a binary64 number, [ActionScaleFloat]
    returns a float [r]: the scaled value rounded to [p] decimal places in
    the sense of [rounded_to] when [p <= 323] (the float read from the
    nearest decimal of [p] places, ties to even), the scaled value itself
    beyond 323 places.  The driver writes [str(r)] between the text before
    and the text after the macro, and for a finite scaled value that text
    is never padded with zeros to [p] places: it has a decimal point or an
    exponent, and it ends in a zero only in exponent notation or as the
    single decimal of an integral value. *)
Theorem scale_float_written (self : App) (tp : TextProcessor) (line : pystr)
    (m : occurrence) (scale : num) (precision : Z) (x new_val : float) :
  macro_match line = Some m ->
  changes self !! occ_name m = Some (ActionScaleFloat scale precision false) ->
  py_float (occ_default m) = Ok x ->
  float_mul_num x scale = Ok new_val ->
  valid_binary prec emax new_val = true ->
  0 <= precision ->
  exists r,
    process (ActionScaleFloat scale precision false) (occ_name m) (occ_default m)
      = Ok (VNum (Float r)) /\
    (precision <= 323 -> rounded_to new_val precision r) /\
    (323 < precision -> r = new_val) /\
    process_line self tp line
      = TextProcessor_write tp (occ_start m ++ str_float r ++ occ_end m) /\
    (is_finite new_val = true -> unpadded (str_float r)).
Proof.
  intros Hm Hch Hx Hmul Hvalid Hprec.
  destruct (py_round_total new_val precision Hvalid Hprec) as [r Hr].
  assert (Hp : process (ActionScaleFloat scale precision false)
                 (occ_name m) (occ_default m) = Ok (VNum (Float r))).
  { unfold process. cbn. rewrite Hx. cbn. rewrite Hmul. cbn. rewrite Hr.
    reflexivity. }
  exists r. split; [exact Hp|]. split; [|split; [|split]].
  - intros Hle. apply py_round_rounded; [lia|exact Hr].
  - intros Hgt. destruct new_val as [s|s| |s m' e]; cbn in Hr;
      try (injection Hr as <-; reflexivity).
    unfold py_round in Hr. destruct (Z.ltb_spec 323 precision); [|lia].
    injection Hr as <-. reflexivity.
  - unfold process_line. rewrite Hm, Hch. io_unfold. rewrite Hp. reflexivity.
  - intros Hfin. apply str_float_unpadded.
    pose proof (py_round_finite new_val precision r Hvalid Hfin Hr) as H.
    destruct r; auto.
Qed.

Lemma scale_float_written_witness :
  exists r,
    process (ActionScaleFloat (Float float_1_3) 6 false)
      (lit "damage_scale_float") (lit "0.25")
      = Ok (VNum (Float r)) /\
    rounded_to (fmul (float_of_lit "0.25") float_1_3) 6 r /\
    process_line (App_init "t" "l" float_catalog)
      (MkTextProcessor "t/f" "l/f" false (Some "ascii"%string) Ascii None
         [10%N] [] (Some "l/f"%string))
      (lit "Dmg=@damage_scale_float|0.25@;")
    = TextProcessor_write
        (MkTextProcessor "t/f" "l/f" false (Some "ascii"%string) Ascii None
           [10%N] [] (Some "l/f"%string))
        (lit "Dmg=" ++ str_float r ++ lit ";") /\
    unpadded (str_float r).
Proof.
  destruct (scale_float_written (App_init "t" "l" float_catalog)
              (MkTextProcessor "t/f" "l/f" false (Some "ascii"%string) Ascii None
                 [10%N] [] (Some "l/f"%string))
              (lit "Dmg=@damage_scale_float|0.25@;")
              (Occurrence (lit "Dmg=") (lit "damage_scale_float") (lit "0.25") (lit ";"))
              (Float float_1_3) 6 (float_of_lit "0.25")
              (fmul (float_of_lit "0.25") float_1_3)
              eq_refl eq_refl eq_refl eq_refl eq_refl ltac:(lia))
    as (r & Hp & Hr & _ & Hl & Hu).
  exists r. split; [exact Hp|]. split; [apply Hr; lia|].
  split; [exact Hl|]. apply Hu. reflexivity.
Defined.


Lemma py_float_cases d :
  (exists x, py_float d = Ok x) \/ py_float d = Raise ValueError.
Proof. unfold py_float, of_option. destruct (mbind _ _); eauto. Qed.

Lemma py_int_cases d :
  (exists n, py_int d = Ok n) \/ py_int d = Raise ValueError.
Proof. unfold py_int, of_option. destruct (mbind _ _); eauto. Qed.

Ltac in_list := repeat constructor.
Ltac not_in_list :=
  let Hin := fresh "Hin" in
  intros Hin;
  repeat (apply elem_of_cons in Hin as [?|Hin]; [congruence|]);
  by apply elem_of_nil in Hin.

(** C8, as stated, fails: a name inside the fishing set still raises when
    the default text does not convert, and a disabled action raises
    nothing for a name outside its set. *)
Lemma enumerated_names_counterexample :
  process main_fishing (lit "fishing_chance") [] = Raise ValueError /\
  process (ActionGodMode (Float float_0_6) (Int 0) (Int 30) float_0_0 true)
    (lit "no_such_name") (lit "1") = Ok (VStr (lit "1")).
Proof. vm_compute. split; reflexivity. Qed.

(** C8, amended.  For an action that is not disabled: [ActionGodMode]
    returns a number for each of its three names and raises its
    [RuntimeError] for any other name; [ActionFishingChance] raises its
    [RuntimeError] for any name but its two, and for those two it returns
    a number, or raises [ValueError] when the default text does not
    convert. *)
Theorem enumerated_names (a : action) (name default : pystr) :
  use_default a = false ->
  match a with
  | ActionGodMode _ _ _ step _ =>
      valid_binary prec emax step = true ->
      if bool_decide (name ∈ godmode_names)
      then exists v, process a name default = Ok (VNum v)
      else process a name default = Raise (RuntimeError (UnknownGodModeName name))
  | ActionFishingChance _ _ _ =>
      if bool_decide (name ∈ fishing_names)
      then (exists v, process a name default = Ok (VNum v)) \/
           (conversion_fails a name default /\
            process a name default = Raise ValueError)
      else process a name default = Raise (RuntimeError (UnknownFishingName name))
  | _ => True
  end.
Proof.
  intros Hu.
  destruct a as [|sc u|sc pr u|v u|s e st step u|mc mr u]; try exact I;
    cbn [use_default] in Hu; subst u; unfold process; cbn [use_default _process].
  - (* god mode *)
    intros Hvalid. unfold godmode_names.
    destruct (decide (name = lit "godmode_base_scale")) as [->|H1].
    { rewrite bool_decide_eq_true_2 by in_list. eexists; reflexivity. }
    destruct (decide (name = lit "godmode_per_death")) as [->|H2].
    { rewrite bool_decide_eq_true_2 by in_list.
      destruct (py_round_total step 6 Hvalid ltac:(lia)) as [r ->].
      eexists; reflexivity. }
    destruct (decide (name = lit "godmode_death_cap")) as [->|H3].
    { rewrite bool_decide_eq_true_2 by in_list. eexists; reflexivity. }
    rewrite bool_decide_eq_false_2 by not_in_list. reflexivity.
  - (* fishing *)
    unfold fishing_names, conversion_fails.
    destruct (decide (name = lit "fishing_chance")) as [->|H1].
    { rewrite bool_decide_eq_true_2 by in_list.
      destruct (py_float_cases default) as [[x Hx]|Hx]; rewrite Hx; cbn.
      - left. eexists; reflexivity.
      - right. split; [left; split; reflexivity|reflexivity]. }
    destruct (decide (name = lit "fishing_room_space")) as [->|H2].
    { rewrite bool_decide_eq_true_2 by in_list.
      destruct (py_int_cases default) as [[x Hx]|Hx]; rewrite Hx; cbn.
      - left. eexists; reflexivity.
      - right. split; [right; split; reflexivity|reflexivity]. }
    rewrite bool_decide_eq_false_2 by not_in_list. reflexivity.
Qed.

Lemma enumerated_names_witness :
  (exists v, process main_godmode (lit "godmode_per_death") (lit "0.02") = Ok (VNum v)) /\
  process main_godmode (lit "godmode_bogus") (lit "1")
    = Raise (RuntimeError (UnknownGodModeName (lit "godmode_bogus"))) /\
  process main_fishing (lit "fishing_bogus") (lit "1")
    = Raise (RuntimeError (UnknownFishingName (lit "fishing_bogus"))).
Proof.
  split; [|split].
  - apply (enumerated_names main_godmode (lit "godmode_per_death") (lit "0.02"));
      reflexivity.
  - apply (enumerated_names main_godmode (lit "godmode_bogus") (lit "1"));
      reflexivity.
  - apply (enumerated_names main_fishing (lit "fishing_bogus") (lit "1")).
    reflexivity.
Defined.

(* ===================================================================== *)
(** * Theorems: reading the lines of a file *)
(* ===================================================================== *)

(** Whatever the last character of a line is, the slice [line[:-1]] of
    [__init__] drops it. *)
Lemma slice_drops_last (body : pystr) (c : pychar) :
  slice_to_last 0 (body ++ [c]) = body.
Proof. unfold slice_to_last. rewrite removelast_last. reflexivity. Qed.

Section LastLine.

Lemma translate_newlines_app_char (c : pychar) :
  c <> 10%N -> c <> 13%N ->
  forall text, translate_newlines (text ++ [c]) = translate_newlines text ++ [c].
Proof.
  intros H10 H13.
  assert (Hc13 : (c =? 13)%N = false) by (by apply N.eqb_neq).
  assert (Hc10 : (c =? 10)%N = false) by (by apply N.eqb_neq).
  assert (Hn : forall n text, (length text <= n)%nat ->
                 translate_newlines (text ++ [c]) = translate_newlines text ++ [c]).
  { induction n as [|n IH]; intros text Hlen.
    - destruct text; [|cbn in Hlen; lia]. cbn. rewrite Hc13. reflexivity.
    - destruct text as [|a text]; [cbn; rewrite Hc13; reflexivity|].
      cbn [app translate_newlines]. cbn in Hlen.
      destruct (a =? 13)%N.
      + destruct text as [|b text].
        * cbn. rewrite Hc10, Hc13. reflexivity.
        * cbn [app]. destruct (b =? 10)%N.
          -- rewrite IH by (cbn in Hlen; lia). reflexivity.
          -- change (b :: text ++ [c]) with ((b :: text) ++ [c]).
             rewrite IH by (cbn in *; lia). reflexivity.
      + rewrite IH by lia. reflexivity. }
  intros text. apply (Hn (length text)). lia.
Qed.

Lemma readlines_app_char (c : pychar) :
  c <> 10%N ->
  forall t, exists ls l, readlines (t ++ [c]) = ls ++ [l ++ [c]].
Proof.
  intros H10. assert (Hc10 : (c =? 10)%N = false) by (by apply N.eqb_neq).
  induction t as [|a t (ls & l & IH)].
  - exists [], []. cbn. rewrite Hc10. reflexivity.
  - cbn [app readlines]. rewrite IH. destruct (a =? 10)%N.
    + exists ([a] :: ls), l. reflexivity.
    + destruct ls as [|x ls]; cbn [app].
      * exists [], (a :: l). reflexivity.
      * exists ((a :: x) :: ls), l. reflexivity.
Qed.

(** The last line of a file that does not end with a terminator is stored
    without its last character. *)
Lemma unterminated_last_line_cut (bom : option pybytes) (enc : encoding)
    (first : pystr) (between : list pystr) (l : pystr) (c : pychar)
    (data : list pystr) :
  extract_lines bom enc (first :: between ++ [l ++ [c]]) = Ok data ->
  last data = Some l.
Proof.
  cbn [extract_lines]. destruct (extract_first bom enc first) as [f|e]; cbn;
    [|discriminate].
  intros [= <-]. rewrite map_app. cbn [map].
  rewrite slice_drops_last.
  change (f :: map (slice_to_last 0) between ++ [l])
    with ((f :: map (slice_to_last 0) between) ++ [l]).
  apply last_snoc.
Qed.

End LastLine.


(** C1 at the failing input.  A template whose last line has no
    terminator: the line [bc] of the file is cut to [b] when it is read,
    and the output ends in [b]. *)
Theorem final_line_truncated :
  fst (sample_process_files (App_init "t" "l" ∅)
         (one_file_world "f.txt" (lit "a" ++ [10%N] ++ lit "bc"))) = Ok tt /\
  files (snd (sample_process_files (App_init "t" "l" ∅)
                (one_file_world "f.txt" (lit "a" ++ [10%N] ++ lit "bc"))))
    !! "l/f.txt"%string = Some (lit "a" ++ [10%N] ++ lit "b").
Proof. vm_compute. split; reflexivity. Qed.

(* ===================================================================== *)
(** * More on the macro pattern *)
(* ===================================================================== *)

Section MatchShape.

Lemma span_here_sound v n d e :
  span_here v = Some (n, d, e) ->
  v = chr "@" :: n ++ chr "|" :: d ++ chr "@" :: e /\
  n <> [] /\ Forall (fun c => name_char c = true) n /\
  Forall (fun c => not_at c = true) d.
Proof.
  unfold span_here. destruct v as [|c v1]; [discriminate|].
  destruct (N.eqb c (chr "@")) eqn:Hc; [|discriminate].
  apply N.eqb_eq in Hc. subst c.
  pose proof (take_drop_while name_char v1) as Hsplit.
  pose proof (take_while_all name_char v1) as Hname.
  destruct (take_while name_char v1) as [|c1 nm]; [discriminate|].
  destruct (drop_while name_char v1) as [|c2 v3]; [discriminate|].
  destruct (N.eqb c2 (chr "|")) eqn:Hc2; [|discriminate].
  apply N.eqb_eq in Hc2. subst c2.
  pose proof (take_drop_while not_at v3) as Hsplit3.
  pose proof (take_while_all not_at v3) as Hd.
  pose proof (drop_while_head not_at v3) as Hhead.
  destruct (drop_while not_at v3) as [|c4 e'] eqn:Hdw; [discriminate|].
  intros [= <- <- <-].
  cbn in Hhead. destruct (not_at c4) eqn:Hc4; [congruence|].
  apply not_at_false, N.eqb_eq in Hc4. subst c4.
  split; [|split; [discriminate|split; assumption]].
  rewrite <- Hsplit, <- Hsplit3 at 1. reflexivity.
Qed.

Lemma last_span_sound line : forall o,
  last_span line = Some o ->
  line = occ_start o ++ chr "@" :: occ_name o ++ chr "|" :: occ_default o
           ++ chr "@" :: occ_end o /\
  occ_name o <> [] /\ Forall (fun c => name_char c = true) (occ_name o) /\
  Forall (fun c => not_at c = true) (occ_default o).
Proof.
  induction line as [|c line IH]; intros o Ho; [discriminate|].
  cbn [last_span] in Ho. destruct (last_span line) as [o'|].
  - injection Ho as <-. cbn [occ_start occ_name occ_default occ_end].
    destruct (IH o' eq_refl) as (Hl & Hrest). split; [|exact Hrest].
    cbn [app]. f_equal. exact Hl.
  - destruct (span_here (c :: line)) as [[[n d] e]|] eqn:Hs; [|discriminate].
    injection Ho as <-. cbn [occ_start occ_name occ_default occ_end app].
    apply span_here_sound. exact Hs.
Qed.

Lemma drop_while_stops {A} (p : A -> bool) a c b :
  p c = false -> drop_while p (a ++ c :: b) <> [].
Proof.
  intros Hc. induction a as [|x a IH]; cbn.
  - rewrite Hc. discriminate.
  - destruct (p x); [exact IH|discriminate].
Qed.

Lemma span_here_complete n d e :
  n <> [] -> Forall (fun c => name_char c = true) n ->
  is_Some (span_here (chr "@" :: n ++ chr "|" :: d ++ chr "@" :: e)).
Proof.
  intros Hn Hname. cbn [span_here]. rewrite N.eqb_refl.
  assert (Hhead : head (name_char <$> (chr "|" :: d ++ chr "@" :: e)) <> Some true)
    by (cbn; discriminate).
  rewrite (take_while_skip name_char n _ Hname Hhead).
  rewrite (drop_while_skip name_char n _ Hname Hhead).
  destruct n as [|c1 nm]; [congruence|].
  rewrite N.eqb_refl.
  pose proof (drop_while_stops not_at d (chr "@") e eq_refl) as Hne.
  destruct (drop_while not_at (d ++ chr "@" :: e)); [congruence|].
  eexists; reflexivity.
Qed.

Lemma last_span_some u : is_Some (span_here u) -> is_Some (last_span u).
Proof.
  intros [x Hx]. destruct u as [|c u]; [discriminate|].
  cbn [last_span]. destruct (last_span u); [eexists; reflexivity|].
  rewrite Hx. destruct x as [[n d] e]. eexists; reflexivity.
Qed.

End MatchShape.

(** X1. On a line without newline, the four groups of a match put
    together with the two at signs and the bar are the line again; the
    name is a non-empty word of [a-z_] and the default holds no at
    sign. *)
Theorem macro_match_sound (line : pystr) (o : occurrence) :
  no_newline line ->
  macro_match line = Some o ->
  line = occ_start o ++ chr "@" :: occ_name o ++ chr "|" :: occ_default o
           ++ chr "@" :: occ_end o /\
  occ_name o <> [] /\
  Forall (fun c => name_char c = true) (occ_name o) /\
  chr "@" ∉ occ_default o.
Proof.
  intros Hnl Hm. rewrite macro_match_is_last_span in Hm
    by (by apply no_newline_dotted).
  destruct (last_span_sound line o Hm) as (Hl & Hne & Hname & Hd).
  repeat split; try assumption.
  intros Hin. rewrite Forall_forall in Hd. specialize (Hd _ Hin).
  discriminate.
Qed.

Lemma macro_match_sound_witness :
  lit "Cost=@shop_cost_scale|40@;" =
    lit "Cost=" ++ chr "@" :: lit "shop_cost_scale" ++ chr "|" :: lit "40"
      ++ chr "@" :: lit ";" /\
  lit "shop_cost_scale" <> [] /\
  Forall (fun c => name_char c = true) (lit "shop_cost_scale") /\
  chr "@" ∉ lit "40".
Proof.
  apply (macro_match_sound (lit "Cost=@shop_cost_scale|40@;")
           (Occurrence (lit "Cost=") (lit "shop_cost_scale") (lit "40") (lit ";")));
    reflexivity.
Defined.

(** X2. A line without newline matches exactly when it holds an at sign,
    a non-empty word of [a-z_], a bar and, somewhere after it, another
    at sign. *)
Theorem macro_match_complete (line : pystr) :
  no_newline line ->
  (is_Some (macro_match line) <->
   exists s n d e,
     line = s ++ chr "@" :: n ++ chr "|" :: d ++ chr "@" :: e /\
     n <> [] /\ Forall (fun c => name_char c = true) n).
Proof.
  intros Hnl. rewrite macro_match_is_last_span by (by apply no_newline_dotted).
  split.
  - intros [o Ho]. destruct (last_span_sound line o Ho) as (Hl & Hne & Hname & _).
    exists (occ_start o), (occ_name o), (occ_default o), (occ_end o). auto.
  - intros (s & n & d & e & -> & Hne & Hname).
    destruct (last_span_some _ (span_here_complete n d e Hne Hname)) as [o Ho].
    eexists. exact (last_span_app s _ o Ho).
Qed.

Lemma macro_match_complete_witness :
  is_Some (macro_match (lit "x@a|b@c@d")) <->
  exists s n d e,
    lit "x@a|b@c@d" = s ++ chr "@" :: n ++ chr "|" :: d ++ chr "@" :: e /\
    n <> [] /\ Forall (fun c => name_char c = true) n.
Proof.
  apply (macro_match_complete (lit "x@a|b@c@d")). reflexivity.
Defined.

(* ===================================================================== *)
(** * More on [TextProcessor.__init__] *)
(* ===================================================================== *)

Section InitFacts.

Variable detect : pybytes -> detection.
Variable decode : pybytes -> option pystr.
Variable ra : pystr -> nat.

Ltac innermost_case :=
  match goal with
  | |- context [match ?x with _ => _ end] =>
      lazymatch x with
      | context [match _ with _ => _ end] => fail
      | _ => destruct x eqn:?
      end
  end.

Ltac init_cases raw :=
  repeat (cbn; try reflexivity; innermost_case); cbn; try reflexivity.

(** The constructor only reads. *)
Lemma init_pure src dst w :
  snd (TextProcessor_init detect decode ra src dst w) = w.
Proof.
  unfold TextProcessor_init, read_file. io_unfold.
  destruct (files w !! src) as [raw|] eqn:E; cbn; [|reflexivity].
  destruct (num_lt _ _); [reflexivity|].
  unfold pybytes in *. rewrite ?E. cbn.
  init_cases raw.
Qed.

(** What it returns depends on the files only. *)
Lemma init_files_only src dst w1 w2 :
  files w1 = files w2 ->
  fst (TextProcessor_init detect decode ra src dst w1)
  = fst (TextProcessor_init detect decode ra src dst w2).
Proof.
  destruct w1 as [f1 d1 o1], w2 as [f2 d2 o2]. cbn [files]. intros ->.
  unfold TextProcessor_init, read_file. io_unfold.
  destruct (f2 !! src) as [raw|] eqn:E; cbn; [|reflexivity].
  destruct (num_lt _ _); [reflexivity|].
  unfold pybytes in *. rewrite ?E. cbn.
  init_cases raw.
Qed.

Ltac innermost_case_in H :=
  match type of H with
  | context [match ?x with _ => _ end] =>
      lazymatch x with
      | context [match _ with _ => _ end] => fail
      | _ => destruct x eqn:?
      end
  end.

(** What a successful construction went through. *)
Lemma init_ok_inv src dst w tp w' :
  TextProcessor_init detect decode ra src dst w = (Ok tp, w') ->
  exists raw text s,
    files w !! src = Some raw /\
    num_lt (Float (det_confidence (detect (take 1024 raw)))) (Float float_0_9)
      = false /\
    decode raw = Some text /\
    newlines_after_readline (take (ra text) text) = NlStr s /\
    ((det_encoding (detect (take 1024 raw)) = Some "UTF-8-SIG"%string /\
      tp_encoding tp = Utf8 /\ bom tp = Some BOM_UTF8) \/
     (det_encoding (detect (take 1024 raw)) = Some "ascii"%string /\
      tp_encoding tp = Ascii /\ bom tp = None)) /\
    encode (tp_encoding tp) s = Ok (newline tp) /\
    extract_lines (bom tp) (tp_encoding tp) (readlines (translate_newlines text))
      = Ok (data tp) /\
    written_line tp = false /\ odf tp = None /\
    filename_orig tp = src /\ filename_new tp = dst /\
    orig_encoding tp = det_encoding (detect (take 1024 raw)) /\
    w' = w.
Proof.
  intros H. unfold TextProcessor_init, read_file in H. io_unfold.
  destruct (files w !! src) as [raw|] eqn:E; cbn in H; [|discriminate].
  destruct (num_lt _ _) eqn:Hc; [discriminate|].
  unfold pybytes in *. rewrite ?E in H. cbn in H.
  exists raw.
  destruct (decide _) as [He|He]; [|destruct (decide _) as [He2|He2]];
    cbn in H; try discriminate.
  all: rewrite ?E in H; cbn in H.
  all: destruct (decode raw) as [text|] eqn:Hd; cbn in H; [|discriminate].
  all: destruct (newlines_after_readline _) as [|s|k] eqn:Hn; cbn in H;
    try discriminate.
  all: destruct (encode _ s) as [nl|] eqn:Hs; cbn in H; [|discriminate].
  all: destruct (extract_lines _ _ _) as [dat|] eqn:Hx; cbn in H; [|discriminate].
  all: injection H as <- <-; exists text, s; cbn.
  - repeat split; auto.
  - repeat split; auto.
Qed.

End InitFacts.

Section InitInvariant.

Variable detect : pybytes -> detection.
Variable decode : pybytes -> option pystr.
Variable ra : pystr -> nat.

Lemma newlines_str_kinds pre s :
  newlines_after_readline pre = NlStr s ->
  s = [10%N] \/ s = [13%N] \/ s = [13; 10]%N.
Proof.
  unfold newlines_after_readline.
  destruct (scan_newlines _ _) as [[|] [|] [|]]; cbn; intros H;
    try discriminate; injection H as <-; auto.
Qed.

Lemma encode_newline enc s nl :
  s = [10%N] \/ s = [13%N] \/ s = [13; 10]%N ->
  encode enc s = Ok nl -> nl = s.
Proof.
  intros [-> | [-> | ->]]; destruct enc; cbn; intros [= <-]; reflexivity.
Qed.

Lemma has_terminator_app a b :
  has_terminator (a ++ b) = has_terminator a || has_terminator b.
Proof. unfold has_terminator. apply existsb_app. Qed.

Lemma has_terminator_drop n s :
  has_terminator s = false -> has_terminator (drop n s) = false.
Proof.
  intros H. rewrite <- (take_drop n s) in H.
  rewrite has_terminator_app in H. apply orb_false_elim in H as [_ H].
  exact H.
Qed.

Lemma translate_no_cr s :
  Forall (fun c => c <> 13%N) (translate_newlines s).
Proof.
  assert (Hn : forall n s, (length s <= n)%nat ->
                 Forall (fun c => c <> 13%N) (translate_newlines s)).
  { clear s. induction n as [|n IH]; intros s Hlen.
    - destruct s; [constructor|cbn in Hlen; lia].
    - destruct s as [|c s]; [constructor|]. cbn in Hlen.
      cbn [translate_newlines].
      destruct (N.eqb_spec c 13) as [->|Hc].
      + destruct s as [|c2 s]; [repeat constructor; discriminate|].
        destruct (c2 =? 10)%N; (constructor; [discriminate|]);
          apply IH; cbn in *; lia.
      + constructor; [exact Hc|]. apply IH. lia. }
  apply (Hn (length s)). lia.
Qed.

(** Each line handed out is non-empty and has no terminator before its
    last character. *)
Lemma readlines_lines s :
  Forall (fun c => c <> 13%N) s ->
  Forall (fun l => l <> [] /\ has_terminator (removelast l) = false)
         (readlines s).
Proof.
  induction s as [|c s IH]; intros Hs; [constructor|].
  apply Forall_cons in Hs as [Hc Hs]. specialize (IH Hs).
  cbn [readlines]. destruct (N.eqb_spec c 10) as [->|Hc10].
  - constructor; [|exact IH]. split; [discriminate|reflexivity].
  - destruct (readlines s) as [|l ls]; [repeat constructor; discriminate|].
    apply Forall_cons in IH as [[Hl Hrl] Hls].
    constructor; [|exact Hls]. split; [discriminate|].
    destruct l as [|c' l]; [congruence|].
    change (removelast (c :: c' :: l)) with (c :: removelast (c' :: l)).
    cbn [has_terminator existsb]. fold (has_terminator (removelast (c' :: l))).
    rewrite Hrl.
    destruct (N.eqb_spec c 10); [congruence|].
    destruct (N.eqb_spec c 13); [congruence|]. reflexivity.
Qed.

Lemma extract_lines_clean b enc text dat :
  extract_lines b enc (readlines (translate_newlines text)) = Ok dat ->
  Forall no_terminator dat.
Proof.
  pose proof (readlines_lines _ (translate_no_cr text)) as Hl.
  destruct (readlines (translate_newlines text)) as [|first others];
    cbn [extract_lines].
  - intros [= <-]. constructor.
  - apply Forall_cons in Hl as [[_ Hf] Ho].
    unfold extract_first.
    assert (Hslice : forall a l, has_terminator (removelast l) = false ->
                       no_terminator (slice_to_last a l)).
    { intros a l H. unfold no_terminator, slice_to_last.
      by apply has_terminator_drop. }
    destruct b as [bm|].
    + destruct (decode_opt enc bm) as [d|]; cbn; [|discriminate].
      intros [= <-]. constructor; [by apply Hslice|].
      apply Forall_fmap. eapply Forall_impl; [exact Ho|].
      intros l [_ H]. by apply Hslice.
    + cbn. intros [= <-]. constructor; [by apply Hslice|].
      apply Forall_fmap. eapply Forall_impl; [exact Ho|].
      intros l [_ H]. by apply Hslice.
Qed.

(** X3. Every [TextProcessor] that [__init__] returns is fresh (nothing
    written, no output open), pairs UTF-8 with the BOM or ASCII with none,
    holds one of the three newline sequences, and stores lines that hold
    neither a line feed nor a carriage return; the constructor leaves the
    world as it was. *)
Theorem init_invariant (src dst : string) (w w' : world) (tp : TextProcessor) :
  TextProcessor_init detect decode ra src dst w = (Ok tp, w') ->
  w' = w /\
  written_line tp = false /\ odf tp = None /\
  filename_orig tp = src /\ filename_new tp = dst /\
  ((tp_encoding tp = Utf8 /\ bom tp = Some BOM_UTF8) \/
   (tp_encoding tp = Ascii /\ bom tp = None)) /\
  newline tp ∈ newline_bytes /\
  Forall no_terminator (data tp).
Proof.
  intros H.
  destruct (init_ok_inv detect decode ra src dst w tp w' H)
    as (raw & text & s & _ & _ & _ & Hn & Henc & Hnl & Hx & Hwl & Hodf
        & Hfo & Hfn & _ & Hw).
  pose proof (newlines_str_kinds _ _ Hn) as Hk.
  pose proof (encode_newline _ _ _ Hk Hnl) as Hnl'.
  repeat split; try assumption.
  - destruct Henc as [(_ & ? & ?)|(_ & ? & ?)]; auto.
  - rewrite Hnl'. unfold newline_bytes.
    destruct Hk as [-> | [-> | ->]]; repeat constructor.
  - eapply extract_lines_clean. exact Hx.
Qed.

End InitInvariant.

Lemma init_invariant_witness :
  let w := one_file_world "f.txt" (BOM_UTF8 ++ lit "a" ++ [13; 10]%N ++ lit "b") in
  let tp := MkTextProcessor "t/f.txt" "l/f.txt" false (Some "UTF-8-SIG"%string)
              Utf8 (Some BOM_UTF8) [13; 10]%N [lit "a"; []] None in
  w = w /\
  written_line tp = false /\ odf tp = None /\
  filename_orig tp = "t/f.txt"%string /\ filename_new tp = "l/f.txt"%string /\
  ((tp_encoding tp = Utf8 /\ bom tp = Some BOM_UTF8) \/
   (tp_encoding tp = Ascii /\ bom tp = None)) /\
  newline tp ∈ newline_bytes /\
  Forall no_terminator (data tp).
Proof.
  apply (init_invariant sample_detect utf8_decode sample_readahead
           "t/f.txt" "l/f.txt"
           (one_file_world "f.txt" (BOM_UTF8 ++ lit "a" ++ [13; 10]%N ++ lit "b"))).
  vm_compute. reflexivity.
Defined.

(* ===================================================================== *)
(** * Theorems: templates that are refused *)
(* ===================================================================== *)

Section InitErrors.

Variable detect : pybytes -> detection.
Variable decode : pybytes -> option pystr.
Variable ra : pystr -> nat.

Lemma scan_no_terminator s acc :
  has_terminator s = false -> scan_newlines s acc = acc.
Proof.
  assert (Hn : forall n s acc, (length s <= n)%nat ->
                 has_terminator s = false -> scan_newlines s acc = acc).
  { clear s acc. induction n as [|n IH]; intros s acc Hlen Hs.
    - destruct s; [reflexivity|cbn in Hlen; lia].
    - destruct s as [|c s]; [reflexivity|]. cbn in Hlen.
      cbn [has_terminator existsb] in Hs. fold (has_terminator s) in Hs.
      apply orb_false_elim in Hs as [Hc Hs].
      apply orb_false_elim in Hc as [Hc10 Hc13].
      cbn [scan_newlines]. rewrite Hc13, Hc10. apply IH; [lia|exact Hs]. }
  apply (Hn (length s)). lia.
Qed.

Lemma has_terminator_take n s :
  has_terminator s = false -> has_terminator (take n s) = false.
Proof.
  intros H. rewrite <- (take_drop n s) in H.
  rewrite has_terminator_app in H. apply orb_false_elim in H as [H _].
  exact H.
Qed.

Lemma has_terminator_removelast s :
  has_terminator s = false -> has_terminator (removelast s) = false.
Proof.
  intros H. destruct (list_eq_nil_dec s) as [->|Hne]; [reflexivity|].
  rewrite (app_removelast_last 0%N Hne) in H.
  rewrite has_terminator_app in H. apply orb_false_elim in H as [H _].
  exact H.
Qed.

Lemma classified_no_terminator s :
  has_terminator s = false -> has_terminator (classified s) = false.
Proof.
  intros H. unfold classified. destruct (last s); [|exact H].
  destruct (_ && _); [by apply has_terminator_removelast|exact H].
Qed.

(** X4. A template whose text holds no line ending at all (an empty file,
    or a single line without terminator) is refused by [__init__] with the
    [RuntimeError] for unknown line endings, once its encoding has been
    accepted. *)
Theorem no_line_ending_rejected (src dst : string) (raw : pybytes)
    (text : pystr) (w : world) :
  files w !! src = Some raw ->
  num_lt (Float (det_confidence (detect (take 1024 raw)))) (Float float_0_9)
    = false ->
  det_encoding (detect (take 1024 raw)) = Some "UTF-8-SIG"%string \/
  det_encoding (detect (take 1024 raw)) = Some "ascii"%string ->
  decode raw = Some text ->
  no_terminator text ->
  TextProcessor_init detect decode ra src dst w
    = (Raise (RuntimeError (UnknownLineEndings src)), w).
Proof.
  intros Hsrc Hconf Henc Hdec Hnt.
  assert (Hnl : newlines_after_readline (take (ra text) text) = NlNone).
  { unfold newlines_after_readline. rewrite scan_no_terminator; [reflexivity|].
    apply classified_no_terminator. by apply has_terminator_take. }
  unfold TextProcessor_init, read_file. io_unfold.
  unfold pybytes in *. rewrite Hsrc. cbn. rewrite Hconf.
  destruct Henc as [He|He]; rewrite He; cbn;
    repeat (destruct (decide _) as [?|?]; try done; cbn);
    rewrite ?Hsrc; cbn; rewrite Hdec; cbn; rewrite Hnl; reflexivity.
Qed.

End InitErrors.

Lemma no_line_ending_rejected_witness :
  TextProcessor_init sample_detect utf8_decode sample_readahead
    "t/f.txt" "l/f.txt" (one_file_world "f.txt" (lit "abc"))
  = (Raise (RuntimeError (UnknownLineEndings "t/f.txt")),
     one_file_world "f.txt" (lit "abc")) /\
  TextProcessor_init sample_detect utf8_decode sample_readahead
    "t/f.txt" "l/f.txt" (one_file_world "f.txt" [])
  = (Raise (RuntimeError (UnknownLineEndings "t/f.txt")),
     one_file_world "f.txt" []).
Proof.
  split.
  - apply (no_line_ending_rejected sample_detect utf8_decode sample_readahead
             "t/f.txt" "l/f.txt" (lit "abc") (lit "abc"));
      first [reflexivity | right; reflexivity].
  - apply (no_line_ending_rejected sample_detect utf8_decode sample_readahead
             "t/f.txt" "l/f.txt" [] []);
      first [reflexivity | right; reflexivity].
Defined.

Section Atomicity.

Variable detect : pybytes -> detection.
Variable decode : pybytes -> option pystr.
Variable ra : pystr -> nat.

(** The steps of [process_file] before the [with] statement: the
    message and the destination directory. They leave the files alone. *)
Lemma prelude_files (d : string) (w : world) :
  files (snd ((if path_exists d w then (Ok tt, w) else makedirs d w)
              : result unit * world)) = files w.
Proof.
  destruct (path_exists d w); [reflexivity|].
  unfold makedirs. destruct (decide _); reflexivity.
Qed.

(** X5. Whatever makes [__init__] raise (a missing template, a text that
    does not decode, unknown or mixed line endings, a refused encoding),
    [process_file] raises too and no file is created or changed. *)
Theorem init_failure_no_output (self : App) (filename : string)
    (e : exn) (w : world) :
  fst (TextProcessor_init detect decode ra
         (path_join (template_dir self) filename)
         (path_join (live_dir self) filename) w) = Raise e ->
  exists e' w',
    process_file detect decode ra self filename w = (Raise e', w') /\
    files w' = files w /\
    (e' = e \/ e' = FileNotFoundError).
Proof.
  intros Hinit.
  unfold process_file. unfold mbind at 1, io_bind at 1. unfold print at 1.
  set (w0 := World (files w) (dirs w) (stdout w ++ [MsgProcessing filename])).
  set (src := path_join (template_dir self) filename) in *.
  set (dst := path_join (live_dir self) filename) in *.
  unfold mbind at 1, io_bind at 1.
  assert (Hstep : forall w1, files w1 = files w ->
            exists e' w',
              with_TextProcessor
                (TextProcessor_init detect decode ra src dst)
                (fun tp => process_lines self tp (data tp)) w1 = (Raise e', w') /\
              files w' = files w /\ e' = e).
  { intros w1 Hw1. unfold with_TextProcessor.
    unfold mbind at 1, io_bind at 1.
    pose proof (init_pure detect decode ra src dst w1) as Hp.
    pose proof (init_files_only detect decode ra src dst w1 w Hw1) as Hf.
    rewrite Hinit in Hf.
    destruct (TextProcessor_init detect decode ra src dst w1) as [r w2].
    cbn in Hp, Hf. subst w2 r.
    exists e, w1. auto. }
  destruct (path_exists (path_dirname dst) w0) eqn:Hex.
  - destruct (Hstep w0 eq_refl) as (e' & w' & Hrun & Hf & ->).
    exists e, w'. rewrite Hrun. auto.
  - unfold makedirs. destruct (decide _) as [Hd|Hd].
    + exists FileNotFoundError, w0. auto.
    + match goal with
      | |- context [with_TextProcessor _ _ ?w1] =>
          destruct (Hstep w1 eq_refl) as (e' & w' & Hrun & Hf & ->)
      end.
      exists e, w'. rewrite Hrun. auto.
Qed.

End Atomicity.

Lemma init_failure_no_output_witness :
  exists e' w',
    process_file sample_detect utf8_decode sample_readahead
      (App_init "t" "l" ∅) "f.txt"
      (one_file_world "f.txt" (lit "a" ++ [10; 13; 10]%N ++ lit "b" ++ [10%N]))
    = (Raise e', w') /\
    files w' = files (one_file_world "f.txt"
                        (lit "a" ++ [10; 13; 10]%N ++ lit "b" ++ [10%N])) /\
    (e' = AttributeError \/ e' = FileNotFoundError).
Proof.
  apply (init_failure_no_output sample_detect utf8_decode sample_readahead
           (App_init "t" "l" ∅) "f.txt" AttributeError).
  vm_compute. reflexivity.
Defined.

(* ===================================================================== *)
(** * Theorems: the files a run leaves alone *)
(* ===================================================================== *)

Section Frame.

Variable detect : pybytes -> detection.
Variable decode : pybytes -> option pystr.
Variable ra : pystr -> nat.
Variable walk : world -> string -> list string.

Lemma write_writes_only (tp : TextProcessor) (text : pystr) (f : string) :
  odf tp = Some f -> writes_only f (TextProcessor_write tp text).
Proof.
  intros Hodf w. unfold TextProcessor_write. rewrite Hodf.
  destruct (encode (tp_encoding tp) text) as [b|e];
    destruct (written_line tp); io_unfold; cbn; split;
    try (intros g Hg; rewrite ?lookup_insert_ne by congruence; reflexivity);
    intros tp' Htp; try discriminate Htp;
    injection Htp as <-; reflexivity.
Qed.

Lemma bind_writes_only {A} (f : string) (m : io A)
    (k : A -> io TextProcessor) :
  (forall w, files (snd (m w)) = files w) ->
  (forall a, writes_only f (k a)) ->
  writes_only f (m ≫= k).
Proof.
  intros Hm Hk w. unfold mbind, io_bind. specialize (Hm w).
  destruct (m w) as [[a|e] w1]; cbn in Hm.
  - destruct (Hk a w1) as [Hg Ho]. rewrite <- Hm. split; assumption.
  - cbn. rewrite Hm. split; [reflexivity|intros tp [=]].
Qed.

Lemma process_line_writes_only (self : App) (tp : TextProcessor)
    (line : pystr) (f : string) :
  odf tp = Some f -> writes_only f (process_line self tp line).
Proof.
  intros Hodf. unfold process_line.
  destruct (macro_match line) as [m|]; [|by apply write_writes_only].
  apply bind_writes_only.
  - intros w. destruct (changes self !! occ_name m); reflexivity.
  - intros a. apply bind_writes_only; [reflexivity|].
    intros v. by apply write_writes_only.
Qed.

Lemma process_lines_writes_only (self : App) (lines : list pystr) :
  forall (tp : TextProcessor) (f : string),
    odf tp = Some f -> writes_only f (process_lines self tp lines).
Proof.
  induction lines as [|line lines IH]; intros tp f Hodf w.
  - split; [reflexivity|]. intros tp' [= <-]. exact Hodf.
  - cbn [process_lines]. unfold mbind, io_bind.
    destruct (process_line_writes_only self tp line f Hodf w) as [Hg Ho].
    destruct (process_line self tp line w) as [[tp1|e] w1]; cbn in Hg, Ho.
    + destruct (IH tp1 f (Ho tp1 eq_refl) w1) as [Hg' Ho'].
      split; [|exact Ho']. intros g Hne. rewrite Hg' by exact Hne.
      by apply Hg.
    + split; [exact Hg|intros tp' [=]].
Qed.

Lemma exit_pure (tp : TextProcessor) (w : world) :
  snd (TextProcessor_exit tp w) = w.
Proof. unfold TextProcessor_exit. destruct (odf tp); reflexivity. Qed.

Lemma run_then_exit_frame (tp : TextProcessor) (body : io TextProcessor)
    (f : string) :
  writes_only f body ->
  forall w g, g <> f ->
    files (snd (run_then_exit tp body w)) !! g = files w !! g.
Proof.
  intros Hb w g Hne. destruct (Hb w) as [Hg _]. specialize (Hg g Hne).
  unfold run_then_exit. destruct (body w) as [[tp'|e] w1]; cbn in Hg;
    unfold mbind, io_bind.
  - pose proof (exit_pure tp' w1) as Hx.
    destruct (TextProcessor_exit tp' w1) as [[?|?] w2]; cbn in Hx; subst w2;
      exact Hg.
  - pose proof (exit_pure tp w1) as Hx.
    destruct (TextProcessor_exit tp w1) as [[?|?] w2]; cbn in Hx; subst w2;
      exact Hg.
Qed.

Lemma enter_effect (tp : TextProcessor) (w : world) :
  exists tp' w',
    TextProcessor_enter tp w = (Ok tp', w') /\
    odf tp' = Some (filename_new tp) /\
    data tp' = data tp /\
    files w' = <[filename_new tp := default [] (bom tp)]> (files w) /\
    dirs w' = dirs w /\ stdout w' = stdout w.
Proof.
  unfold TextProcessor_enter.
  destruct (bom tp) as [b|]; io_unfold; eexists _, _;
    (split; [reflexivity|]); cbn; repeat split.
  rewrite lookup_insert_eq. cbn. by rewrite insert_insert_eq.
Qed.

Lemma with_frame (src dst : string) (self : App) (w : world) (g : string) :
  g <> dst ->
  files (snd (with_TextProcessor (TextProcessor_init detect decode ra src dst)
                (fun tp => process_lines self tp (data tp)) w)) !! g
  = files w !! g.
Proof.
  intros Hne. unfold with_TextProcessor. unfold mbind at 1, io_bind at 1.
  destruct (TextProcessor_init detect decode ra src dst w) as [r w1] eqn:Hi.
  destruct r as [tp|e].
  - destruct (init_ok_inv detect decode ra src dst w tp w1 Hi)
      as (raw & text & s & _ & _ & _ & _ & _ & _ & _ & _ & _ & _ & Hnew & _ & ->).
    unfold mbind at 1, io_bind at 1.
    destruct (enter_effect tp w) as (tp1 & w2 & -> & Hodf & _ & Hf & _).
    rewrite Hnew in Hodf, Hf.
    rewrite (run_then_exit_frame tp1 _ dst
               (process_lines_writes_only self _ tp1 dst Hodf) w2 g Hne).
    rewrite Hf. by rewrite lookup_insert_ne.
  - pose proof (init_pure detect decode ra src dst w) as Hp.
    rewrite Hi in Hp. cbn in Hp. by subst w1.
Qed.

Lemma process_file_touches_dst (self : App) (filename : string) (w : world)
    (g : string) :
  g <> path_join (live_dir self) filename ->
  files (snd (process_file detect decode ra self filename w)) !! g
  = files w !! g.
Proof.
  intros Hne. unfold process_file. unfold mbind at 1, io_bind at 1.
  unfold print at 1.
  set (w0 := World (files w) (dirs w) (stdout w ++ [MsgProcessing filename])).
  unfold mbind at 1, io_bind at 1.
  destruct (path_exists _ w0).
  - by rewrite with_frame.
  - unfold makedirs. destruct (decide _); [reflexivity|].
    by rewrite with_frame.
Qed.

(** X6. [process_file] creates or changes one file only, the one of the
    live directory it writes: every other file, the template it reads
    among them when the two paths differ, is left as it was, also when
    the run ends in an exception. *)
Theorem process_file_frame (self : App) (filename : string) (w : world)
    (g : string) :
  g <> path_join (live_dir self) filename ->
  files (snd (process_file detect decode ra self filename w)) !! g
  = files w !! g.
Proof. apply process_file_touches_dst. Qed.

Lemma process_paths_frame (self : App) (paths : list string) :
  forall (w : world) (g : string),
    g ∉ map (fun p => path_join (live_dir self)
                        (relative_name (template_dir self) p)) paths ->
    files (snd (process_paths detect decode ra self paths w)) !! g
    = files w !! g.
Proof.
  induction paths as [|p paths IH]; intros w g Hg; [reflexivity|].
  cbn [map] in Hg. apply not_elem_of_cons in Hg as [Hp Hrest].
  cbn [process_paths]. unfold mbind, io_bind.
  pose proof (process_file_touches_dst self
                (relative_name (template_dir self) p) w g Hp) as Hf.
  unfold relative_name in Hf.
  destruct (process_file detect decode ra self _ w) as [[[]|e] w1];
    cbn in Hf; [|exact Hf].
  rewrite (IH w1 g Hrest). exact Hf.
Qed.

(** X7. A whole run of [process_files] leaves alone every file that is
    not the live counterpart of a path [os.walk] listed: with the live
    names apart from the template names, no template is ever modified. *)
Theorem process_files_frame (self : App) (w : world) (g : string) :
  g ∉ map (fun p => path_join (live_dir self)
                      (relative_name (template_dir self) p))
          (walk w (template_dir self)) ->
  files (snd (process_files detect decode ra walk self w)) !! g
  = files w !! g.
Proof. intros Hg. unfold process_files. by apply process_paths_frame. Qed.

End Frame.

Lemma process_file_frame_witness :
  files (snd (process_file sample_detect utf8_decode sample_readahead
                (App_init "t" "l" ∅) "f.txt"
                (one_file_world "f.txt" (lit "a@x|1@b" ++ [10%N]))))
    !! "t/f.txt"%string
  = files (one_file_world "f.txt" (lit "a@x|1@b" ++ [10%N])) !! "t/f.txt"%string.
Proof.
  apply (process_file_frame sample_detect utf8_decode sample_readahead
           (App_init "t" "l" ∅) "f.txt").
  vm_compute. discriminate.
Defined.

Lemma process_files_frame_witness :
  files (snd (process_files sample_detect utf8_decode sample_readahead
                sample_walk (App_init "t" "l" ∅)
                (one_file_world "f.txt" (lit "a@x|1@b" ++ [10%N]))))
    !! "t/f.txt"%string
  = files (one_file_world "f.txt" (lit "a@x|1@b" ++ [10%N])) !! "t/f.txt"%string.
Proof.
  apply (process_files_frame sample_detect utf8_decode sample_readahead
           sample_walk (App_init "t" "l" ∅)).
  vm_compute. not_in_list.
Defined.

(* ===================================================================== *)
(** * Theorems: the live file as a whole *)
(* ===================================================================== *)

Section WholeFile.

Variable detect : pybytes -> detection.
Variable decode : pybytes -> option pystr.
Variable ra : pystr -> nat.

Lemma write_whole (tp : TextProcessor) (text : pystr) (b : pybytes)
    (f : string) (content : pybytes) (w : world) :
  odf tp = Some f ->
  files w !! f = Some content ->
  encode_opt (tp_encoding tp) text = Some b ->
  exists tp' w',
    TextProcessor_write tp text w = (Ok tp', w') /\
    files w' =
      <[f := content ++ (if written_line tp then newline tp else []) ++ b]>
        (files w) /\
    dirs w' = dirs w /\ stdout w' = stdout w /\
    written_line tp' = true /\ odf tp' = Some f /\
    newline tp' = newline tp /\ tp_encoding tp' = tp_encoding tp.
Proof.
  intros Hodf Hf Henc.
  destruct (write_effect tp text b f content w Hodf Hf Henc)
    as (tp' & w' & Hw & Hat & Hframe & Hd & Ho & Hwl & Hodf' & Hnl & He & _).
  exists tp', w'. repeat split; try assumption.
  apply map_eq. intros g. destruct (decide (g = f)) as [->|Hne].
  - by rewrite lookup_insert_eq.
  - rewrite lookup_insert_ne by congruence. by apply Hframe.
Qed.

Lemma process_line_ok (self : App) (tp : TextProcessor) (line text : pystr)
    (b : pybytes) (f : string) (content : pybytes) (w : world) :
  odf tp = Some f ->
  files w !! f = Some content ->
  line_text self line = Ok text ->
  encode_opt (tp_encoding tp) text = Some b ->
  exists tp' w',
    process_line self tp line w = (Ok tp', w') /\
    files w' =
      <[f := content ++ (if written_line tp then newline tp else []) ++ b]>
        (files w) /\
    dirs w' = dirs w /\
    stdout w' = stdout w ++ line_warnings self line /\
    written_line tp' = true /\ odf tp' = Some f /\
    newline tp' = newline tp /\ tp_encoding tp' = tp_encoding tp.
Proof.
  intros Hodf Hf Ht Hb. unfold process_line, line_text, line_warnings in *.
  destruct (macro_match line) as [m|].
  - unfold chosen_action in Ht.
    set (w1 := World (files w) (dirs w)
                 (stdout w ++ [MsgWarningKeyNotFound (occ_name m)])).
    destruct (changes self !! occ_name m) as [a|]; cbn [default from_option id] in Ht.
    + destruct (process a (occ_name m) (occ_default m)) as [v|e] eqn:Hp;
        rewrite ?Hp in Ht; cbn in Ht; [|discriminate]. injection Ht as <-.
      destruct (write_whole tp _ b f content w Hodf Hf Hb)
        as (tp' & w' & Hw & H). exists tp', w'.
      split; [|by rewrite app_nil_r].
      io_unfold. rewrite Hp. exact Hw.
    + destruct (process (default_action self) (occ_name m) (occ_default m))
        as [v|e] eqn:Hp; rewrite ?Hp in Ht; cbn in Ht; [|discriminate]. injection Ht as <-.
      destruct (write_whole tp _ b f content w1 Hodf Hf Hb)
        as (tp' & w' & Hw & H). exists tp', w'.
      split; [|exact H].
      io_unfold. rewrite Hp. exact Hw.
  - injection Ht as <-.
    destruct (write_whole tp _ b f content w Hodf Hf Hb)
      as (tp' & w' & Hw & H). exists tp', w'.
    split; [exact Hw|by rewrite app_nil_r].
Qed.

Lemma process_line_raises (self : App) (tp : TextProcessor) (line : pystr)
    (e : exn) (w : world) :
  line_text self line = Raise e ->
  exists w',
    process_line self tp line w = (Raise e, w') /\
    files w' = files w /\ dirs w' = dirs w /\
    stdout w' = stdout w ++ line_warnings self line.
Proof.
  intros Ht. unfold process_line, line_text, line_warnings, chosen_action in *.
  destruct (macro_match line) as [m|]; [|discriminate].
  destruct (changes self !! occ_name m) as [a|]; cbn [default from_option id] in Ht.
  - destruct (process a _ _) as [v|e'] eqn:Hp; rewrite ?Hp in Ht; cbn in Ht;
      [discriminate|].
    injection Ht as <-.
    exists w. io_unfold. rewrite Hp. by rewrite app_nil_r.
  - destruct (process (default_action self) _ _) as [v|e'] eqn:Hp;
      rewrite ?Hp in Ht; cbn in Ht; [discriminate|].
    injection Ht as <-.
    eexists. io_unfold. rewrite Hp. cbn. repeat split.
Qed.

Lemma added_snoc (written : bool) (nl : pybytes) (encs : list pybytes)
    (b : pybytes) :
  added written nl (b :: encs)
  = (if written then nl else []) ++ b ++ added true nl encs.
Proof.
  unfold added. destruct encs as [|b2 encs]; cbn [join_bytes].
  - by rewrite app_nil_r.
  - reflexivity.
Qed.

Lemma process_lines_ok (self : App) (lines : list pystr) :
  forall (texts : list pystr) (encs : list pybytes) (tp : TextProcessor)
         (f : string) (content : pybytes) (w : world),
    odf tp = Some f ->
    files w !! f = Some content ->
    Forall2 (fun line text => line_text self line = Ok text) lines texts ->
    mapM (encode_opt (tp_encoding tp)) texts = Some encs ->
    exists tp' w',
      process_lines self tp lines w = (Ok tp', w') /\
      files w' =
        <[f := content ++ added (written_line tp) (newline tp) encs]>
          (files w) /\
      dirs w' = dirs w /\
      stdout w' = stdout w ++ concat (map (line_warnings self) lines) /\
      odf tp' = Some f /\
      written_line tp' = written_line tp || bool_decide (lines <> []) /\
      newline tp' = newline tp /\ tp_encoding tp' = tp_encoding tp.
Proof.
  induction lines as [|line lines IH];
    intros texts encs tp f content w Hodf Hf Hall Hm.
  - apply Forall2_nil_inv_l in Hall as ->. cbn in Hm. injection Hm as <-.
    exists tp, w. cbn. rewrite !app_nil_r, orb_false_r.
    repeat split; try assumption.
    symmetry. by apply insert_id.
  - apply Forall2_cons_inv_l in Hall as (text & texts' & Ht & Hall & ->).
    cbn in Hm.
    destruct (encode_opt (tp_encoding tp) text) as [b|] eqn:Hb;
      [|discriminate]. cbn in Hm.
    destruct (mapM (encode_opt (tp_encoding tp)) texts') as [bs|] eqn:Hbs;
      [|discriminate]. cbn in Hm. injection Hm as <-.
    destruct (process_line_ok self tp line text b f content w Hodf Hf Ht Hb)
      as (tp1 & w1 & Hl & Hf1 & Hd1 & Ho1 & Hwl1 & Hodf1 & Hnl1 & He1).
    rewrite <- He1 in Hbs.
    assert (Hat : files w1 !! f
                  = Some (content ++ (if written_line tp then newline tp
                                      else []) ++ b)).
    { rewrite Hf1. by rewrite lookup_insert_eq. }
    destruct (IH texts' bs tp1 f _ w1 Hodf1 Hat Hall Hbs)
      as (tp2 & w2 & Hrun & Hf2 & Hd2 & Ho2 & Hodf2 & Hwl2 & Hnl2 & He2).
    exists tp2, w2. split.
    { cbn [process_lines]. unfold mbind at 1, io_bind at 1.
      rewrite Hl. exact Hrun. }
    split.
    { rewrite Hf2, Hf1, insert_insert_eq. f_equal.
      rewrite Hwl1, Hnl1, added_snoc. by rewrite <- !app_assoc. }
    split; [congruence|]. split.
    { rewrite Ho2, Ho1. cbn [map concat]. by rewrite <- app_assoc. }
    split; [exact Hodf2|]. split.
    { rewrite Hwl2, Hwl1. cbn. by rewrite orb_true_r. }
    split; congruence.
Qed.

Lemma run_then_exit_ok (tp tp' : TextProcessor) (body : io TextProcessor)
    (f : string) (w w' : world) :
  body w = (Ok tp', w') -> odf tp' = Some f ->
  run_then_exit tp body w = (Ok tt, w').
Proof.
  intros Hb Hodf. unfold run_then_exit. rewrite Hb.
  unfold TextProcessor_exit. rewrite Hodf. reflexivity.
Qed.

Lemma run_then_exit_raise (tp : TextProcessor) (body : io TextProcessor)
    (f : string) (e : exn) (w w' : world) :
  body w = (Raise e, w') -> odf tp = Some f ->
  run_then_exit tp body w = (Raise e, w').
Proof.
  intros Hb Hodf. unfold run_then_exit. rewrite Hb.
  unfold TextProcessor_exit. rewrite Hodf. reflexivity.
Qed.

(** The run of [process_file] up to the loop: the message is printed,
    the directory made, the template read and the output opened with
    the BOM in it. *)
Lemma process_file_opens (self : App) (filename : string)
    (tp : TextProcessor) (w : world) (body : TextProcessor -> io TextProcessor) :
  let src := path_join (template_dir self) filename in
  let dst := path_join (live_dir self) filename in
  TextProcessor_init detect decode ra src dst w = (Ok tp, w) ->
  path_dirname dst <> ""%string ->
  exists tp1 w1,
    odf tp1 = Some dst /\ data tp1 = data tp /\
    written_line tp1 = false /\ newline tp1 = newline tp /\
    tp_encoding tp1 = tp_encoding tp /\
    files w1 = <[dst := default [] (bom tp)]> (files w) /\
    stdout w1 = stdout w ++ [MsgProcessing filename] /\
    (print (MsgProcessing filename);;
     ((fun w => if path_exists (path_dirname dst) w then (Ok tt, w)
                else makedirs (path_dirname dst) w) : io unit);;
     with_TextProcessor (TextProcessor_init detect decode ra src dst) body) w
    = run_then_exit tp1 (body tp1) w1.
Proof.
  intros src dst Hinit Hdir.
  destruct (init_ok_inv detect decode ra src dst w tp w Hinit)
    as (raw & text & s & _ & _ & _ & _ & _ & _ & _ & Hwl & _ & _ & Hnew & _).
  pose (w0 := World (files w) (dirs w) (stdout w ++ [MsgProcessing filename])).
  assert (Hpre : exists d,
            (if path_exists (path_dirname dst) w0 then (Ok tt, w0)
             else makedirs (path_dirname dst) w0)
            = (Ok tt, World (files w) d (stdout w ++ [MsgProcessing filename]))).
  { destruct (path_exists _ w0); [by eexists|].
    unfold makedirs. destruct (decide _) as [?|_]; [done|]. by eexists. }
  destruct Hpre as (d & Hpre).
  set (w0' := World (files w) d (stdout w ++ [MsgProcessing filename])) in *.
  assert (Hinit' : TextProcessor_init detect decode ra src dst w0' = (Ok tp, w0')).
  { pose proof (init_pure detect decode ra src dst w0') as Hp.
    pose proof (init_files_only detect decode ra src dst w0' w eq_refl) as Hfo.
    rewrite Hinit in Hfo. cbn in Hfo.
    destruct (TextProcessor_init detect decode ra src dst w0') as [r w2].
    cbn in Hp, Hfo. by subst. }
  destruct (enter_effect tp w0') as (tp1 & w1 & Hent & Hodf & Hdata & Hf & _ & Ho).
  exists tp1, w1. rewrite Hnew in Hodf, Hf.
  assert (Hrest : written_line tp1 = false /\ newline tp1 = newline tp /\
                  tp_encoding tp1 = tp_encoding tp).
  { unfold TextProcessor_enter in Hent. io_unfold.
    destruct (bom tp); injection Hent as <- _; cbn; by rewrite Hwl. }
  destruct Hrest as (Hwl1 & Hnl1 & He1).
  repeat split; try assumption.
  unfold mbind at 1, io_bind at 1. unfold print at 1. fold w0.
  unfold mbind at 1, io_bind at 1. rewrite Hpre.
  unfold with_TextProcessor. unfold mbind at 1, io_bind at 1. rewrite Hinit'.
  unfold mbind at 1, io_bind at 1. rewrite Hent. reflexivity.
Qed.

Lemma process_file_writes (self : App) (filename : string)
    (tp : TextProcessor) (texts : list pystr) (encs : list pybytes)
    (w : world) :
  TextProcessor_init detect decode ra
    (path_join (template_dir self) filename)
    (path_join (live_dir self) filename) w = (Ok tp, w) ->
  path_dirname (path_join (live_dir self) filename) <> ""%string ->
  Forall2 (fun line text => line_text self line = Ok text) (data tp) texts ->
  mapM (encode_opt (tp_encoding tp)) texts = Some encs ->
  exists w',
    process_file detect decode ra self filename w = (Ok tt, w') /\
    files w' =
      <[path_join (live_dir self) filename :=
          default [] (bom tp) ++ join_bytes (newline tp) encs]> (files w) /\
    stdout w' =
      stdout w ++ MsgProcessing filename
               :: concat (map (line_warnings self) (data tp)).
Proof.
  intros Hinit Hdir Hall Hm.
  destruct (process_file_opens self filename tp w
              (fun tp => process_lines self tp (data tp)) Hinit Hdir)
    as (tp1 & w1 & Hodf & Hdata & Hwl & Hnl & He & Hf & Ho & Hrun).
  unfold process_file. rewrite Hrun. rewrite Hdata.
  rewrite <- He in Hm.
  assert (Hat : files w1 !! path_join (live_dir self) filename
                = Some (default [] (bom tp))).
  { rewrite Hf. by rewrite lookup_insert_eq. }
  destruct (process_lines_ok self (data tp) texts encs tp1 _ _ w1
              Hodf Hat Hall Hm)
    as (tp2 & w2 & Hls & Hf2 & _ & Ho2 & Hodf2 & _).
  exists w2. split; [by apply (run_then_exit_ok _ tp2 _ _ _ _ Hls Hodf2)|].
  split.
  - rewrite Hf2, Hf, insert_insert_eq. f_equal. f_equal.
    rewrite Hwl, Hnl. unfold added. by destruct encs.
  - rewrite Ho2, Ho. by rewrite <- app_assoc.
Qed.

(** X8. A run of [process_file] in which every line converts and encodes
    returns normally and leaves in the live file the BOM (when the
    template had one), then the lines' texts joined by the template's
    newline bytes, with nothing after the last; it prints the file's
    message and then one warning per line with an unknown name, in the
    order of the lines. *)
Theorem process_file_output (self : App) (filename : string)
    (tp : TextProcessor) (texts : list pystr) (encs : list pybytes)
    (w : world) :
  TextProcessor_init detect decode ra
    (path_join (template_dir self) filename)
    (path_join (live_dir self) filename) w = (Ok tp, w) ->
  path_dirname (path_join (live_dir self) filename) <> ""%string ->
  Forall2 (fun line text => line_text self line = Ok text) (data tp) texts ->
  mapM (encode_opt (tp_encoding tp)) texts = Some encs ->
  exists w',
    process_file detect decode ra self filename w = (Ok tt, w') /\
    files w' =
      <[path_join (live_dir self) filename :=
          default [] (bom tp) ++ join_bytes (newline tp) encs]> (files w) /\
    stdout w' =
      stdout w ++ MsgProcessing filename
               :: concat (map (line_warnings self) (data tp)).
Proof. apply process_file_writes. Qed.

(** X9. When the text of a line cannot be computed (its default does not
    convert, or its name is outside the set of its action), the run of
    [process_file] ends with that exception and the live file is left
    behind cut short: it holds the BOM and the lines before the failing
    one, whatever it held before. *)
Theorem process_file_partial (self : App) (filename : string)
    (tp : TextProcessor) (done rest : list pystr) (bad : pystr) (e : exn)
    (texts : list pystr) (encs : list pybytes) (w : world) :
  TextProcessor_init detect decode ra
    (path_join (template_dir self) filename)
    (path_join (live_dir self) filename) w = (Ok tp, w) ->
  path_dirname (path_join (live_dir self) filename) <> ""%string ->
  data tp = done ++ bad :: rest ->
  Forall2 (fun line text => line_text self line = Ok text) done texts ->
  mapM (encode_opt (tp_encoding tp)) texts = Some encs ->
  line_text self bad = Raise e ->
  exists w',
    process_file detect decode ra self filename w = (Raise e, w') /\
    files w' =
      <[path_join (live_dir self) filename :=
          default [] (bom tp) ++ join_bytes (newline tp) encs]> (files w).
Proof.
  intros Hinit Hdir Hsplit Hall Hm Hbad.
  destruct (process_file_opens self filename tp w
              (fun tp => process_lines self tp (data tp)) Hinit Hdir)
    as (tp1 & w1 & Hodf & Hdata & Hwl & Hnl & He & Hf & Ho & Hrun).
  unfold process_file. rewrite Hrun. rewrite Hdata, Hsplit.
  rewrite <- He in Hm.
  assert (Hat : files w1 !! path_join (live_dir self) filename
                = Some (default [] (bom tp))).
  { rewrite Hf. by rewrite lookup_insert_eq. }
  assert (Happ : forall l1 l2 tpa wa tpb wb,
            process_lines self tpa l1 wa = (Ok tpb, wb) ->
            process_lines self tpa (l1 ++ l2) wa
            = process_lines self tpb l2 wb).
  { induction l1 as [|x l1 IH]; intros l2 tpa wa tpb wb H.
    - cbn in H. by injection H as -> ->.
    - cbn [process_lines app] in *. unfold mbind, io_bind in *.
      destruct (process_line self tpa x wa) as [[tpc|?] wc]; [|discriminate].
      by apply IH. }
  destruct (process_lines_ok self done texts encs tp1 _ _ w1
              Hodf Hat Hall Hm)
    as (tp2 & w2 & Hls & Hf2 & _ & _ & _ & _).
  destruct (process_line_raises self tp2 bad e w2 Hbad)
    as (w3 & Hl & Hf3 & _).
  exists w3. split.
  - eapply run_then_exit_raise; [|exact Hodf].
    rewrite (Happ _ _ _ _ _ _ Hls).
    by apply process_lines_raise.
  - rewrite Hf3, Hf2, Hf, insert_insert_eq. f_equal. f_equal.
    rewrite Hwl, Hnl. unfold added. by destruct encs.
Qed.

End WholeFile.

Lemma process_file_output_witness :
  exists w',
    process_file sample_detect utf8_decode sample_readahead
      (App_init "t" "l" ∅) "f.txt" (one_file_world "f.txt" sample_template)
    = (Ok tt, w') /\
    files w' =
      <[path_join "l" "f.txt" :=
          default [] (bom sample_tp)
          ++ join_bytes (newline sample_tp)
               [lit "a = 1"; lit "b = 2,"; lit "c"]]>
        (files (one_file_world "f.txt" sample_template)) /\
    stdout w' =
      stdout (one_file_world "f.txt" sample_template)
      ++ MsgProcessing "f.txt"
         :: concat (map (line_warnings (App_init "t" "l" ∅)) (data sample_tp)).
Proof.
  apply (process_file_output sample_detect utf8_decode sample_readahead
           (App_init "t" "l" ∅) "f.txt" sample_tp
           [lit "a = 1"; lit "b = 2,"; lit "c"]).
  - vm_compute. reflexivity.
  - vm_compute. discriminate.
  - repeat constructor.
  - reflexivity.
Defined.

Lemma process_file_partial_witness :
  exists w',
    process_file sample_detect utf8_decode sample_readahead
      (App_init "t" "l" {[ lit "x" := ActionScaleInt (Int 2) false ]})
      "f.txt"
      (one_file_world "f.txt"
         (lit "a" ++ [10%N] ++ lit "b = @x|two@," ++ [10%N]))
    = (Raise ValueError, w') /\
    files w' =
      <[path_join "l" "f.txt" := default [] None ++ join_bytes [10%N] [lit "a"]]>
        (files (one_file_world "f.txt"
                  (lit "a" ++ [10%N] ++ lit "b = @x|two@," ++ [10%N]))).
Proof.
  apply (process_file_partial sample_detect utf8_decode sample_readahead
           (App_init "t" "l" {[ lit "x" := ActionScaleInt (Int 2) false ]})
           "f.txt"
           (MkTextProcessor "t/f.txt" "l/f.txt" false (Some "ascii"%string)
              Ascii None [10%N] [lit "a"; lit "b = @x|two@,"] None)
           [lit "a"] [] (lit "b = @x|two@,") ValueError [lit "a"]).
  - vm_compute. reflexivity.
  - vm_compute. discriminate.
  - reflexivity.
  - repeat constructor.
  - reflexivity.
  - vm_compute. reflexivity.
Defined.

(* ===================================================================== *)
(** * Theorems: the lines [__init__] reads *)
(* ===================================================================== *)

Lemma no_terminator_cons c l :
  no_terminator (c :: l) <-> c <> 10%N /\ c <> 13%N /\ no_terminator l.
Proof.
  unfold no_terminator. cbn [has_terminator existsb].
  fold (has_terminator l).
  destruct (N.eqb_spec c 10), (N.eqb_spec c 13), (has_terminator l); cbn;
    intuition congruence.
Qed.

Lemma terminated_cr_start ls tail :
  Forall no_terminator ls -> no_terminator tail ->
  starts_with_lf (terminated_text [13%N] ls ++ tail) = false.
Proof.
  intros Hls Ht. destruct ls as [|[|c l] ls]; cbn.
  - destruct tail as [|c t]; [reflexivity|].
    apply no_terminator_cons in Ht as (Hc & _). cbn.
    by apply N.eqb_neq.
  - reflexivity.
  - apply Forall_cons in Hls as [Hl _].
    apply no_terminator_cons in Hl as (Hc & _). by apply N.eqb_neq.
Qed.

Lemma translate_line l nl rest :
  no_terminator l -> nl ∈ newline_bytes ->
  (nl = [13%N] -> starts_with_lf rest = false) ->
  translate_newlines (l ++ nl ++ rest) = l ++ 10%N :: translate_newlines rest.
Proof.
  intros Hl Hnl Hrest. induction l as [|c l IH].
  - cbn [app]. unfold newline_bytes in Hnl.
    apply elem_of_cons in Hnl as [->|Hnl]; [reflexivity|].
    apply elem_of_cons in Hnl as [->|Hnl].
    + specialize (Hrest eq_refl). destruct rest as [|c2 rest]; [reflexivity|].
      cbn in Hrest. cbn. by rewrite Hrest.
    + apply list_elem_of_singleton in Hnl as ->. reflexivity.
  - apply no_terminator_cons in Hl as (_ & Hc & Hl).
    cbn [app translate_newlines].
    destruct (N.eqb_spec c 13); [congruence|]. by rewrite (IH Hl).
Qed.

Lemma translate_terminated nl ls :
  nl ∈ newline_bytes -> Forall no_terminator ls ->
  translate_newlines (terminated_text nl ls) = terminated_text [10%N] ls.
Proof.
  intros Hnl. induction ls as [|l ls IH]; intros Hls; [reflexivity|].
  apply Forall_cons in Hls as [Hl Hls].
  unfold terminated_text in *. cbn [map concat].
  rewrite <- !app_assoc. rewrite translate_line; try assumption.
  - rewrite (IH Hls). reflexivity.
  - intros ->. rewrite <- (app_nil_r (concat _)).
    by apply (terminated_cr_start ls []).
Qed.

Lemma readlines_line l rest :
  no_terminator l ->
  readlines (l ++ 10%N :: rest) = (l ++ [10%N]) :: readlines rest.
Proof.
  intros Hl. induction l as [|c l IH]; [reflexivity|].
  apply no_terminator_cons in Hl as (Hc & _ & Hl).
  cbn [app readlines]. destruct (N.eqb_spec c 10); [congruence|].
  by rewrite (IH Hl).
Qed.

Lemma readlines_terminated ls :
  Forall no_terminator ls ->
  readlines (terminated_text [10%N] ls) = map (fun l => l ++ [10%N]) ls.
Proof.
  induction ls as [|l ls IH]; intros Hls; [reflexivity|].
  apply Forall_cons in Hls as [Hl Hls].
  unfold terminated_text in *. cbn [map concat].
  rewrite <- app_assoc. cbn [app]. rewrite readlines_line by exact Hl.
  by rewrite (IH Hls).
Qed.

Lemma slice_terminated a l : slice_to_last a (l ++ [10%N]) = drop a l.
Proof. unfold slice_to_last. by rewrite removelast_last. Qed.

Lemma scan_line l nl rest acc :
  no_terminator l -> nl ∈ newline_bytes ->
  (nl = [13%N] -> starts_with_lf rest = false) ->
  scan_newlines (l ++ nl ++ rest) acc
  = scan_newlines rest (mark_newline nl acc).
Proof.
  intros Hl Hnl Hrest. induction l as [|c l IH].
  - cbn [app]. unfold newline_bytes in Hnl.
    apply elem_of_cons in Hnl as [->|Hnl]; [reflexivity|].
    apply elem_of_cons in Hnl as [->|Hnl].
    + specialize (Hrest eq_refl). destruct rest as [|c2 rest]; [reflexivity|].
      cbn in Hrest. cbn. by rewrite Hrest.
    + apply list_elem_of_singleton in Hnl as ->. reflexivity.
  - apply no_terminator_cons in Hl as (Hc10 & Hc13 & Hl).
    cbn [app scan_newlines].
    destruct (N.eqb_spec c 13); [congruence|].
    destruct (N.eqb_spec c 10); [congruence|]. exact (IH Hl).
Qed.

Lemma mark_newline_idem nl acc :
  mark_newline nl (mark_newline nl acc) = mark_newline nl acc.
Proof.
  unfold mark_newline. destruct (decide _); [reflexivity|].
  destruct (decide _); reflexivity.
Qed.

Lemma scan_terminated nl ls :
  nl ∈ newline_bytes -> Forall no_terminator ls -> ls <> [] ->
  forall tail acc, no_terminator tail ->
    scan_newlines (terminated_text nl ls ++ tail) acc = mark_newline nl acc.
Proof.
  intros Hnl. induction ls as [|l ls IH]; intros Hls Hne tail acc Ht;
    [congruence|].
  apply Forall_cons in Hls as [Hl Hls].
  unfold terminated_text in *. cbn [map concat]. rewrite <- !app_assoc.
  rewrite scan_line; try assumption.
  - destruct ls as [|l2 ls].
    + cbn. by apply scan_no_terminator.
    + rewrite IH; try done. apply mark_newline_idem.
  - intros ->. by apply terminated_cr_start.
Qed.

Lemma has_terminator_terminated nl ls tail :
  nl ∈ newline_bytes -> ls <> [] ->
  has_terminator (terminated_text nl ls ++ tail) = true.
Proof.
  intros Hnl Hne. destruct ls as [|l ls]; [congruence|].
  unfold terminated_text. cbn [map concat].
  rewrite !has_terminator_app.
  assert (has_terminator nl = true) as ->.
  { unfold newline_bytes in Hnl.
    repeat (apply elem_of_cons in Hnl as [->|Hnl]; [reflexivity|]).
    by apply elem_of_nil in Hnl. }
  by rewrite orb_true_r.
Qed.

Lemma terminated_snoc nl ls l :
  terminated_text nl (ls ++ [l]) = terminated_text nl ls ++ l ++ nl.
Proof.
  unfold terminated_text. rewrite map_app, concat_app. cbn.
  by rewrite app_nil_r.
Qed.

(** [df.newlines] after the first [readline], when the whole text has
    gone through the decoder by then. *)
Lemma newlines_terminated nl ls :
  nl ∈ newline_bytes -> Forall no_terminator ls -> ls <> [] ->
  newlines_after_readline (terminated_text nl ls) = NlStr nl.
Proof.
  intros Hnl Hls Hne.
  assert (Hmark : newlines_of (mark_newline nl (SeenNl false false false))
                  = NlStr nl).
  { unfold newline_bytes in Hnl.
    repeat (apply elem_of_cons in Hnl as [->|Hnl]; [reflexivity|]).
    by apply elem_of_nil in Hnl. }
  unfold newlines_after_readline.
  assert (Hscan : forall s, s = terminated_text nl ls ->
            scan_newlines (classified s) (SeenNl false false false)
            = mark_newline nl (SeenNl false false false)).
  { intros s ->.
    pose proof (scan_terminated nl ls Hnl Hls Hne [] (SeenNl false false false)
                  eq_refl) as Hfull.
    rewrite app_nil_r in Hfull.
    destruct (decide (nl = [13%N])) as [->|Hcr].
    - (* the carriage return at the very end is held back *)
      destruct (exists_last Hne) as (init & l & ->).
      apply Forall_app in Hls as [Hinit Hl].
      apply Forall_cons in Hl as [Hl _].
      unfold classified. rewrite terminated_snoc.
      rewrite !app_assoc, last_snoc, removelast_last. cbn [N.eqb Pos.eqb andb].
      destruct init as [|l0 init].
      + cbn [terminated_text map concat app]. rewrite Hl.
        rewrite <- Hfull. unfold terminated_text. cbn.
        by rewrite app_nil_r.
      + rewrite has_terminator_terminated by done.
        by apply scan_terminated.
    - assert (Hlast : last (terminated_text nl ls) = Some 10%N).
      { destruct (exists_last Hne) as (init & l & ->).
        rewrite terminated_snoc. unfold newline_bytes in Hnl.
        apply elem_of_cons in Hnl as [->|Hnl];
          [by rewrite !app_assoc, last_snoc|].
        apply elem_of_cons in Hnl as [->|Hnl]; [congruence|].
        apply list_elem_of_singleton in Hnl as ->.
        change [13%N; 10%N] with ([13%N] ++ [10%N]).
        by rewrite !app_assoc, last_snoc. }
      unfold classified. rewrite Hlast. cbn [N.eqb Pos.eqb andb].
      exact Hfull. }
  by rewrite Hscan.
Qed.

Lemma encode_newline_ok enc nl :
  nl ∈ newline_bytes -> encode enc nl = Ok nl.
Proof.
  unfold newline_bytes. intros Hnl.
  repeat (apply elem_of_cons in Hnl as [->|Hnl]; [by destruct enc|]).
  by apply elem_of_nil in Hnl.
Qed.

Section ReadingLines.

Variable detect : pybytes -> detection.
Variable decode : pybytes -> option pystr.
Variable ra : pystr -> nat.

Lemma init_lines (src dst : string) (raw : pybytes) (nl l : pystr)
    (ls : list pystr) (w : world) (utf8 : bool) :
  files w !! src = Some raw ->
  num_lt (Float (det_confidence (detect (take 1024 raw)))) (Float float_0_9)
    = false ->
  det_encoding (detect (take 1024 raw))
    = Some (if utf8 then "UTF-8-SIG" else "ascii")%string ->
  decode raw = Some (terminated_text nl (l :: ls)) ->
  nl ∈ newline_bytes ->
  Forall no_terminator (l :: ls) ->
  (length (terminated_text nl (l :: ls))
   <= ra (terminated_text nl (l :: ls)))%nat ->
  TextProcessor_init detect decode ra src dst w
  = (Ok (MkTextProcessor src dst false
           (Some (if utf8 then "UTF-8-SIG" else "ascii")%string)
           (if utf8 then Utf8 else Ascii)
           (if utf8 then Some BOM_UTF8 else None)
           nl
           (drop (if utf8 then 1 else 0) l :: ls)
           None), w).
Proof.
  intros Hsrc Hconf Henc Hdec Hnl Hls Hra.
  assert (Hnls : newlines_after_readline
                   (take (ra (terminated_text nl (l :: ls)))
                         (terminated_text nl (l :: ls))) = NlStr nl).
  { rewrite take_ge by exact Hra. by apply newlines_terminated. }
  assert (Hlines : readlines (translate_newlines (terminated_text nl (l :: ls)))
                   = (l ++ [10%N]) :: map (fun l => l ++ [10%N]) ls).
  { rewrite translate_terminated by assumption.
    by rewrite readlines_terminated. }
  assert (Hmap : map (slice_to_last 0) (map (fun l => l ++ [10%N]) ls) = ls).
  { rewrite map_map. rewrite <- (map_id ls) at 2. apply map_ext.
    intros a. by rewrite slice_terminated. }
  assert (Hext : extract_lines (if utf8 then Some BOM_UTF8 else None)
                   (if utf8 then Utf8 else Ascii)
                   (readlines (translate_newlines
                                 (terminated_text nl (l :: ls))))
                 = Ok (drop (if utf8 then 1 else 0) l :: ls)).
  { rewrite Hlines. unfold extract_lines, extract_first. destruct utf8.
    - change (decode_opt Utf8 BOM_UTF8) with (Some [65279%N]).
      cbn -[slice_to_last]. by rewrite slice_terminated, Hmap.
    - cbn -[slice_to_last]. by rewrite slice_terminated, Hmap. }
  remember (terminated_text nl (l :: ls)) as text eqn:Htext.
  clear Htext Hra Hlines.
  unfold TextProcessor_init, read_file. io_unfold.
  unfold pybytes in *. rewrite Hsrc. cbn. rewrite Hconf, Henc.
  destruct utf8; cbn;
    repeat (destruct (decide _) as [?|?]; try done; cbn);
    rewrite ?Hsrc; cbn; rewrite Hdec; cbn; rewrite Hnls; cbn;
    rewrite (encode_newline_ok _ nl Hnl); cbn;
    rewrite Hext; reflexivity.
Qed.

(** X10. From a template whose text is a sequence of lines, each ended
    by the same newline sequence (line feed, carriage return, or both),
    [__init__] recovers that newline sequence and exactly those lines;
    under UTF-8-SIG the first line loses its first character, which is
    the byte order mark when the platform's decoder hands it out. *)
Theorem init_reads_lines (src dst : string) (raw : pybytes) (nl l : pystr)
    (ls : list pystr) (w : world) (utf8 : bool) :
  files w !! src = Some raw ->
  num_lt (Float (det_confidence (detect (take 1024 raw)))) (Float float_0_9)
    = false ->
  det_encoding (detect (take 1024 raw))
    = Some (if utf8 then "UTF-8-SIG" else "ascii")%string ->
  decode raw = Some (terminated_text nl (l :: ls)) ->
  nl ∈ newline_bytes ->
  Forall no_terminator (l :: ls) ->
  (length (terminated_text nl (l :: ls))
   <= ra (terminated_text nl (l :: ls)))%nat ->
  exists tp,
    TextProcessor_init detect decode ra src dst w = (Ok tp, w) /\
    newline tp = nl /\
    data tp = drop (if utf8 then 1 else 0) l :: ls /\
    bom tp = (if utf8 then Some BOM_UTF8 else None) /\
    tp_encoding tp = (if utf8 then Utf8 else Ascii).
Proof.
  intros Hsrc Hconf Henc Hdec Hnl Hls Hra.
  eexists. split; [by eapply init_lines|]. by destruct utf8.
Qed.

End ReadingLines.

Lemma init_reads_lines_witness :
  exists tp,
    TextProcessor_init sample_detect utf8_decode sample_readahead
      "t/f.txt" "l/f.txt"
      (one_file_world "f.txt" (terminated_text [13; 10]%N [lit "a"; lit "b"]))
    = (Ok tp,
       one_file_world "f.txt" (terminated_text [13; 10]%N [lit "a"; lit "b"])) /\
    newline tp = [13; 10]%N /\
    data tp = drop (if false then 1 else 0) (lit "a") :: [lit "b"] /\
    bom tp = (if false then Some BOM_UTF8 else None) /\
    tp_encoding tp = (if false then Utf8 else Ascii).
Proof.
  apply (init_reads_lines sample_detect utf8_decode sample_readahead
           "t/f.txt" "l/f.txt"
           (terminated_text [13; 10]%N [lit "a"; lit "b"])
           [13; 10]%N (lit "a") [lit "b"] _ false).
  - reflexivity.
  - reflexivity.
  - reflexivity.
  - reflexivity.
  - repeat constructor.
  - repeat constructor.
  - reflexivity.
Defined.

(* ===================================================================== *)
(** * Theorems: templates without macros *)
(* ===================================================================== *)

Section Copy.

Variable detect : pybytes -> detection.
Variable decode : pybytes -> option pystr.
Variable ra : pystr -> nat.




End Copy.


(* ===================================================================== *)
(** * Theorems: the names [process_files] works with *)
(* ===================================================================== *)

Lemma list_ascii_app (a b : string) :
  list_ascii_of_string (a +:+ b)
  = list_ascii_of_string a ++ list_ascii_of_string b.
Proof.
  induction a as [|c a IH]; [reflexivity|].
  change (c :: list_ascii_of_string (a +:+ b)
          = c :: (list_ascii_of_string a ++ list_ascii_of_string b)).
  by rewrite IH.
Qed.

Lemma list_ascii_length (a : string) :
  length (list_ascii_of_string a) = String.length a.
Proof. induction a as [|c a IH]; [reflexivity|]. cbn. by rewrite IH. Qed.

Lemma list_ascii_nil (a : string) :
  list_ascii_of_string a = [] -> a = ""%string.
Proof. by destruct a. Qed.

Lemma path_join_plain (a b : string) :
  a <> ""%string -> ends_with_slash a = false ->
  b <> ""%string -> starts_with_slash b = false ->
  path_join a b = (a +:+ "/" +:+ b)%string.
Proof.
  unfold ends_with_slash, starts_with_slash, path_join.
  intros Ha Hea Hb Hsb.
  destruct (list_ascii_of_string b) as [|c lb] eqn:Eb;
    [by apply list_ascii_nil in Eb|].
  destruct (rev (list_ascii_of_string a)) as [|z la] eqn:Ea.
  - apply (f_equal (@rev _)) in Ea. rewrite rev_involutive in Ea.
    by apply list_ascii_nil in Ea.
  - by rewrite Hsb, Hea.
Qed.

Lemma path_join_slashed (a b : string) :
  ends_with_slash a = true ->
  b <> ""%string -> starts_with_slash b = false ->
  path_join a b = (a +:+ b)%string.
Proof.
  unfold ends_with_slash, starts_with_slash, path_join.
  intros Hea Hb Hsb.
  destruct (list_ascii_of_string b) as [|c lb] eqn:Eb;
    [by apply list_ascii_nil in Eb|].
  destruct (rev (list_ascii_of_string a)) as [|z la] eqn:Ea; [discriminate|].
  by rewrite Hsb, Hea.
Qed.

(** X12. For a path made of the template directory and a relative name
    by [os.path.join], the slice [[len(template_dir)+1:]] of
    [process_files] gives the relative name back, so that [process_file]
    reads the very path that was listed; this needs a template
    directory that does not end in a slash. *)
Theorem relative_name_join (td rel : string) :
  td <> ""%string -> ends_with_slash td = false ->
  rel <> ""%string -> starts_with_slash rel = false ->
  relative_name td (path_join td rel) = rel /\
  path_join td (relative_name td (path_join td rel)) = path_join td rel.
Proof.
  intros Htd Hetd Hrel Hsrel.
  assert (H : relative_name td (path_join td rel) = rel).
  { rewrite path_join_plain by assumption.
    unfold relative_name. rewrite !list_ascii_app.
    rewrite <- list_ascii_length.
    change (list_ascii_of_string "/") with [slash].
    rewrite app_assoc.
    rewrite (drop_app_length' (list_ascii_of_string td ++ [slash]))
      by (rewrite length_app; cbn; lia).
    apply string_of_list_ascii_of_string. }
  split; [exact H|]. by rewrite H.
Qed.

Lemma relative_name_join_witness :
  relative_name "templates" (path_join "templates" "Game/Text/a.sjson")
    = "Game/Text/a.sjson"%string /\
  path_join "templates"
    (relative_name "templates" (path_join "templates" "Game/Text/a.sjson"))
    = path_join "templates" "Game/Text/a.sjson".
Proof.
  apply (relative_name_join "templates" "Game/Text/a.sjson");
    first [discriminate | reflexivity].
Defined.

(** X13. With a template directory that ends in a slash the same slice
    cuts one character too many: the name handed to [process_file] is the
    relative name without its first character. *)
Theorem relative_name_trailing_slash (td : string) (c : ascii) (rest : string) :
  ends_with_slash td = true ->
  is_slash c = false ->
  relative_name td (path_join td (String c rest)) = rest.
Proof.
  intros Hetd Hc.
  rewrite path_join_slashed; [|exact Hetd|discriminate|exact Hc].
  unfold relative_name. rewrite list_ascii_app.
  rewrite <- list_ascii_length.
  change (list_ascii_of_string (String c rest))
    with ([c] ++ list_ascii_of_string rest).
  rewrite app_assoc.
  rewrite (drop_app_length' (list_ascii_of_string td ++ [c]))
    by (rewrite length_app; cbn; lia).
  apply string_of_list_ascii_of_string.
Qed.

Lemma relative_name_trailing_slash_witness :
  relative_name "templates/" (path_join "templates/" (String "a" ".sjson"))
    = ".sjson"%string.
Proof.
  apply (relative_name_trailing_slash "templates/" "a" ".sjson");
    reflexivity.
Defined.

(* ===================================================================== *)
(** * Theorems: the constructors of the actions *)
(* ===================================================================== *)

Lemma int_to_float_1 : exists f, int_to_float 1 = Ok f.
Proof. eexists. vm_compute. reflexivity. Qed.

Lemma scale_of_zero (scale : num) :
  scale_of scale true = Raise ZeroDivisionError <-> num_is_zero scale = true.
Proof.
  unfold scale_of, num_truediv. destruct scale as [z|f].
  - destruct z as [|p|p]; cbn [num_is_zero Z.eqb].
    + by split.
    + destruct (is_inf _); cbn; split; discriminate.
    + destruct (is_inf _); cbn; split; discriminate.
  - destruct int_to_float_1 as (one & H1).
    cbn [num_to_float num_is_zero]. rewrite H1. cbn.
    destruct (float_is_zero f); cbn; split; congruence.
Qed.

(** X14. Without [inverse] the scaling constructors keep the factor as
    given and cannot fail; with [inverse] they raise [ZeroDivisionError]
    exactly when the factor is zero (the integer 0 or a float zero). *)
Theorem inverse_scale_zero_division (scale : num) (precision : Z) (u : bool) :
  new_ActionScaleInt scale false u = Ok (ActionScaleInt scale u) /\
  new_ActionScaleFloat scale false precision u
    = Ok (ActionScaleFloat scale precision u) /\
  (new_ActionScaleInt scale true u = Raise ZeroDivisionError
   <-> num_is_zero scale = true) /\
  (new_ActionScaleFloat scale true precision u = Raise ZeroDivisionError
   <-> num_is_zero scale = true).
Proof.
  split; [reflexivity|]. split; [reflexivity|].
  unfold new_ActionScaleInt, new_ActionScaleFloat.
  rewrite <- (scale_of_zero scale).
  split; (destruct (scale_of scale true) as [s|e]; cbn; split;
          congruence).
Qed.

(** X15. [ActionGodMode] cannot be built with zero steps: the division
    that computes the step raises (or, with integers too large for a
    float, the conversion before it does). *)
Theorem godmode_zero_steps (start_pct end_pct steps : num) (u : bool) :
  num_is_zero steps = true ->
  new_ActionGodMode start_pct end_pct steps u = Raise ZeroDivisionError \/
  new_ActionGodMode start_pct end_pct steps u = Raise OverflowError.
Proof.
  intros Hz. unfold new_ActionGodMode.
  assert (Hdiv : forall d, num_truediv d steps = Raise ZeroDivisionError \/
                           num_truediv d steps = Raise OverflowError).
  { intros d. unfold num_truediv.
    destruct d as [x|fx], steps as [y|fy]; cbn [num_is_zero] in Hz.
    - apply Z.eqb_eq in Hz as ->. by left.
    - cbn [num_to_float]. unfold int_to_float.
      destruct (is_inf _); cbn; [by right|]. rewrite Hz. by left.
    - apply Z.eqb_eq in Hz as ->. cbn. by left.
    - cbn. rewrite Hz. by left. }
  assert (Hsub : forall e, num_sub end_pct start_pct = Raise e ->
                             e = OverflowError).
  { intros e. unfold num_sub.
    destruct end_pct as [x|fx], start_pct as [y|fy]; cbn [num_to_float];
      unfold int_to_float; repeat (destruct (is_inf _); cbn); cbn;
      congruence. }
  destruct (num_sub end_pct start_pct) as [d|e]; cbn.
  - destruct (Hdiv d) as [-> | ->]; cbn; auto.
  - right. by rewrite (Hsub e eq_refl).
Qed.

Lemma godmode_zero_steps_witness :
  new_ActionGodMode (Float float_0_6) (Int 0) (Int 0) false
    = Raise ZeroDivisionError \/
  new_ActionGodMode (Float float_0_6) (Int 0) (Int 0) false
    = Raise OverflowError.
Proof.
  apply (godmode_zero_steps (Float float_0_6) (Int 0) (Int 0) false).
  reflexivity.
Defined.

(* ===================================================================== *)
(** * Theorems: a run over several templates *)
(* ===================================================================== *)

Section Runs.

Variable detect : pybytes -> detection.
Variable decode : pybytes -> option pystr.
Variable ra : pystr -> nat.
Variable walk : world -> string -> list string.

Lemma process_paths_app (self : App) (done rest : list string) :
  forall (w w1 : world),
    process_paths detect decode ra self done w = (Ok tt, w1) ->
    process_paths detect decode ra self (done ++ rest) w
    = process_paths detect decode ra self rest w1.
Proof.
  induction done as [|p done IH]; intros w w1 H.
  - cbn in H. by injection H as <-.
  - cbn [process_paths app] in *. unfold mbind, io_bind in *.
    destruct (process_file detect decode ra self _ w) as [[[]|e] w0];
      [|discriminate].
    by apply IH.
Qed.

(** X16. [process_files] has no handler of its own: the first template
    whose processing raises ends the whole run with that exception, in
    the world that file left; the templates listed after it are neither
    read nor written, and nothing is printed for them. *)
Theorem first_failure_stops (self : App) (done rest : list string)
    (bad : string) (e : exn) (w w1 w2 : world) :
  walk w (template_dir self) = done ++ bad :: rest ->
  process_paths detect decode ra self done w = (Ok tt, w1) ->
  process_file detect decode ra self
    (relative_name (template_dir self) bad) w1 = (Raise e, w2) ->
  process_files detect decode ra walk self w = (Raise e, w2).
Proof.
  intros Hwalk Hdone Hbad. unfold process_files. rewrite Hwalk.
  rewrite (process_paths_app self done (bad :: rest) w w1 Hdone).
  by apply process_paths_raise.
Qed.

End Runs.

Lemma first_failure_stops_witness :
  process_files sample_detect utf8_decode sample_readahead two_file_walk
    (App_init "t" "l" ∅) two_file_world
  = (Raise (RuntimeError (UnknownLineEndings "t/a.txt")),
     World (files two_file_world) (dirs two_file_world)
           [MsgProcessing "a.txt"]).
Proof.
  apply (first_failure_stops sample_detect utf8_decode sample_readahead
           two_file_walk (App_init "t" "l" ∅) [] ["t/b.txt"%string]
           "t/a.txt" _ two_file_world two_file_world).
  - reflexivity.
  - reflexivity.
  - vm_compute. reflexivity.
Defined.

(* ===================================================================== *)
(** * Theorems: the listing of the changes *)
(* ===================================================================== *)

Lemma label_max_bound (items : list (pystr * action)) (kv : pystr * action) :
  kv ∈ items ->
  (length (fst kv) <= foldr Nat.max 0 (map (fun kv => length (fst kv)) items))%nat.
Proof.
  induction items as [|x items IH]; intros Hin; [by apply elem_of_nil in Hin|].
  cbn [map foldr]. apply elem_of_cons in Hin as [->|Hin];
    [apply Nat.le_max_l|].
  etrans; [exact (IH Hin)|apply Nat.le_max_r].
Qed.

Lemma label_line_columns (n : nat) (label text : pystr) :
  (length label <= n)%nat ->
  take n (label_line n label text)
    = replicate (n - length label) (chr " ") ++ label /\
  drop n (label_line n label text) = lit ": " ++ text.
Proof.
  intros Hle. unfold label_line. rewrite app_assoc.
  assert (Hlen : length (replicate (n - length label) (chr " ") ++ label) = n).
  { rewrite length_app, length_replicate. by apply Nat.sub_add. }
  split.
  - rewrite take_app_length'; [reflexivity|by symmetry].
  - rewrite drop_app_length'; [reflexivity|by symmetry].
Qed.

Lemma list_lines_ok (n : nat) (items : list (pystr * action)) :
  forall descs,
    Forall2 (fun kv d => desc (snd kv) = Ok d) items descs ->
    list_lines n items
    = (zip_with (fun kv d => label_line n (fst kv) d) items descs, Ok tt).
Proof.
  induction items as [|[label a] items IH]; intros descs Hall.
  - apply Forall2_nil_inv_l in Hall as ->. reflexivity.
  - apply Forall2_cons_inv_l in Hall as (d & descs' & Hd & Hall & ->).
    cbn [list_lines zip_with fst snd] in *. rewrite Hd.
    by rewrite (IH descs' Hall).
Qed.

Lemma list_lines_stop (n : nat) (done : list (pystr * action)) :
  forall descs label a e rest,
    Forall2 (fun kv d => desc (snd kv) = Ok d) done descs ->
    desc a = Raise e ->
    list_lines n (done ++ (label, a) :: rest)
    = (zip_with (fun kv d => label_line n (fst kv) d) done descs, Raise e).
Proof.
  induction done as [|[l0 a0] done IH]; intros descs label a e rest Hall Ha.
  - apply Forall2_nil_inv_l in Hall as ->. cbn. by rewrite Ha.
  - apply Forall2_cons_inv_l in Hall as (d & descs' & Hd & Hall & ->).
    cbn [list_lines zip_with fst snd app] in *. rewrite Hd.
    by rewrite (IH descs' label a e rest Hall Ha).
Qed.

(** X17. When every description can be computed, the listing prints one
    line per entry of a non-empty catalog, in its order, and the lines
    are aligned: the first [label_max] columns of a line hold the label
    pushed to the right by spaces, and the colon, a space and the
    description follow from that column on. *)
Theorem listing_aligned (items : list (pystr * action)) (descs : list pystr) :
  items <> [] ->
  Forall2 (fun kv d => desc (snd kv) = Ok d) items descs ->
  exists n lines,
    label_max items = Ok n /\
    list_changes items = (lines, Ok tt) /\
    Forall2 (fun kvd line =>
               take n line
                 = replicate (n - length (fst (fst kvd))) (chr " ")
                   ++ fst (fst kvd) /\
               drop n line = lit ": " ++ snd kvd)
            (zip items descs) lines.
Proof.
  intros Hne Hall.
  set (n := foldr Nat.max 0%nat (map (fun kv => length (fst kv)) items)).
  assert (Hmax : label_max items = Ok n) by (by destruct items).
  exists n, (zip_with (fun kv d => label_line n (fst kv) d) items descs).
  split; [exact Hmax|]. split.
  - unfold list_changes. rewrite Hmax. by apply list_lines_ok.
  - assert (Hb : Forall (fun kv => (length (fst kv) <= n)%nat) items).
    { apply Forall_forall. intros kv Hin. by apply label_max_bound. }
    clear Hmax Hne. clearbody n. revert descs Hall.
    induction items as [|kv items IH]; intros descs Hall.
    + apply Forall2_nil_inv_l in Hall as ->. constructor.
    + apply Forall2_cons_inv_l in Hall as (d & descs' & Hd & Hall & ->).
      apply Forall_cons in Hb as [Hkv Hb].
      cbn [zip zip_with]. constructor.
      * cbn [fst snd]. by apply label_line_columns.
      * by apply IH.
Qed.

Lemma listing_aligned_witness :
  exists n lines,
    label_max [(lit "ab", ActionDefault);
               (lit "abcdef", ActionScaleInt (Int 4) false)] = Ok n /\
    list_changes [(lit "ab", ActionDefault);
                  (lit "abcdef", ActionScaleInt (Int 4) false)]
      = (lines, Ok tt) /\
    Forall2 (fun kvd line =>
               take n line
                 = replicate (n - length (fst (fst kvd))) (chr " ")
                   ++ fst (fst kvd) /\
               drop n line = lit ": " ++ snd kvd)
            (zip [(lit "ab", ActionDefault);
                  (lit "abcdef", ActionScaleInt (Int 4) false)]
                 [lit "Always use default"; lit "Scale by 4"]) lines.
Proof.
  apply (listing_aligned
           [(lit "ab", ActionDefault);
            (lit "abcdef", ActionScaleInt (Int 4) false)]
           [lit "Always use default"; lit "Scale by 4"]).
  - discriminate.
  - repeat constructor.
Defined.

(** X18. The listing has no handler either: an empty catalog ends it with
    the [ValueError] of [max] before anything is printed, and the first
    entry whose description raises ends it with that exception, after the
    lines of the entries before it and none for those after it. *)
Theorem listing_aborts (done rest : list (pystr * action)) (label : pystr)
    (a : action) (e : exn) (descs : list pystr) :
  Forall2 (fun kv d => desc (snd kv) = Ok d) done descs ->
  desc a = Raise e ->
  list_changes [] = ([], Raise ValueError) /\
  exists n,
    label_max (done ++ (label, a) :: rest) = Ok n /\
    list_changes (done ++ (label, a) :: rest)
    = (zip_with (fun kv d => label_line n (fst kv) d) done descs, Raise e).
Proof.
  intros Hall Ha. split; [reflexivity|].
  set (items := done ++ (label, a) :: rest).
  exists (foldr Nat.max 0%nat (map (fun kv => length (fst kv)) items)).
  assert (Hmax : label_max items
                 = Ok (foldr Nat.max 0%nat
                         (map (fun kv => length (fst kv)) items))).
  { subst items. by destruct done. }
  split; [exact Hmax|].
  unfold list_changes. rewrite Hmax. subst items.
  by apply list_lines_stop.
Qed.

Lemma listing_aborts_witness :
  list_changes [] = ([], Raise ValueError) /\
  exists n,
    label_max ([(lit "ab", ActionDefault)]
               ++ (lit "abcdef", ActionScaleFloat (Int 4) (-1) false)
               :: [(lit "c", ActionDefault)]) = Ok n /\
    list_changes ([(lit "ab", ActionDefault)]
                  ++ (lit "abcdef", ActionScaleFloat (Int 4) (-1) false)
                  :: [(lit "c", ActionDefault)])
    = (zip_with (fun kv d => label_line n (fst kv) d)
         [(lit "ab", ActionDefault)] [lit "Always use default"],
       Raise ValueError).
Proof.
  apply (listing_aborts [(lit "ab", ActionDefault)]
           [(lit "c", ActionDefault)] (lit "abcdef")
           (ActionScaleFloat (Int 4) (-1) false) ValueError
           [lit "Always use default"]).
  - repeat constructor.
  - reflexivity.
Defined.

(* ===================================================================== *)
(** * Theorems: the descriptions *)
(* ===================================================================== *)

Lemma digit_char_no_point (d : Z) :
  0 <= d -> (digit_char d =? chr ".")%N = false.
Proof.
  intros Hd. apply N.eqb_neq. unfold digit_char. intros H.
  apply (f_equal Z.of_N) in H. rewrite Z2N.id in H by lia.
  change (Z.of_N (chr ".")) with 46 in H. lia.
Qed.

Lemma digits_fuel_no_point (fuel : nat) :
  forall n acc,
    0 <= n ->
    Forall (fun c => (c =? chr ".")%N = false) acc ->
    Forall (fun c => (c =? chr ".")%N = false) (digits_fuel fuel n acc).
Proof.
  induction fuel as [|fuel IH]; intros n acc Hn Hacc; [exact Hacc|].
  cbn [digits_fuel]. destruct (n <? 10).
  - constructor; [by apply digit_char_no_point|exact Hacc].
  - apply IH.
    + apply Z.div_pos; lia.
    + constructor; [|exact Hacc]. apply digit_char_no_point.
      apply Z.mod_pos_bound. lia.
Qed.

Lemma drop_while_no_point (pre rest : pystr) :
  Forall (fun c => (c =? chr ".")%N = false) pre ->
  drop_while (fun c => negb (c =? chr ".")%N) (pre ++ chr "." :: rest)
  = chr "." :: rest.
Proof.
  induction pre as [|c pre IH]; intros Hpre; [reflexivity|].
  apply Forall_cons in Hpre as [Hc Hpre].
  cbn [app drop_while]. rewrite Hc. cbn. by apply IH.
Qed.

Lemma fixed_digits_places (q p : Z) (sign : pystr) :
  0 <= q -> 0 < p ->
  Forall (fun c => (c =? chr ".")%N = false) sign ->
  decimal_places (sign ++ fixed_digits q p) = Some (Z.to_nat p).
Proof.
  intros Hq Hp Hsign. unfold fixed_digits, decimal_places.
  destruct (Z.eqb_spec p 0) as [?|_]; [lia|].
  set (ds := zeros (p + 1 - Z.of_nat (length (nat_digits q))) ++ nat_digits q).
  assert (Hds : Forall (fun c => (c =? chr ".")%N = false) ds).
  { apply Forall_app. split.
    - unfold zeros. apply Forall_replicate. reflexivity.
    - unfold nat_digits. apply digits_fuel_no_point; [exact Hq|constructor]. }
  assert (Hlen : (Z.to_nat p < length ds)%nat).
  { subst ds. rewrite length_app. unfold zeros. rewrite length_replicate.
    lia. }
  rewrite app_assoc. rewrite drop_while_no_point.
  - rewrite length_drop. f_equal. lia.
  - apply Forall_app. split; [exact Hsign|]. by apply Forall_take.
Qed.

(** X19. With a precision from 1 up to [INT_MAX] and a finite factor,
    the description of an [ActionScaleFloat] shows the factor with
    exactly that many digits after the decimal point. *)
Theorem scale_float_desc_places (scale : num) (precision : Z) (u : bool)
    (x : float) :
  0 < precision <= 2147483647 ->
  num_to_float scale = Ok x ->
  is_finite x = true ->
  exists t,
    desc (ActionScaleFloat scale precision u)
      = Ok (disabled_suffix u (lit "Scale by " ++ t ++ lit " as a float")) /\
    decimal_places t = Some (Z.to_nat precision).
Proof.
  intros Hp Hx Hfin. exists (format_fixed x precision). split.
  - cbn [desc]. unfold format_scale. rewrite Hx.
    destruct (Z.ltb_spec precision 0); [lia|].
    destruct (Z.ltb_spec 9223372036854775807 precision); [lia|].
    destruct (Z.ltb_spec 2147483647 precision); [lia|]. reflexivity.
  - destruct x as [s|s| |s m e]; try discriminate; unfold format_fixed.
    + apply fixed_digits_places; [lia|lia|].
      destruct s; repeat constructor.
    + apply fixed_digits_places; [|lia|destruct s; repeat constructor].
      apply div_half_even_bounds.
      * unfold dyadic_num. apply Z.mul_nonneg_nonneg; [|apply Z.pow_nonneg; lia].
        apply Z.mul_nonneg_nonneg; [lia|apply Z.pow_nonneg; lia].
      * unfold dyadic_den. apply Z.pow_pos_nonneg; lia.
Qed.

Lemma scale_float_desc_places_witness :
  exists t,
    desc (ActionScaleFloat (Int 4) 6 true)
      = Ok (disabled_suffix true
              (lit "Scale by " ++ t ++ lit " as a float")) /\
    decimal_places t = Some (Z.to_nat 6).
Proof.
  apply (scale_float_desc_places (Int 4) 6 true
           (binary_normalize prec emax 4 0 false)).
  - lia.
  - reflexivity.
  - reflexivity.
Defined.

(* ===================================================================== *)
(** * Theorems: the live directory *)
(* ===================================================================== *)

Section Directories.

Variable detect : pybytes -> detection.
Variable decode : pybytes -> option pystr.
Variable ra : pystr -> nat.

Lemma write_keeps_dirs (tp : TextProcessor) (text : pystr) (w : world) :
  dirs (snd (TextProcessor_write tp text w)) = dirs w.
Proof.
  unfold TextProcessor_write. destruct (odf tp) as [f|]; [|reflexivity].
  destruct (encode (tp_encoding tp) text) as [b|e];
    destruct (written_line tp); reflexivity.
Qed.

Lemma process_line_keeps_dirs (self : App) (tp : TextProcessor)
    (line : pystr) (w : world) :
  dirs (snd (process_line self tp line w)) = dirs w.
Proof.
  unfold process_line.
  destruct (macro_match line) as [m|]; [|apply write_keeps_dirs].
  unfold mbind at 1, io_bind at 1.
  destruct (changes self !! occ_name m) as [a|]; io_unfold.
  - destruct (process a _ _) as [v|e]; [|reflexivity].
    apply write_keeps_dirs.
  - destruct (process (default_action self) _ _) as [v|e]; [|reflexivity].
    rewrite write_keeps_dirs. reflexivity.
Qed.

Lemma process_lines_keeps_dirs (self : App) (lines : list pystr) :
  forall (tp : TextProcessor) (w : world),
    dirs (snd (process_lines self tp lines w)) = dirs w.
Proof.
  induction lines as [|line lines IH]; intros tp w; [reflexivity|].
  cbn [process_lines]. unfold mbind, io_bind.
  pose proof (process_line_keeps_dirs self tp line w) as Hl.
  destruct (process_line self tp line w) as [[tp1|e] w1]; cbn in Hl;
    [|exact Hl].
  by rewrite IH.
Qed.

Lemma with_keeps_dirs (src dst : string) (self : App) (w : world) :
  dirs (snd (with_TextProcessor (TextProcessor_init detect decode ra src dst)
               (fun tp => process_lines self tp (data tp)) w))
  = dirs w.
Proof.
  unfold with_TextProcessor. unfold mbind at 1, io_bind at 1.
  pose proof (init_pure detect decode ra src dst w) as Hp.
  destruct (TextProcessor_init detect decode ra src dst w) as [[tp|e] w1];
    cbn in Hp; subst w1; [|reflexivity].
  unfold mbind at 1, io_bind at 1.
  destruct (enter_effect tp w) as (tp1 & w2 & -> & _ & _ & _ & Hd & _).
  rewrite <- Hd. unfold run_then_exit.
  pose proof (process_lines_keeps_dirs self (data tp1) tp1 w2) as Hl.
  destruct (process_lines self tp1 (data tp1) w2) as [[tp2|e] w3];
    cbn in Hl; unfold mbind, io_bind.
  - pose proof (exit_pure tp2 w3) as Hx.
    destruct (TextProcessor_exit tp2 w3) as [[?|?] w4]; cbn in Hx; by subst.
  - pose proof (exit_pure tp1 w3) as Hx.
    destruct (TextProcessor_exit tp1 w3) as [[?|?] w4]; cbn in Hx; by subst.
Qed.

Lemma dirs_after_process_file (self : App) (filename : string) (w : world) :
  path_exists (path_dirname (path_join (live_dir self) filename)) w = false ->
  path_dirname (path_join (live_dir self) filename) <> ""%string ->
  dirs (snd (process_file detect decode ra self filename w))
  = dirs w ∪ list_to_set
      (filter (fun x => x ≠ ""%string)
         (ancestors
            (S (String.length
                  (path_dirname (path_join (live_dir self) filename))))
            (path_dirname (path_join (live_dir self) filename)))).
Proof.
  intros Hmissing Hname. unfold process_file.
  unfold mbind at 1, io_bind at 1. unfold print at 1.
  set (w0 := World (files w) (dirs w) (stdout w ++ [MsgProcessing filename])).
  unfold mbind at 1, io_bind at 1.
  change (path_exists (path_dirname (path_join (live_dir self) filename)) w0)
    with (path_exists (path_dirname (path_join (live_dir self) filename)) w).
  rewrite Hmissing. unfold makedirs.
  destruct (decide _) as [?|_]; [done|].
  by rewrite with_keeps_dirs.
Qed.

(** X20. The live directory is made before the template is looked at:
    when it was missing and has a name, it exists once [process_file] is
    over, however the run ends (a refused template leaves the new
    directory behind), and no directory is ever removed. *)
Theorem live_directory_made (self : App) (filename : string) (w : world) :
  path_exists (path_dirname (path_join (live_dir self) filename)) w = false ->
  path_dirname (path_join (live_dir self) filename) <> ""%string ->
  path_dirname (path_join (live_dir self) filename)
    ∈ dirs (snd (process_file detect decode ra self filename w)) /\
  dirs w ⊆ dirs (snd (process_file detect decode ra self filename w)).
Proof.
  intros Hmissing Hname.
  rewrite (dirs_after_process_file self filename w Hmissing Hname).
  split; [|apply union_subseteq_l].
  apply elem_of_union_r, elem_of_list_to_set, list_elem_of_filter.
  split; [exact Hname|].
  cbn [ancestors]. destruct (decide _); [by apply list_elem_of_singleton|].
  by left.
Qed.

End Directories.

Lemma live_directory_made_witness :
  path_dirname (path_join (live_dir (App_init "t" "l" ∅)) "sub/f.txt")
    ∈ dirs (snd (process_file sample_detect utf8_decode sample_readahead
                   (App_init "t" "l" ∅) "sub/f.txt"
                   (one_file_world "f.txt" (lit "a" ++ [10%N])))) /\
  dirs (one_file_world "f.txt" (lit "a" ++ [10%N]))
    ⊆ dirs (snd (process_file sample_detect utf8_decode sample_readahead
                   (App_init "t" "l" ∅) "sub/f.txt"
                   (one_file_world "f.txt" (lit "a" ++ [10%N])))).
Proof.
  apply (live_directory_made sample_detect utf8_decode sample_readahead
           (App_init "t" "l" ∅) "sub/f.txt").
  - vm_compute. reflexivity.
  - vm_compute. discriminate.
Defined.
